(** * Smart-Invoice-Splitter: record normalisation, table hints, status polling
      and the archived extraction routes

    A shallow embedding of
    - the zod coercions [numberLike], [optionalString] and the line-item
      object schema of [InvoiceExtractSchema];
    - [norm], [scoreHeader] and [deriveProductTableHints];
    - the client loop [startBatchStatusPolling];
    - the API router with its [SPLIT_ONLY] guard and [sendArchivedApi];
    followed by the properties established about them.

    Conventions.  A JavaScript string is a [string] whose characters are the
    code units U+0000..U+00FF; a JavaScript number is an IEEE 754 binary64
    value, a [spec_float] with precision 53 and maximal exponent 1024;
    [undefined] as the result of a coercion is [None]. *)

From Stdlib Require Import ZArith NArith String Ascii List Bool Lia.
From Stdlib Require Import Floats.SpecFloat Sorting.Sorted Sorting.Permutation.
From stdpp Require Import gmap strings list pretty.
From Equations Require Import Equations.

Open Scope string_scope.

(** ** The JavaScript runtime functions the sources call *)

Module JS.

(** *** Characters and strings *)

Definition code (c : ascii) : N := N_of_ascii c.

(** WhiteSpace and LineTerminator: the characters matched by [\s] and removed
    by [String.prototype.trim] (TAB, LF, VT, FF, CR, SP, NBSP). *)
Definition isWhiteSpace (c : ascii) : bool :=
  let n := code c in
  ((9 <=? n) && (n <=? 13) || (n =? 32) || (n =? 160))%N.

(** [\d] *)
Definition isDigit (c : ascii) : bool :=
  let n := code c in ((48 <=? n) && (n <=? 57))%N.

Definition isEmpty (s : string) : bool :=
  match s with "" => true | String _ _ => false end.

Fixpoint trimStart (s : string) : string :=
  match s with
  | "" => ""
  | String c r => if isWhiteSpace c then trimStart r else s
  end.

Fixpoint trimEnd (s : string) : string :=
  match s with
  | "" => ""
  | String c r =>
      let r' := trimEnd r in
      if isWhiteSpace c && isEmpty r' then "" else String c r'
  end.

(** [s.trim()] *)
Definition trim (s : string) : string := trimEnd (trimStart s).

Fixpoint forallChars (p : ascii -> bool) (s : string) : bool :=
  match s with
  | "" => true
  | String c r => p c && forallChars p r
  end.

Fixpoint filterChars (p : ascii -> bool) (s : string) : string :=
  match s with
  | "" => ""
  | String c r => if p c then String c (filterChars p r) else filterChars p r
  end.

Fixpoint mapChars (f : ascii -> ascii) (s : string) : string :=
  match s with
  | "" => ""
  | String c r => String (f c) (mapChars f r)
  end.

Fixpoint startsWith (p s : string) : bool :=
  match p, s with
  | "", _ => true
  | String a p', String b s' => Ascii.eqb a b && startsWith p' s'
  | String _ _, "" => false
  end.

(** [h.includes(g)] *)
Fixpoint includes (h g : string) : bool :=
  startsWith g h ||
  match h with
  | "" => false
  | String _ r => includes r g
  end.

(** The line feed, written [\n] in the sources. *)
Definition LF : string := String (ascii_of_N 10) "".

(** [a.join(sep)] *)
Definition join (sep : string) (a : list string) : string := String.concat sep a.

(** [c.toLowerCase()] on one code unit of the range: A-Z, and the Latin-1
    capitals U+00C0..U+00DE except the multiplication sign U+00D7. *)
Definition lowerChar (c : ascii) : ascii :=
  let n := code c in
  if ((65 <=? n) && (n <=? 90) || (192 <=? n) && (n <=? 222) && negb (n =? 215))%N
  then ascii_of_N (n + 32) else c.

Definition toLowerCase (s : string) : string := mapChars lowerChar s.

(** [a.sort(cmp)]: the sort of an array is stable; [cmp x y > 0] puts [x]
    after [y]. *)
Fixpoint sortInsert {A} (cmp : A -> A -> Z) (x : A) (l : list A) : list A :=
  match l with
  | [] => [x]
  | y :: r => if (0 <? cmp x y)%Z then y :: sortInsert cmp x r else x :: l
  end.

Definition sort {A} (cmp : A -> A -> Z) (l : list A) : list A :=
  foldr (sortInsert cmp) [] l.

(** *** Numbers *)

Definition number : Type := spec_float.

Definition prec : Z := 53.
Definition emax : Z := 1024.

Definition NaN : number := S754_nan.
Definition Infinity (neg : bool) : number := S754_infinity neg.
Definition zero (neg : bool) : number := S754_zero neg.

(** [Number.isFinite(n)] *)
Definition isFinite (n : number) : bool :=
  match n with
  | S754_zero _ | S754_finite _ _ _ => true
  | S754_infinity _ | S754_nan => false
  end.

(** The binary64 value nearest to [m * 10^e] (ties to even), for [m >= 0]. *)
Definition roundDecimal (m e : Z) : number :=
  match m with
  | Zpos p =>
      if (0 <=? e)%Z
      then binary_normalize prec emax (m * 10 ^ e) 0 false
      else SFdiv prec emax (S754_finite false p 0)
                           (S754_finite false (Z.to_pos (10 ^ (- e))) 0)
  | _ => S754_zero false
  end.

Definition withSign (neg : bool) (x : number) : number :=
  if neg then SFopp x else x.

(** The value of a digit in a radix up to 16. *)
Definition digitValue (c : ascii) : Z :=
  let n := Z.of_N (code c) in
  if isDigit c then n - 48
  else if ((97 <=? n) && (n <=? 102))%Z then n - 87
  else if ((65 <=? n) && (n <=? 70))%Z then n - 55
  else 16.

Definition isRadixDigit (radix : Z) (c : ascii) : bool :=
  (digitValue c <? radix)%Z.

Fixpoint digitsValueFrom (radix acc : Z) (ds : string) : Z :=
  match ds with
  | "" => acc
  | String c r => digitsValueFrom radix (acc * radix + digitValue c) r
  end.

Definition digitsValue (radix : Z) (ds : string) : Z :=
  digitsValueFrom radix 0 ds.

(** The longest prefix of decimal digits, and what follows it. *)
Fixpoint spanDigits (s : string) : string * string :=
  match s with
  | "" => ("", "")
  | String c r =>
      if isDigit c
      then let '(d, t) := spanDigits r in (String c d, t)
      else ("", s)
  end.

Definition splitSign (s : string) : bool * string :=
  match s with
  | String "+" r => (false, r)
  | String "-" r => (true, r)
  | _ => (false, s)
  end.

(** ExponentPart, or nothing: the decimal exponent it denotes. *)
Definition parseExponentPart (s : string) : option Z :=
  match s with
  | "" => Some 0%Z
  | String c r =>
      if (Ascii.eqb c "e" || Ascii.eqb c "E")
      then let '(neg, ds) := splitSign r in
           if negb (isEmpty ds) && forallChars isDigit ds
           then Some (if neg then - digitsValue 10 ds else digitsValue 10 ds)%Z
           else None
      else None
  end.

(** What a StrNumericLiteral denotes. *)
Inductive numericLiteral : Type :=
| LitInfinity (neg : bool)
| LitDecimal (neg : bool) (m e : Z)      (* (-1)^neg * m * 10^e *)
| LitInteger (n : Z).                    (* 0x.., 0o.., 0b.. *)

(** StrUnsignedDecimalLiteral other than Infinity: mantissa and exponent. *)
Definition parseUnsignedDecimal (s : string) : option (Z * Z) :=
  let '(ip, r1) := spanDigits s in
  match r1 with
  | String "." r2 =>
      let '(fp, r3) := spanDigits r2 in
      if isEmpty ip && isEmpty fp then None
      else match parseExponentPart r3 with
           | Some e => Some (digitsValue 10 (ip ++ fp), e - Z.of_nat (String.length fp))%Z
           | None => None
           end
  | _ =>
      if isEmpty ip then None
      else match parseExponentPart r1 with
           | Some e => Some (digitsValue 10 ip, e)
           | None => None
           end
  end.

Definition radixPrefix (s : string) : option (Z * string) :=
  match s with
  | String "0" (String c r) =>
      if Ascii.eqb c "x" || Ascii.eqb c "X" then Some (16%Z, r)
      else if Ascii.eqb c "o" || Ascii.eqb c "O" then Some (8%Z, r)
      else if Ascii.eqb c "b" || Ascii.eqb c "B" then Some (2%Z, r)
      else None
  | _ => None
  end.

(** The grammar StrNumericLiteral on a string without surrounding white
    space; [None] when the string is not in the grammar. *)
Definition parseNumericLiteral (s : string) : option numericLiteral :=
  match radixPrefix s with
  | Some (radix, ds) =>
      if negb (isEmpty ds) && forallChars (isRadixDigit radix) ds
      then Some (LitInteger (digitsValue radix ds))
      else None
  | None =>
      let '(neg, u) := splitSign s in
      if String.eqb u "Infinity" then Some (LitInfinity neg)
      else match parseUnsignedDecimal u with
           | Some (m, e) => Some (LitDecimal neg m e)
           | None => None
           end
  end.

Definition literalValue (l : numericLiteral) : number :=
  match l with
  | LitInfinity neg => Infinity neg
  | LitDecimal neg m e => withSign neg (roundDecimal m e)
  | LitInteger n => roundDecimal n 0
  end.

(** [Number(s)] on a string: StringToNumber. *)
Definition Number (s : string) : number :=
  let t := trim s in
  if isEmpty t then zero false
  else match parseNumericLiteral t with
       | Some l => literalValue l
       | None => NaN
       end.

(** *** [String(x)] on a number: Number::toString in radix 10 *)

(** The positive rational [num / den] is below [10^n]. *)
Definition belowPow10 (num den n : Z) : bool :=
  if (0 <=? n)%Z then (num <? den * 10 ^ n)%Z else (num * 10 ^ (- n) <? den)%Z.

Fixpoint decimalExponentFrom (fuel : nat) (num den n : Z) : Z :=
  match fuel with
  | O => n
  | S f => if belowPow10 num den n then n
           else decimalExponentFrom f num den (n + 1)
  end.

(** The [n] with [10^(n-1) <= num/den < 10^n]; every positive binary64 value
    lies between [10^-324] and [10^309]. *)
Definition decimalExponent (num den : Z) : Z :=
  decimalExponentFrom 640 num den (-324).

(** A [k]-digit [s] with [s * 10^(n-k)] rounding to [x], the closest to [x]
    when two of them do (the even one on a tie); [x] is [num / den]. *)
Definition digitsCandidate (x : number) (num den n k : Z) : option (Z * Z) :=
  let j := (k - n)%Z in
  let num' := (if 0 <=? j then num * 10 ^ j else num)%Z in
  let den' := (if 0 <=? j then den else den * 10 ^ (- j))%Z in
  let lo := (num' / den')%Z in
  let r := (num' mod den')%Z in
  let hi := (lo + 1)%Z in
  let okLo := SFeqb (roundDecimal lo (n - k)) x in
  let okHi := negb (r =? 0)%Z && SFeqb (roundDecimal hi (n - k)) x in
  let up := if (hi =? 10 ^ k)%Z then (10 ^ (k - 1), n + 1)%Z else (hi, n) in
  match okLo, okHi with
  | true, true =>
      match (2 * r ?= den')%Z with
      | Lt => Some (lo, n)
      | Gt => Some up
      | Eq => if Z.even lo then Some (lo, n) else Some up
      end
  | true, false => Some (lo, n)
  | false, true => Some up
  | false, false => None
  end.

(** The least number of digits [k] for which there is a candidate. *)
Fixpoint shortestDigits (fuel : nat) (x : number) (num den n k : Z) : Z * Z * Z :=
  match fuel with
  | O => ((num * 10 ^ (k - n)) / den, k, n)%Z
  | S f =>
      match digitsCandidate x num den n k with
      | Some (s, n') => (s, k, n')
      | None => shortestDigits f x num den n (k + 1)
      end
  end.

Definition digitsOf (s : Z) : string := pretty (Z.to_N s).

Fixpoint zeros (n : nat) : string :=
  match n with O => "" | S m => String "0" (zeros m) end.

Definition formatDigits (s k n : Z) : string :=
  let ds := digitsOf s in
  if ((-5 <=? n) && (n <=? 21))%Z then
    if (k <=? n)%Z then ds ++ zeros (Z.to_nat (n - k))
    else if (0 <? n)%Z
    then substring 0 (Z.to_nat n) ds ++ "." ++ substring (Z.to_nat n) (Z.to_nat (k - n)) ds
    else "0." ++ zeros (Z.to_nat (- n)) ++ ds
  else
    let c := (n - 1)%Z in
    let ex := (if (0 <=? c)%Z then "+" else "-") ++ digitsOf (Z.abs c) in
    if (k =? 1)%Z then ds ++ "e" ++ ex
    else substring 0 1 ds ++ "." ++ substring 1 (Z.to_nat (k - 1)) ds ++ "e" ++ ex.

Definition Number_toString (x : number) : string :=
  match x with
  | S754_nan => "NaN"
  | S754_zero _ => "0"
  | S754_infinity neg => if neg then "-Infinity" else "Infinity"
  | S754_finite neg m e =>
      let num := (if 0 <=? e then Zpos m * 2 ^ e else Zpos m)%Z in
      let den := (if 0 <=? e then 1 else 2 ^ (- e))%Z in
      let '(s, k, n) :=
        shortestDigits 17 (S754_finite false m e) num den (decimalExponent num den) 1 in
      (if neg then "-" else "") ++ formatDigits s k n
  end.

End JS.

(** ** main.js: the zod schema of an extracted invoice *)

Module Schema.
Import JS.

(** A raw value handed to a schema. *)
#[warnings="-register-all"]
Inductive value : Type :=
| VUndefined
| VNull
| VBoolean (b : bool)
| VNumber (n : number)
| VString (s : string)
| VArray (items : list value)
| VObject (fields : list (string * value)).

(** The result of parsing: the output, or the paths of the issues found. *)
Inductive parsed (A : Type) : Type :=
| Valid (a : A)
| Invalid (issues : list string).
Arguments Valid {A} a.
Arguments Invalid {A} issues.

Definition isValid {A} (p : parsed A) : bool :=
  match p with Valid _ => true | Invalid _ => false end.

(** The releases of zod; the sources require the library without naming
    one. *)
Inductive release : Type := Zod3 | Zod4.

(** [z.number()]: a value of type number that is not NaN; since zod 4 it has
    to be finite as well. *)
Definition z_number (zod : release) (n : number) : bool :=
  match n with
  | S754_nan => false
  | S754_infinity _ => match zod with Zod3 => true | Zod4 => false end
  | S754_zero _ | S754_finite _ _ _ => true
  end.

(** What [z.union([z.number(), z.string()])] lets through: a number that
    [z.number()] takes, or a string. *)
Inductive numberOrString : Type :=
| IsNumber (n : number)
| IsString (s : string).

Definition union_number_string (zod : release) (v : value) : parsed numberOrString :=
  match v with
  | VNumber n => if z_number zod n then Valid (IsNumber n) else Invalid [""]
  | VString s => Valid (IsString s)
  | _ => Invalid [""]
  end.

(** [String(v)] *)
Definition String_ (v : numberOrString) : string :=
  match v with
  | IsNumber n => Number_toString n
  | IsString s => s
  end.

(** [.replace(/\s/g, '')] *)
Definition removeWhiteSpace (s : string) : string :=
  filterChars (fun c => negb (isWhiteSpace c)) s.

(** The lookahead [(?=\d{3}(\D|$))] at the start of [r]. *)
Definition threeDigitsThenNoDigit (r : string) : bool :=
  match r with
  | String a (String b (String c t)) =>
      isDigit a && isDigit b && isDigit c &&
      match t with
      | "" => true
      | String d _ => negb (isDigit d)
      end
  | _ => false
  end.

(** [.replace(/,(?=\d{3}(\D|$))/g, '')] and the same with [\.]: every
    separator [sep] in front of exactly three digits is removed. *)
Fixpoint dropThousands (sep : ascii) (s : string) : string :=
  match s with
  | "" => ""
  | String c r =>
      if Ascii.eqb c sep && threeDigitsThenNoDigit r
      then dropThousands sep r
      else String c (dropThousands sep r)
  end.

(** [\d{1,2}$] at the start of [r]. *)
Definition oneOrTwoDigitsThenEnd (r : string) : bool :=
  match r with
  | String a "" => isDigit a
  | String a (String b "") => isDigit a && isDigit b
  | _ => false
  end.

(** [.replace(/,(\d{1,2})$/g, '.$1')] *)
Fixpoint decimalComma (s : string) : string :=
  match s with
  | "" => ""
  | String c r =>
      if Ascii.eqb c "," && oneOrTwoDigitsThenEnd r
      then String "." r
      else String c (decimalComma r)
  end.

Definition normalized (s : string) : string :=
  decimalComma (dropThousands "." (dropThousands "," (removeWhiteSpace s))).

(** The function given to [.transform] in [numberLike]. *)
Definition numberLike_transform (v : numberOrString) : option number :=
  match v with
  | IsNumber n => Some n
  | IsString _ =>
      let s := trim (String_ v) in
      if isEmpty s then None
      else
        let n := Number (normalized s) in
        if isFinite n then Some n else None
  end.

Definition numberLike (zod : release) (v : value) : parsed (option number) :=
  match union_number_string zod v with
  | Valid u => Valid (numberLike_transform u)
  | Invalid i => Invalid i
  end.

(** [schema.optional()] *)
Definition optional {A} (schema : value -> parsed (option A)) (v : value)
  : parsed (option A) :=
  match v with
  | VUndefined => Valid None
  | _ => schema v
  end.

(** The function given to [.transform] in [optionalString]; its test for
    [undefined] and [null] never succeeds on what the union lets through. *)
Definition optionalString_transform (v : numberOrString) : option string :=
  Some (String_ v).

Definition optionalString (zod : release) : value -> parsed (option string) :=
  optional (fun v =>
    match union_number_string zod v with
    | Valid u => Valid (optionalString_transform u)
    | Invalid i => Invalid i
    end).

(** [z.string()] *)
Definition z_string (v : value) : parsed (option string) :=
  match v with
  | VString s => Valid (Some s)
  | _ => Invalid [""]
  end.

(** *** The line items *)

Record lineItem : Type := {
  productCode : option string;
  description : option string;
  hsCode : option string;
  originCountry : option string;
  farePreference : option string;
  totalAmount : option number;
  netWeight : option number;
  grossWeight : option number;
  quantity : option number;
  UOM : option string;
  type : option string;
  rate : option number;
  baseAmount : option number;
  currency : option string;
  category : option string
}.

(** A raw object: its own properties; a missing property reads [undefined]. *)
Definition property (o : gmap string value) (key : string) : value :=
  match o !! key with
  | Some v => v
  | None => VUndefined
  end.

(** One key of a [z.object] shape: an issue of the key's schema is reported
    under the key. *)
Definition field {A} (key : string) (schema : value -> parsed A)
    (o : gmap string value) : parsed A :=
  match schema (property o key) with
  | Valid a => Valid a
  | Invalid _ => Invalid [key]
  end.

Definition issuesOf {A} (p : parsed A) : list string :=
  match p with
  | Valid _ => []
  | Invalid issues => issues
  end.

Definition outputOf {A} (p : parsed (option A)) : option A :=
  match p with
  | Valid a => a
  | Invalid _ => None
  end.

(** The element schema of [InvoiceExtractSchema.lineItems].  Every key of the
    shape is parsed and the issues of all of them are collected; the item is
    valid when there is none.  Keys outside the shape are dropped. *)
Definition lineItemSchema (zod : release) (o : gmap string value) : parsed lineItem :=
  let productCode := field "productCode" (optional z_string) o in
  let description := field "description" (optional z_string) o in
  let hsCode := field "hsCode" (optional z_string) o in
  let originCountry := field "originCountry" (optional z_string) o in
  let farePreference := field "farePreference" (optional z_string) o in
  let totalAmount := field "totalAmount" (optional (numberLike zod)) o in
  let netWeight := field "netWeight" (optional (numberLike zod)) o in
  let grossWeight := field "grossWeight" (optional (numberLike zod)) o in
  let quantity := field "quantity" (optional (numberLike zod)) o in
  let UOM := field "UOM" (optional z_string) o in
  let type := field "type" (optional z_string) o in
  let rate := field "rate" (optional (numberLike zod)) o in
  let baseAmount := field "baseAmount" (optional (numberLike zod)) o in
  let currency := field "currency" (optional z_string) o in
  let category := field "category" (optional z_string) o in
  let issues :=
    concat [ issuesOf productCode; issuesOf description; issuesOf hsCode;
             issuesOf originCountry; issuesOf farePreference;
             issuesOf totalAmount; issuesOf netWeight; issuesOf grossWeight;
             issuesOf quantity; issuesOf UOM; issuesOf type; issuesOf rate;
             issuesOf baseAmount; issuesOf currency; issuesOf category ] in
  match issues with
  | [] =>
      Valid (Build_lineItem
        (outputOf productCode) (outputOf description) (outputOf hsCode)
        (outputOf originCountry) (outputOf farePreference)
        (outputOf totalAmount) (outputOf netWeight) (outputOf grossWeight)
        (outputOf quantity) (outputOf UOM) (outputOf type) (outputOf rate)
        (outputOf baseAmount) (outputOf currency) (outputOf category))
  | _ :: _ => Invalid issues
  end.

(** The same item with another discriminator. *)
Definition withType (t : option string) (i : lineItem) : lineItem :=
  {| productCode := productCode i; description := description i;
     hsCode := hsCode i; originCountry := originCountry i;
     farePreference := farePreference i; totalAmount := totalAmount i;
     netWeight := netWeight i; grossWeight := grossWeight i;
     quantity := quantity i; UOM := UOM i; type := t; rate := rate i;
     baseAmount := baseAmount i; currency := currency i;
     category := category i |}.

End Schema.

(** ** deriveProductTableHints.js *)

Module Hints.
Import JS.

(** A cell of a layout table; [content] may be missing. *)
Record cell : Type := {
  rowIndex : Z;
  columnIndex : Z;
  content : option string
}.

Record table : Type := { cells : option (list cell) }.

Record layout : Type := { tables : option (list table) }.

Record hint : Type := {
  tableIndex : nat;
  headers : list string;
  score : nat
}.

Record derived : Type := {
  glossary : string;
  hints : list hint
}.

(** The class [[a-z0-9%]]. *)
Definition isHeaderChar (c : ascii) : bool :=
  let n := code c in
  ((97 <=? n) && (n <=? 122) || (48 <=? n) && (n <=? 57) || (n =? 37))%N.

(** [.replace(/[^a-z0-9%]/g, ' ')] *)
Definition blankOthers (s : string) : string :=
  mapChars (fun c => if isHeaderChar c then c else " "%char) s.

(** [.replace(/\s+/g, ' ')]: of a run of white space only its last character
    is kept, as one space. *)
Fixpoint collapseWhiteSpace (s : string) : string :=
  match s with
  | "" => ""
  | String c r =>
      if isWhiteSpace c then
        match r with
        | "" => " "
        | String d _ =>
            if isWhiteSpace d then collapseWhiteSpace r
            else String " " (collapseWhiteSpace r)
        end
      else String c (collapseWhiteSpace r)
  end.

(** Normalize header cell text.  The text is a string, on which
    [String(text || '')] is the text itself. *)
Definition norm (text : string) : string :=
  trim (collapseWhiteSpace (blankOthers (toLowerCase text))).

Definition HEADER_PATTERNS : list (list string) :=
  [ ["code"; "sku"; "item"; "product"; "reference"];
    ["desc"; "description"; "details"; "service"; "charge"];
    ["qty"; "quantity"; "qte"; "units"];
    ["price"; "unit price"; "unit"; "rate"; "cost"];
    ["amount"; "total"; "sum"; "subtotal"; "value"; "fee"];
    ["tax"; "vat"; "tva"; "duty"; "tariff"];
    ["shipping"; "freight"; "delivery"; "transport"];
    ["discount"; "rebate"; "reduction"; "credit"] ].

(** [hNorm.some(h => group.some(g => h.includes(g)))] *)
Definition groupMatches (hNorm : list string) (group : list string) : bool :=
  existsb (fun h => existsb (fun g => includes h g) group) hNorm.

(** Score whether a header row matches any patterns. *)
Definition scoreHeader (headers : list string) : nat :=
  let hNorm := map norm headers in
  fold_left
    (fun score group => if groupMatches hNorm group then score + 1 else score)
    HEADER_PATTERNS 0.

(** [a.forEach((x, idx) => ...)] on a state passed along. *)
Fixpoint forEach {A S} (f : S -> A -> nat -> S) (a : list A) (idx : nat) (st : S) : S :=
  match a with
  | [] => st
  | x :: r => forEach f r (idx + 1) (f st x idx)
  end.

Definition isHeaderCell (c : cell) : bool := (rowIndex c =? 0)%Z.

(** [c.content || ''] *)
Definition contentOrEmpty (c : cell) : string :=
  match content c with
  | Some s => s
  | None => ""
  end.

Definition byColumn (a b : cell) : Z := (columnIndex a - columnIndex b)%Z.

(** The body of the loop over the tables, on the pair of [glossaryParts] and
    [hints]. *)
Definition cellsOf (t : table) : list cell :=
  match cells t with
  | Some cs => cs
  | None => []
  end.

(** [!table.cells || table.cells.length === 0] *)
Definition noCells (t : table) : bool :=
  match cells t with
  | None => true
  | Some cs => Nat.eqb (List.length cs) 0
  end.

(** The body of the loop over the tables, on the pair of [glossaryParts] and
    [hints]. *)
Definition visitTable (st : list string * list hint) (t : table) (idx : nat)
  : list string * list hint :=
  let '(glossaryParts, hints) := st in
  if noCells t then st
  else
    let headerCells := List.filter isHeaderCell (cellsOf t) in
    if Nat.eqb (List.length headerCells) 0 then st
    else
      let headers := map contentOrEmpty (sort byColumn headerCells) in
      let score := scoreHeader headers in
      let headerStr := join ", " headers in
      let part := "Table " ++ pretty (idx + 1) ++ " with headers: " ++ headerStr in
      let hint := {| tableIndex := idx; headers := headers; score := score |} in
      (app glossaryParts [part], app hints [hint]).

Definition deriveProductTableHints (l : layout) : derived :=
  let tables := match tables l with Some ts => ts | None => [] end in
  let '(glossaryParts, hints) := forEach visitTable tables 0 ([], []) in
  {| glossary := join (" " ++ LF ++ " ") glossaryParts; hints := hints |}.

End Hints.

(** ** main.js: polling of the batch status *)

Module Polling.

Record Config : Type := {
  pollInterval : N;
  maxPollAttempts : nat;
  autoRefreshInterval : N;
  autoRefreshEnabled : bool;
  statusTransitionDelay : N
}.

(** [InvoiceProcessingSystem.config] *)
Definition config : Config := {|
  pollInterval := 8000;
  maxPollAttempts := 45;
  autoRefreshInterval := 25000;
  autoRefreshEnabled := true;
  statusTransitionDelay := 2000
|}.

(** What awaiting [api.request] gives: the body with its [success] flag and
    [data.status], or a rejection. *)
Inductive reply : Type :=
| Resolved (success : bool) (status : string)
| Rejected (message : string).

(** What a run of the loop does, in order. *)
Inductive effect : Type :=
| SetTimeout (ms : N)                                   (* setTimeout(poll, ms) *)
| Request                                               (* GET /batches/<id>/status *)
| ShowIndicator (status : string)
| HideIndicator (afterMs : N)
| OnStatusChange (status : string)
| StatusTransition (previous : option string) (status : string)
| StopPolling.

(** ['COMPLETED', 'ERROR', 'SPLIT_PROPOSED', 'DATA_VALIDATION_PENDING'].includes(status) *)
Definition isFinal (status : string) : bool :=
  existsb (String.eqb status)
    ["COMPLETED"; "ERROR"; "SPLIT_PROPOSED"; "DATA_VALIDATION_PENDING"].

(** The closure [poll], with callbacks that do not throw.  [attempts] and
    [maxPollAttempts'] are the variables of the closure,
    [lastStatus] the entry of [activePolls] under the key of the last status;
    [server k] is the outcome of the request number [k], counted from 0 over
    the requests made so far. *)
Equations poll (cfg : Config) (maxPollAttempts' : nat) (server : nat -> reply)
    (attempts : nat) (requests : nat) (lastStatus : option string)
  : list effect by wf (maxPollAttempts' - attempts) lt :=
poll cfg maxPollAttempts' server attempts requests lastStatus with server requests := {
  | Rejected _ =>
      [Request; StopPolling; HideIndicator 0; OnStatusChange "ERROR"]
  | Resolved false _ => [Request]
  | Resolved true status with isFinal status := {
    | true =>
        [Request; ShowIndicator status; OnStatusChange status;
         StatusTransition lastStatus status; StopPolling; HideIndicator 5000]
    | false with lt_dec attempts maxPollAttempts' := {
      | left _ =>
          Request :: ShowIndicator status :: OnStatusChange status ::
          StatusTransition lastStatus status ::
          SetTimeout (pollInterval cfg) ::
          poll cfg maxPollAttempts' server (attempts + 1) (requests + 1) (Some status)
      | right _ =>
          [Request; ShowIndicator status; OnStatusChange status;
           StatusTransition lastStatus status; StopPolling; HideIndicator 0;
           OnStatusChange "TIMEOUT"] } } }.
Next Obligation. lia. Qed.

(** [maxAttempts || InvoiceProcessingSystem.config.maxPollAttempts] *)
Definition orDefault (maxAttempts : option nat) (default : nat) : nat :=
  match maxAttempts with
  | Some (S n) => S n
  | Some O | None => default
  end.

(** Start polling for batch status with auto-refresh. *)
Definition startBatchStatusPolling (cfg : Config) (maxAttempts : option nat)
    (server : nat -> reply) (lastStatus : option string) : list effect :=
  if negb (autoRefreshEnabled cfg) then []
  else
    StopPolling :: ShowIndicator "MONITORING" :: SetTimeout 2000 ::
    poll cfg (orDefault maxAttempts (maxPollAttempts cfg)) server 0 0 lastStatus.

Definition isRequest (e : effect) : bool :=
  match e with Request => true | _ => false end.

(** The number of status requests of a run. *)
Definition requestsIssued (run : list effect) : nat :=
  List.length (List.filter isRequest run).

End Polling.

(** ** The API router *)

Module Routes.

Inductive method : Type := GET | HEAD | POST | PUT | DELETE | PATCH | OPTIONS.

(** A request: its method and the segments of its path below the mount
    point of the router, that is the pieces between the slashes after the
    first one, as they stand in the URL; the path [/] has none, and a path
    that ends with a slash has an empty last piece.  The body, if any, is
    one that [express.json] reads. *)
Record request : Type := { httpMethod : method; path : list string }.

Inductive segment : Type :=
| Lit (s : string)
| Param (name : string).

(** The handlers a route hands the request to. *)
Inductive handler : Type :=
| uploadPDF | listBatches | getBatchInfo | deleteBatch | getStorageStats
| servePDF | startProcessing | getProcessingStatus | validateSplits
| updateSplits | extractInvoiceData | getExtractedData
| extractSingleInvoice | checkServiceHealth
| extractFromLayoutOfBody | extractFromLayoutOfPdf.

Record response : Type := {
  status : nat;
  success : bool;
  error : string;
  message : string
}.

(** When SPLIT_ONLY is enabled, extraction APIs are archived and should not
    be used. *)
Definition sendArchivedApi (feature : string) : response := {|
  status := 410;
  success := false;
  error := "archived_feature";
  message := "The requested " ++ feature ++
    " feature has been archived and is not available in the SPLIT_ONLY delivery. Contact the project owner to access the archived extraction package."
|}.

Inductive outcome : Type :=
| Send (r : response)
| Call (h : handler).

(** [process.env.SPLIT_ONLY === '1' || process.env.SPLIT_ONLY === 'true'] *)
Definition splitOnly (SPLIT_ONLY : option string) : bool :=
  match SPLIT_ONLY with
  | Some v => String.eqb v "1" || String.eqb v "true"
  | None => false
  end.

Definition guarded (feature : string) (h : handler) (SPLIT_ONLY : option string)
  : outcome :=
  if splitOnly SPLIT_ONLY then Send (sendArchivedApi feature) else Call h.

Definition always (o : outcome) (SPLIT_ONLY : option string) : outcome := o.

Record route : Type := {
  routeMethod : method;
  pattern : list segment;
  action : option string -> outcome
}.

Definition batch (rest : list segment) : list segment :=
  Lit "batches" :: Param "batchId" :: rest.

(** The routes in the order of their registration, up to the handler of
    everything else. *)
Definition routes : list route :=
  [ {| routeMethod := POST; pattern := [Lit "upload"]; action := always (Call uploadPDF) |};
    {| routeMethod := GET; pattern := [Lit "batches"]; action := always (Call listBatches) |};
    {| routeMethod := GET; pattern := batch []; action := always (Call getBatchInfo) |};
    {| routeMethod := DELETE; pattern := batch []; action := always (Call deleteBatch) |};
    {| routeMethod := GET; pattern := [Lit "storage"; Lit "stats"];
       action := always (Call getStorageStats) |};
    {| routeMethod := GET; pattern := [Lit "files"; Param "batchId"; Lit "pdf"];
       action := always (Call servePDF) |};
    {| routeMethod := POST; pattern := batch [Lit "process"];
       action := always (Call startProcessing) |};
    {| routeMethod := GET; pattern := batch [Lit "status"];
       action := always (Call getProcessingStatus) |};
    {| routeMethod := POST; pattern := batch [Lit "validate-splits"];
       action := always (Call validateSplits) |};
    {| routeMethod := PUT; pattern := batch [Lit "splits"];
       action := always (Call updateSplits) |};
    {| routeMethod := POST; pattern := batch [Lit "extract-data"];
       action := guarded "data extraction" extractInvoiceData |};
    {| routeMethod := GET; pattern := batch [Lit "extracted-data"];
       action := guarded "extracted data retrieval" getExtractedData |};
    {| routeMethod := POST; pattern := batch [Lit "extract-invoice"; Param "invoiceIndex"];
       action := always (Call extractSingleInvoice) |};
    {| routeMethod := GET; pattern := [Lit "health"];
       action := always (Call checkServiceHealth) |};
    {| routeMethod := POST; pattern := [Lit "extract"];
       action := always (Call extractFromLayoutOfBody) |};
    {| routeMethod := POST; pattern := [Lit "extract-pdf"];
       action := always (Call extractFromLayoutOfPdf) |};
    {| routeMethod := POST; pattern := batch [Lit "validate-data"];
       action := always (Send (sendArchivedApi "data validation")) |};
    {| routeMethod := GET; pattern := batch [Lit "validation-summary"];
       action := always (Send (sendArchivedApi "validation summary")) |};
    {| routeMethod := GET; pattern := batch [Lit "export"];
       action := always (Send (sendArchivedApi "data export")) |} ].

(** The 404 handler registered on every path after them; the route of the
    test extraction registered below it is never reached. *)
Definition notFound : response := {|
  status := 404;
  success := false;
  error := "API endpoint not found";
  message := ""
|}.

Definition methodEqb (a b : method) : bool :=
  match a, b with
  | GET, GET | HEAD, HEAD | POST, POST | PUT, PUT | DELETE, DELETE
  | PATCH, PATCH | OPTIONS, OPTIONS => true
  | _, _ => false
  end.

(** A route registered for [routeMethod] handles the requests of that
    method; one registered with [router.get] handles HEAD as well, no route
    being registered for HEAD. *)
Definition handlesMethod (routeMethod requestMethod : method) : bool :=
  methodEqb routeMethod requestMethod ||
  methodEqb routeMethod GET && methodEqb requestMethod HEAD.

(** The router is made by [express.Router()] without options: a literal
    piece of a route is compared without regard to case. *)
Definition sameSegment (literal piece : string) : bool :=
  String.eqb (JS.toLowerCase literal) (JS.toLowerCase piece).

Definition takesSegment (s : segment) (piece : string) : bool :=
  match s with
  | Lit l => sameSegment l piece
  | Param _ => true
  end.

(** The path of a route against the pieces of a path: every piece has to
    be there, a parameter taking any piece that is not empty, and one slash
    at the end is allowed. *)
Fixpoint matches (p : list segment) (segs : list string) : bool :=
  match p, segs with
  | [], [] => true
  | [], [x] => JS.isEmpty x
  | s :: p', x :: segs' => negb (JS.isEmpty x) && takesSegment s x && matches p' segs'
  | _, _ => false
  end.

Definition takes (rt : route) (r : request) : bool :=
  handlesMethod (routeMethod rt) (httpMethod r) && matches (pattern rt) (path r).

(** The first route that takes the request answers it.  The pieces of the
    path are taken as they stand: a path with a percent sign, whose
    parameters the router decodes first, is left to [plain]. *)
Fixpoint dispatchIn (rs : list route) (SPLIT_ONLY : option string) (r : request)
  : outcome :=
  match rs with
  | [] => Send notFound
  | rt :: rest =>
      if takes rt r then action rt SPLIT_ONLY else dispatchIn rest SPLIT_ONLY r
  end.

(** The path holds no percent sign, so that the values of its parameters
    are its pieces. *)
Definition plainPath (segs : list string) : bool :=
  forallb (fun piece => negb (JS.includes piece "%")) segs.

Definition plain (r : request) : bool := plainPath (path r).

Definition dispatch : option string -> request -> outcome := dispatchIn routes.

End Routes.

(** * Notions used in the statements *)

Module Notions.
Import JS Schema Hints Polling Routes.

(** ** Numbers *)

(** The binary64 value written [1234.56]. *)
Definition number_1234_56 : number := S754_finite false 5429652300748554 (-42).


(** ** The numeric coercion as the specification words it *)













(** ** Line items *)

(** The discriminator of a raw record when it is a string. *)
Definition typeValue (o : gmap string value) : option string :=
  match property o "type" with
  | VString s => Some s
  | _ => None
  end.

Definition stringOrMissing (v : value) : bool :=
  match v with
  | VUndefined | VString _ => true
  | _ => false
  end.

(** ** Table hints *)

(** A table has a header row when one of its cells has row index 0. *)
Definition hasHeaderRow (t : table) : bool := existsb isHeaderCell (cellsOf t).

Definition headerCellsOf (t : table) : list cell :=
  sort byColumn (List.filter isHeaderCell (cellsOf t)).

(** The hint of the table at [idx]. *)
Definition hintOf (idx : nat) (t : table) : hint :=
  let headers := map contentOrEmpty (headerCellsOf t) in
  {| tableIndex := idx; headers := headers; score := scoreHeader headers |}.

(** The entry of a hint in the glossary. *)
Definition glossaryPart (h : hint) : string :=
  "Table " ++ pretty (tableIndex h + 1) ++ " with headers: " ++ join ", " (headers h).

Definition tablesOf (l : layout) : list table :=
  match tables l with
  | Some ts => ts
  | None => []
  end.

(** The hints of the tables with a header row, the first table being at
    index [idx]. *)
Fixpoint hintsFrom (idx : nat) (ts : list table) : list hint :=
  match ts with
  | [] => []
  | t :: r =>
      if hasHeaderRow t then hintOf idx t :: hintsFrom (idx + 1) r
      else hintsFrom (idx + 1) r
  end.

Definition ascendingColumns (cs : list cell) : Prop :=
  StronglySorted (fun a b => (columnIndex a <= columnIndex b)%Z) cs.

(** ** Header text *)

Definition startsWithHeaderChar (s : string) : bool :=
  match s with
  | "" => false
  | String c _ => isHeaderChar c
  end.

Definition consChar (c : ascii) (ws : list string) : list string :=
  match ws with
  | [] => [String c ""]
  | w :: ws' => String c w :: ws'
  end.

(** The words of a string: its maximal runs of characters of [[a-z0-9%]]. *)
Fixpoint tokens (s : string) : list string :=
  match s with
  | "" => []
  | String c r =>
      if isHeaderChar c then
        if startsWithHeaderChar r then consChar c (tokens r)
        else String c "" :: tokens r
      else tokens r
  end.

(** The normal form as the specification words it: the text lowercased,
    every character other than a letter, a digit or a percent sign stripped
    (white space is left for the next step), and white space collapsed. *)
Definition normAsWorded (text : string) : string :=
  trim (collapseWhiteSpace
          (filterChars (fun c => isHeaderChar c || isWhiteSpace c) (toLowerCase text))).

Definition isNil {A} (l : list A) : bool :=
  match l with [] => true | _ :: _ => false end.

(** ** Polling *)

Definition isTimer (e : effect) : option N :=
  match e with SetTimeout ms => Some ms | _ => None end.

(** A server on which the batch never leaves [status]. *)
Definition stuckAt (status : string) : nat -> reply :=
  fun _ => Resolved true status.

(** ** Requests *)

Definition post (segments : list string) : request :=
  {| httpMethod := POST; path := segments |}.

Definition get (segments : list string) : request :=
  {| httpMethod := GET; path := segments |}.

End Notions.

(** * More of the sources *)

(** ** main.js: redirects on status transitions *)

Module Transitions.
Import Polling.

(** What [handleStatusTransition] does besides logging. *)
Inductive action : Type :=
| ShowAlert (kind : string) (message : string)
| RedirectAfter (ms : N) (href : string).

(** A string in a test position: the empty string counts as false, like
    [undefined]. *)
Definition truthy (v : option string) : bool :=
  match v with
  | Some s => negb (JS.isEmpty s)
  | None => false
  end.

Definition sameStatus (previousStatus : option string) (currentStatus : string) : bool :=
  match previousStatus with
  | Some p => String.eqb p currentStatus
  | None => false
  end.

Definition isOneOf (statuses : list string) (v : option string) : bool :=
  match v with
  | Some p => existsb (String.eqb p) statuses
  | None => false
  end.

(** Handle automatic redirects based on status transitions; [batchError] is
    [batchData.error]. *)
Definition handleStatusTransition (cfg : Config) (previousStatus : option string)
    (currentStatus : string) (batchId : string) (batchError : option string)
  : list action :=
  if sameStatus previousStatus currentStatus then []
  else
    let redirectDelay := statusTransitionDelay cfg in
    if String.eqb currentStatus "SPLIT_PROPOSED" then
      if truthy previousStatus &&
         isOneOf ["PROCESSING"; "SPLITTING"; "PROCESSING_SPLIT"] previousStatus
      then [ShowAlert "success" "Document splitting completed! Redirecting to validation...";
            RedirectAfter redirectDelay ("/validate-splits/" ++ batchId)]
      else []
    else if String.eqb currentStatus "DATA_VALIDATION_PENDING" then
      if isOneOf ["SPLIT_VALIDATED"] previousStatus ||
         isOneOf ["EXTRACTING_DATA"] previousStatus
      then [ShowAlert "success" "Data extraction completed! Redirecting to data validation...";
            RedirectAfter redirectDelay ("/batches/" ++ batchId ++ "/validate-data")]
      else []
    else if String.eqb currentStatus "COMPLETED" then
      if truthy previousStatus && negb (isOneOf ["COMPLETED"] previousStatus)
      then [ShowAlert "success" "Processing completed successfully! Redirecting to dashboard...";
            RedirectAfter (redirectDelay + 1000) "/dashboard"]
      else []
    else if String.eqb currentStatus "ERROR" then
      [ShowAlert "error"
         ("Processing failed: " ++
          (if truthy batchError
           then match batchError with Some e => e | None => "" end
           else "Unknown error"))]
    else [].

Definition isRedirect (a : action) : bool :=
  match a with RedirectAfter _ _ => true | ShowAlert _ _ => false end.

(** The actions of the calls of [handleStatusTransition] in a run of the
    polling loop. *)
Definition actionsOf (cfg : Config) (batchId : string) (batchError : option string)
    (run : list effect) : list action :=
  flat_map (fun e =>
    match e with
    | StatusTransition previous status =>
        handleStatusTransition cfg previous status batchId batchError
    | _ => []
    end) run.

Definition isTimerEffect (e : effect) : bool :=
  match e with SetTimeout _ => true | _ => false end.

(** The replies [server from], ..., [server (from + k - 1)] are successful
    with a status that is not final. *)
Definition pendingFor (server : nat -> reply) (from k : nat) : Prop :=
  forall j, j < k ->
    exists status, server (from + j) = Resolved true status /\ isFinal status = false.

(** The waiting time a run asks for: the sum of its timers. *)
Definition totalDelay (run : list effect) : N :=
  foldr (fun e acc =>
    match e with SetTimeout ms => (ms + acc)%N | _ => acc end) 0%N run.

Definition redirects (cfg : Config) (batchId : string) (batchError : option string)
    (run : list effect) : list action :=
  List.filter isRedirect (actionsOf cfg batchId batchError run).

End Transitions.

(** ** The API router: everything it registers *)

Module Stack.
Import Routes.

(** What the router holds, in the order of registration: a route, or a
    handler mounted on every path and method. *)
Inductive layer : Type :=
| Route (r : route)
| UseAll (answer : option string -> outcome).

(** Test endpoint to re-extract a single invoice (archived), registered
    below the 404 handler. *)
Definition testExtract : route := {|
  routeMethod := POST;
  pattern := [Lit "test-extract"; Param "batchId"; Param "invoiceIndex"];
  action := always (Send (sendArchivedApi "test extraction"))
|}.

Definition layers : list layer :=
  app (map Route routes) [UseAll (always (Send notFound)); Route testExtract].

(** The first layer that takes the request answers it. *)
Fixpoint handle (ls : list layer) (SPLIT_ONLY : option string) (r : request)
  : option outcome :=
  match ls with
  | [] => None
  | Route rt :: rest =>
      if takes rt r then Some (action rt SPLIT_ONLY) else handle rest SPLIT_ONLY r
  | UseAll answer :: _ => Some (answer SPLIT_ONLY)
  end.

(** The requests of the two routes that test the switch. *)
Definition isGuarded (r : request) : bool :=
  handlesMethod POST (httpMethod r) && matches (batch [Lit "extract-data"]) (path r) ||
  handlesMethod GET (httpMethod r) && matches (batch [Lit "extracted-data"]) (path r).

(** The requests of the three routes that are archived whatever the switch. *)
Definition isAlwaysArchived (r : request) : bool :=
  handlesMethod POST (httpMethod r) && matches (batch [Lit "validate-data"]) (path r) ||
  handlesMethod GET (httpMethod r) && matches (batch [Lit "validation-summary"]) (path r) ||
  handlesMethod GET (httpMethod r) && matches (batch [Lit "export"]) (path r).

(** Two paths of routes that can take the same path of a request. *)
Definition compatibleSegments (a b : segment) : bool :=
  match a, b with
  | Lit x, Lit y => sameSegment x y
  | _, _ => true
  end.

Fixpoint compatible (p q : list segment) : bool :=
  match p, q with
  | [], [] => true
  | a :: p', b :: q' => compatibleSegments a b && compatible p' q'
  | _, _ => false
  end.

Definition methods : list method := [GET; HEAD; POST; PUT; DELETE; PATCH; OPTIONS].

(** Two routes that can take the same request. *)
Definition overlap (a b : route) : bool :=
  existsb (fun m => handlesMethod (routeMethod a) m && handlesMethod (routeMethod b) m)
    methods
  && compatible (pattern a) (pattern b).

(** No route of the list can take a request that [rt] takes. *)
Definition apartFrom (rt : route) (rs : list route) : bool :=
  forallb (fun other => negb (overlap other rt)) rs.

Fixpoint pairwiseApart (rs : list route) : bool :=
  match rs with
  | [] => true
  | rt :: rest => apartFrom rt rest && pairwiseApart rest
  end.

(** *** The global error handler *)

(** An error handed to the handler; [errorStatus] is [error.status] when it
    is an integer. *)
Record error : Type := {
  name : string;
  errorMessage : string;          (* error.message, '' when missing *)
  errorStatus : option Z;         (* error.status *)
  errorStack : string
}.

Record errorResponse : Type := {
  code : Z;
  ok : bool;
  errorText : string;
  details : option string;
  stack : option string
}.

(** What the handler does: it answers, or the writing of the response
    throws, which leaves the request to Express. *)
Inductive handled : Type :=
| Answers (r : errorResponse)
| Throws.

(** [res.status(code).json(body)]: the response is written when it ends,
    and a status code outside 100..999 is refused there with a RangeError. *)
Definition respond (r : errorResponse) : handled :=
  if ((100 <=? code r) && (code r <=? 999))%Z then Answers r else Throws.

(** Global error handler for API routes. *)
Definition errorHandler (NODE_ENV : option string) (e : error) : handled :=
  if String.eqb (name e) "ValidationError" then
    respond {| code := 400; ok := false; errorText := "Validation error";
               details := Some (errorMessage e); stack := None |}
  else if String.eqb (name e) "CastError" then
    respond {| code := 400; ok := false; errorText := "Invalid ID format";
               details := None; stack := None |}
  else
    respond
      {| code := match errorStatus e with
                 | Some c => if (c =? 0)%Z then 500%Z else c
                 | None => 500%Z
                 end;
         ok := false;
         errorText := if JS.isEmpty (errorMessage e) then "Internal server error"
                      else errorMessage e;
         details := None;
         stack := match NODE_ENV with
                  | Some v => if String.eqb v "development" then Some (errorStack e) else None
                  | None => None
                  end |}.

End Stack.

(** ** web.routes.js *)

Module Web.
Import Routes.

(** A page sent with [res.sendFile] and the headers set before. *)
Record page : Type := {
  headers : list (string * string);
  file : string
}.

Definition noCacheHeaders : list (string * string) :=
  [ ("Cache-Control", "no-store, no-cache, must-revalidate, proxy-revalidate");
    ("Pragma", "no-cache");
    ("Expires", "0") ].

(** Helper to send HTML with no-cache headers so latest changes are always
    loaded. *)
Definition sendHtmlNoCache (filePath : string) : page :=
  {| headers := noCacheHeaders; file := filePath |}.

(** When SPLIT_ONLY is enabled, extraction UIs are archived and should not
    be served. *)
Definition sendArchivedNotice : page :=
  {| headers := noCacheHeaders; file := "../public/html/archived-notice.html" |}.

(** A GET route of the web router and the page it sends. *)
Record webRoute : Type := {
  webPattern : list segment;
  send : option string -> page
}.

Definition html (filePath : string) (SPLIT_ONLY : option string) : page :=
  sendHtmlNoCache filePath.

Definition archivedWhenSplitOnly (filePath : string) (SPLIT_ONLY : option string) : page :=
  if splitOnly SPLIT_ONLY then sendArchivedNotice else sendHtmlNoCache filePath.

Definition webRoutes : list webRoute :=
  [ {| webPattern := []; send := html "../public/html/dashboard.html" |};
    {| webPattern := [Lit "dashboard"]; send := html "../public/html/dashboard.html" |};
    {| webPattern := batch [Lit "validate-splits"];
       send := html "../public/html/validate-splits.html" |};
    {| webPattern := [Lit "validate-splits"; Param "batchId"];
       send := html "../public/html/validate-splits.html" |};
    {| webPattern := batch [Lit "validate-data"];
       send := archivedWhenSplitOnly "../public/html/batch-validation.html" |};
    {| webPattern := batch [Lit "invoices"; Param "invoiceIndex"; Lit "validate"];
       send := archivedWhenSplitOnly "../public/html/validate-data.html" |};
    {| webPattern := [Lit "extract-results"];
       send := html "../public/html/extract-results.html" |};
    {| webPattern := [Lit "invoices"; Param "batchId"];
       send := html "../public/html/invoice-list.html" |} ].

(** The page sent for a GET or a HEAD of the path, if one of the routes
    takes it. *)
Fixpoint servePage (rs : list webRoute) (SPLIT_ONLY : option string)
    (segments : list string) : option page :=
  match rs with
  | [] => None
  | rt :: rest =>
      if matches (webPattern rt) segments then Some (send rt SPLIT_ONLY)
      else servePage rest SPLIT_ONLY segments
  end.

Definition page_of : option string -> list string -> option page := servePage webRoutes.

(** The static mounts registered below the routes, in their order: the path
    they are mounted on and the directory given to [express.static]. *)
Definition mounts : list (list string * string) :=
  [ (["static"], "src/public"); (["static"; "split"], "storage/split") ].

(** What is left of the path below a mount, when the path is below it. *)
Fixpoint below (mount : list string) (segments : list string) : option (list string) :=
  match mount, segments with
  | [], rest => Some rest
  | m :: mount', piece :: rest =>
      if sameSegment m piece then below mount' rest else None
  | _ :: _, [] => None
  end.

(** The directories in which [express.static] looks for the rest of the
    path, in the order of the mounts. *)
Definition staticTries (segments : list string) : list (string * list string) :=
  flat_map (fun '(mount, root) =>
    match below mount segments with
    | Some rest => [(root, rest)]
    | None => []
    end) mounts.

(** What the router does with a GET of the path: one of its routes sends a
    page, or the path is below a static mount and handed to
    [express.static], which sets its own headers, or the request is passed
    on to the application. *)
Inductive served : Type :=
| Page (p : page)
| Static (tries : list (string * list string))
| PassedOn.

Definition serve (SPLIT_ONLY : option string) (segments : list string) : served :=
  match page_of SPLIT_ONLY segments with
  | Some p => Page p
  | None =>
      match staticTries segments with
      | [] => PassedOn
      | tries => Static tries
      end
  end.

(** No two routes of the list can take the same path. *)
Fixpoint pagesApart (rs : list webRoute) : bool :=
  match rs with
  | [] => true
  | rt :: rest =>
      forallb (fun other =>
        negb (Stack.compatible (webPattern other) (webPattern rt))) rest
      && pagesApart rest
  end.

(** The paths of the two pages that test the switch. *)
Definition isValidationPage (segments : list string) : bool :=
  matches (batch [Lit "validate-data"]) segments ||
  matches (batch [Lit "invoices"; Param "invoiceIndex"; Lit "validate"]) segments.

End Web.

(** ** Notions on the table hints *)

Module HintNotions.
Import JS Hints Notions.

(** The table without its body: the cells of row 0 only. *)
Definition headerOnly (t : table) : table :=
  {| cells := option_map (List.filter isHeaderCell) (cells t) |}.

Definition headerOnlyLayout (l : layout) : layout :=
  {| tables := option_map (map headerOnly) (tables l) |}.

(** The score of [scoreHeader] for other keyword groups. *)
Definition scoreWith (patterns : list (list string)) (headers : list string) : nat :=
  List.length (List.filter (groupMatches (map norm headers)) patterns).

(** [HEADER_PATTERNS] without the keywords that contain another keyword of
    their group: description (desc), unit price (price, unit), subtotal
    (total). *)
Definition REDUCED_PATTERNS : list (list string) :=
  [ ["code"; "sku"; "item"; "product"; "reference"];
    ["desc"; "details"; "service"; "charge"];
    ["qty"; "quantity"; "qte"; "units"];
    ["price"; "unit"; "rate"; "cost"];
    ["amount"; "total"; "sum"; "value"; "fee"];
    ["tax"; "vat"; "tva"; "duty"; "tariff"];
    ["shipping"; "freight"; "delivery"; "transport"];
    ["discount"; "rebate"; "reduction"; "credit"] ].

Definition headerCount (t : table) : nat :=
  List.length (List.filter isHeaderCell (cellsOf t)).

Definition headerColumns (t : table) : list Z :=
  map columnIndex (List.filter isHeaderCell (cellsOf t)).

(** The characters of a normal form. *)
Definition isNormChar (c : ascii) : bool := isHeaderChar c || Ascii.eqb c " ".

(** A word: a string that is not empty, of characters of [[a-z0-9%]]. *)
Definition isWord (w : string) : Prop :=
  isEmpty w = false /\ forallChars isHeaderChar w = true.

End HintNotions.

(** ** Notions on the coercions *)

Module NumberNotions.
Import JS Schema.

Definition noWhiteSpace (s : string) : bool :=
  forallChars (fun c => negb (isWhiteSpace c)) s.

Definition isDigits (s : string) : bool := forallChars isDigit s.

(** No character of [s] is [sep]. *)
Definition avoids (sep : ascii) (s : string) : bool :=
  forallChars (fun c => negb (Ascii.eqb c sep)) s.

(** The keys of the shape of a line item, in its order. *)
Definition lineItemKeys : list string :=
  [ "productCode"; "description"; "hsCode"; "originCountry"; "farePreference";
    "totalAmount"; "netWeight"; "grossWeight"; "quantity"; "UOM"; "type";
    "rate"; "baseAmount"; "currency"; "category" ].

Definition isNumberKey (key : string) : bool :=
  existsb (String.eqb key)
    ["totalAmount"; "netWeight"; "grossWeight"; "quantity"; "rate"; "baseAmount"].

(** The values a key of a line item takes: nothing, a string, and for the
    numeric keys a number that [z.number()] takes. *)
Definition accepts (zod : release) (key : string) (v : value) : bool :=
  match v with
  | VUndefined | VString _ => true
  | VNumber n => isNumberKey key && z_number zod n
  | _ => false
  end.

(** What a numeric key gives for a raw value, and what a string key
    gives. *)
Definition coerceNumber (v : value) : option number :=
  match v with
  | VNumber n => Some n
  | VString s => numberLike_transform (IsString s)
  | _ => None
  end.

Definition coerceString (v : value) : option string :=
  match v with
  | VString s => Some s
  | _ => None
  end.

Definition numberFields (i : lineItem) : list (string * option number) :=
  [ ("totalAmount", totalAmount i); ("netWeight", netWeight i);
    ("grossWeight", grossWeight i); ("quantity", quantity i);
    ("rate", rate i); ("baseAmount", baseAmount i) ].

Definition stringFields (i : lineItem) : list (string * option string) :=
  [ ("productCode", productCode i); ("description", description i);
    ("hsCode", hsCode i); ("originCountry", originCountry i);
    ("farePreference", farePreference i); ("UOM", UOM i); ("type", type i);
    ("currency", currency i); ("category", category i) ].

(** The keys of a raw line item whose values are not accepted. *)
Definition rejected (zod : release) (o : gmap string value) : list string :=
  List.filter (fun key => negb (accepts zod key (property o key))) lineItemKeys.

End NumberNotions.

(** ** main.js: utilities *)

Module Utils.
Import JS.

(** The class [[^\s@]]. *)
Definition isAddressChar (c : ascii) : bool :=
  negb (isWhiteSpace c) && negb (Ascii.eqb c "@").

(** The longest prefix of characters of the class, and what follows it. *)
Fixpoint spanAddress (s : string) : string * string :=
  match s with
  | "" => ("", "")
  | String c r =>
      if isAddressChar c
      then let '(a, t) := spanAddress r in (String c a, t)
      else ("", s)
  end.

(** There is a period in [d] that is neither its first nor its last
    character. *)
Fixpoint dotInside (d : string) : bool :=
  match d with
  | "" => false
  | String _ r =>
      match r with
      | String c r' => Ascii.eqb c "." && negb (isEmpty r') || dotInside r
      | "" => false
      end
  end.

(** Validate email format: the test of [/^[^\s@]+@[^\s@]+\.[^\s@]+$/]. *)
Definition isValidEmail (email : string) : bool :=
  let '(localPart, rest) := spanAddress email in
  negb (isEmpty localPart) &&
  match rest with
  | String c domain =>
      Ascii.eqb c "@" && forallChars isAddressChar domain && dotInside domain
  | "" => false
  end.

(** A run of one or more characters of the class: what [[^\s@]+] matches. *)
Definition isAddressPart (s : string) : bool :=
  negb (isEmpty s) && forallChars isAddressChar s.

(** The strings of the regular expression. *)
Definition matchesEmail (s : string) : Prop :=
  exists a b c,
    s = a ++ "@" ++ b ++ "." ++ c /\
    isAddressPart a = true /\ isAddressPart b = true /\ isAddressPart c = true.

Fixpoint countChar (x : ascii) (s : string) : nat :=
  match s with
  | "" => 0
  | String c r => (if Ascii.eqb c x then 1 else 0) + countChar x r
  end.

(** [v.toString(16)] for [v] from 0 to 15. *)
Definition hexDigit (v : N) : ascii :=
  if (v <? 10)%N then ascii_of_N (48 + v) else ascii_of_N (87 + v).

(** The replacement of every x and y of the template; [random k] is the
    value of [Math.random() * 16 | 0] at the call number [k], an integer
    from 0 to 15. *)
Fixpoint fillTemplate (template : string) (random : nat -> N) (call : nat) : string :=
  match template with
  | "" => ""
  | String c t =>
      if Ascii.eqb c "x" || Ascii.eqb c "y" then
        let r := random call in
        let v := if Ascii.eqb c "x" then r else N.lor (N.land r 3) 8 in
        String (hexDigit v) (fillTemplate t random (call + 1))
      else String c (fillTemplate t random call)
  end.

(** Generate UUID. *)
Definition generateUUID (random : nat -> N) : string :=
  fillTemplate "xxxxxxxx-xxxx-4xxx-yxxx-xxxxxxxxxxxx" random 0.

(** A lowercase hexadecimal digit. *)
Definition isHexChar (c : ascii) : bool :=
  let n := code c in
  ((48 <=? n) && (n <=? 57) || (97 <=? n) && (n <=? 102))%N.

End Utils.

(** * Properties *)

(** ** The runtime functions on examples *)

Section Runtime.
Import JS.

Example trim_example : trim "  1 234,5  " = "1 234,5".
Proof. reflexivity. Qed.

Example Number_hexadecimal : Number "0x1F" = Number "31".
Proof. vm_compute. reflexivity. Qed.

Example Number_not_a_literal : Number "12abc" = NaN /\ Number "1,5" = NaN.
Proof. split; reflexivity. Qed.

Example Number_overflow : Number "1e999" = Infinity false.
Proof. vm_compute. reflexivity. Qed.

Example Number_negative_zero : Number "-0" = zero true.
Proof. reflexivity. Qed.

Example Number_ties_to_even :
  Number "9007199254740993" = Number "9007199254740992".
Proof. vm_compute. reflexivity. Qed.

Example Number_toString_examples :
  Number_toString (Number "0.1") = "0.1" /\
  Number_toString (Number "1e21") = "1e+21" /\
  Number_toString (Number "-12.50") = "-12.5" /\
  Number_toString (Number "0.000001") = "0.000001" /\
  Number_toString (Number "1e-7") = "1e-7".
Proof. repeat split; vm_compute; reflexivity. Qed.

Example sort_is_stable :
  sort (fun a b : Z * string => (fst a - fst b)%Z)
       [(2%Z, "a"); (1%Z, "b"); (2%Z, "c"); (1%Z, "d")]
  = [(1%Z, "b"); (1%Z, "d"); (2%Z, "a"); (2%Z, "c")].
Proof. reflexivity. Qed.

Example includes_example :
  includes "unit price" "price" = true /\ includes "v a t" "vat" = false.
Proof. split; reflexivity. Qed.

End Runtime.

(** ** The coercions of the schema *)

Section Coercions.
Import JS Schema Notions.

Variable zod : release.


(** Without the test on the trimmed string the empty string would be read as
    the number zero. *)
Example Number_of_empty : Number "" = zero false.
Proof. reflexivity. Qed.

Example normalized_thousands_comma : normalized "1,234.56" = "1234.56".
Proof. reflexivity. Qed.

Example normalized_decimal_comma : normalized "1.234,56" = "1234.56".
Proof. reflexivity. Qed.

Lemma numberLike_string (s : string) :
  numberLike zod (VString s) =
  Valid (if isEmpty (trim s) then None
         else if isFinite (Number (normalized (trim s)))
              then Some (Number (normalized (trim s))) else None).
Proof. reflexivity. Qed.

(** C5. A string that is empty after trimming, or that does not read as a
    number once its separators are normalised, gives an absent value, which
    is not the number zero. *)
Theorem numberLike_absent_not_zero (s : string) :
  isEmpty (trim s) = true \/ Number (normalized (trim s)) = NaN ->
  numberLike zod (VString s) = Valid None /\
  forall neg, numberLike zod (VString s) <> Valid (Some (zero neg)).
Proof.
  intros H. rewrite numberLike_string.
  assert (E : (if isEmpty (trim s) then None
               else if isFinite (Number (normalized (trim s)))
                    then Some (Number (normalized (trim s))) else None)
              = @None number).
  { destruct H as [-> | ->]; [reflexivity |].
    destruct (isEmpty (trim s)); reflexivity. }
  rewrite E. split; [reflexivity | intros neg; discriminate].
Qed.

(** A string that reads as zero is kept as the number zero. *)
Example numberLike_zero_string : numberLike zod (VString "0") = Valid (Some (zero false)).
Proof. reflexivity. Qed.

(** C9, amended. The transform returns a native number as it is, and
    [numberLike] is the identity on every number the schema takes: every
    finite number, the two zeros included, and with zod 3 the infinities,
    which are not mapped to absence. A NaN never reaches the transform: the
    value is invalid, as an infinity is with zod 4. Only a string goes
    through the test of finiteness, so that a present result read from a
    string is finite. *)
Theorem numberLike_identity_on_numbers :
  (forall n, numberLike_transform (IsNumber n) = Some n) /\
  (forall n, numberLike zod (VNumber n) =
             if z_number zod n then Valid (Some n) else Invalid [""]) /\
  (forall n, isFinite n = true -> numberLike zod (VNumber n) = Valid (Some n)) /\
  (forall neg, numberLike zod (VNumber (zero neg)) = Valid (Some (zero neg))) /\
  isValid (numberLike zod (VNumber NaN)) = false /\
  (forall neg, numberLike zod (VNumber (Infinity neg)) =
               match zod with
               | Zod3 => Valid (Some (Infinity neg))
               | Zod4 => Invalid [""]
               end) /\
  (forall v n, numberLike zod v = Valid (Some n) ->
     v = VNumber n /\ z_number zod n = true \/
     exists s, v = VString s /\ isFinite n = true) /\
  (forall s n, numberLike_transform (IsString s) = Some n -> isFinite n = true) /\
  numberLike zod (VString "Infinity") = Valid None /\
  numberLike zod (VString "1e999") = Valid None /\
  numberLike zod (VString "NaN") = Valid None.
Proof.
  assert (S : forall s n, numberLike_transform (IsString s) = Some n -> isFinite n = true).
  { intros s n. unfold numberLike_transform, String_.
    destruct (isEmpty (trim s)); [discriminate |].
    destruct (isFinite (Number (normalized (trim s)))) eqn:E; [| discriminate].
    intros [= <-]. exact E. }
  split; [reflexivity |].
  split; [intros n; unfold numberLike; cbn; destruct (z_number zod n); reflexivity |].
  split; [intros n H; destruct n; try discriminate; reflexivity |].
  split; [reflexivity |].
  split; [reflexivity |].
  split; [intros neg; destruct zod; reflexivity |].
  split.
  { intros v n. destruct v; try discriminate.
    - unfold numberLike. cbn. destruct (z_number zod n0) eqn:E; [| discriminate].
      intros [= <-]. left. auto.
    - intros H. right. exists s. split; [reflexivity |].
      apply (S s n). unfold numberLike in H. cbn [union_number_string] in H.
      inversion H. reflexivity. }
  split; [exact S |].
  repeat split; vm_compute; reflexivity.
Qed.

(** C4, amended. [optionalString] accepts a string or a number and gives it
    as a string; a missing value stays absent, and it is the only input with
    an absent result: every accepted string, the empty one included, is
    returned as it is. *)
Theorem optionalString_spec :
  optionalString zod VUndefined = Valid None /\
  (forall s, optionalString zod (VString s) = Valid (Some s)) /\
  (forall v u, union_number_string zod v = Valid u ->
     optionalString zod v = Valid (Some (String_ u))) /\
  (forall n, String_ (IsNumber n) = Number_toString n) /\
  (forall v, optionalString zod v = Valid None <-> v = VUndefined) /\
  (forall v, isValid (optionalString zod v) = true <->
             v = VUndefined \/ isValid (union_number_string zod v) = true).
Proof.
  split; [reflexivity |].
  split; [reflexivity |].
  split.
  { intros v u H. destruct v; try discriminate;
      unfold optionalString, optional; rewrite H; reflexivity. }
  split; [reflexivity |].
  split.
  { intros v. split; [| intros ->; reflexivity].
    destruct v; cbn; try destruct (z_number zod n);
      intros H; try discriminate; reflexivity. }
  intros v. split.
  - destruct v; cbn; try destruct (z_number zod n); intros H; try discriminate; auto.
  - intros [-> | H]; [reflexivity |].
    destruct v; cbn in *; try destruct (z_number zod n); try discriminate; reflexivity.
Qed.

Example optionalString_number :
  optionalString zod (VNumber number_1234_56) = Valid (Some "1234.56").
Proof. vm_compute. reflexivity. Qed.

End Coercions.

(** ** The coercions on examples *)

Section CoercionsInstances.
Import JS Schema Notions.

Lemma numberLike_absent_not_zero_witness :
  (numberLike Zod3 (VString "   ") = Valid None /\
   forall neg, numberLike Zod3 (VString "   ") <> Valid (Some (zero neg))) /\
  (numberLike Zod3 (VString "12abc") = Valid None /\
   forall neg, numberLike Zod3 (VString "12abc") <> Valid (Some (zero neg))).
Proof.
  split.
  - apply (numberLike_absent_not_zero Zod3 "   "). left. reflexivity.
  - apply (numberLike_absent_not_zero Zod3 "12abc"). right. reflexivity.
Defined.

(** C4, as stated, fails: the empty string is accepted and stays a present
    empty string. *)
Lemma optionalString_empty_is_present :
  optionalString Zod3 (VString "") = Valid (Some "") /\
  optionalString Zod3 (VString "") <> Valid None /\
  optionalString Zod4 (VString "") = Valid (Some "") /\
  optionalString Zod4 (VString "") <> Valid None.
Proof. repeat split; discriminate. Qed.

(** C9, as stated, fails: a native NaN is refused by [z.number()] before the
    transform runs and is not returned; zod 4 refuses the infinities as
    well. *)
Lemma numberLike_refuses_NaN :
  numberLike Zod3 (VNumber NaN) = Invalid [""] /\
  numberLike Zod4 (VNumber NaN) = Invalid [""] /\
  numberLike Zod3 (VNumber NaN) <> Valid (Some NaN) /\
  numberLike Zod4 (VNumber NaN) <> Valid (Some NaN) /\
  numberLike Zod4 (VNumber (Infinity false)) = Invalid [""] /\
  numberLike Zod4 (VNumber (Infinity true)) = Invalid [""].
Proof. repeat split; discriminate. Qed.

End CoercionsInstances.

(** ** The line-item discriminator *)

Section LineItems.
Import JS Schema Notions.

Variable zod : release.

Lemma field_agree {A} (key : string) (schema : value -> parsed A)
    (o1 o2 : gmap string value) :
  o1 !! key = o2 !! key -> field key schema o1 = field key schema o2.
Proof. intros H. unfold field, property. rewrite H. reflexivity. Qed.

Lemma field_type (o : gmap string value) :
  stringOrMissing (property o "type") = true ->
  field "type" (optional z_string) o = Valid (typeValue o).
Proof.
  unfold field, typeValue. destruct (property o "type"); cbn; try discriminate; reflexivity.
Qed.

Lemma lineItemSchema_type_only (o1 o2 : gmap string value) :
  (forall k, k <> "type" -> o1 !! k = o2 !! k) ->
  stringOrMissing (property o1 "type") = true ->
  stringOrMissing (property o2 "type") = true ->
  lineItemSchema zod o2 =
  match lineItemSchema zod o1 with
  | Valid i => Valid (withType (typeValue o2) i)
  | Invalid issues => Invalid issues
  end.
Proof.
  intros Hk H1 H2. unfold lineItemSchema.
  rewrite (field_type o1 H1), (field_type o2 H2).
  repeat match goal with
  | |- context [field ?k ?s o2] =>
      rewrite <- (field_agree k s o1 o2 (Hk k ltac:(discriminate)))
  end.
  cbn [issuesOf outputOf].
  match goal with |- context [concat ?l] => destruct (concat l) end; reflexivity.
Qed.

Lemma lineItemSchema_type (o : gmap string value) (i : lineItem) :
  stringOrMissing (property o "type") = true ->
  lineItemSchema zod o = Valid i -> type i = typeValue o.
Proof.
  intros H. unfold lineItemSchema. rewrite (field_type o H).
  cbn [issuesOf outputOf].
  match goal with |- context [concat ?l] => destruct (concat l) end;
    [intros [= <-]; reflexivity | discriminate].
Qed.

(** C8, amended. Two raw line items that differ only in [type], where [type]
    is in each a string (any string) or missing, are both valid or both
    invalid, with the same issues, and the valid outputs are the same except
    for [type], which is the string each record carries. *)
Theorem lineItem_type_is_informational (o1 o2 : gmap string value) :
  (forall k, k <> "type" -> o1 !! k = o2 !! k) ->
  stringOrMissing (property o1 "type") = true ->
  stringOrMissing (property o2 "type") = true ->
  isValid (lineItemSchema zod o1) = isValid (lineItemSchema zod o2) /\
  (forall issues, lineItemSchema zod o1 = Invalid issues <->
                  lineItemSchema zod o2 = Invalid issues) /\
  (forall i1 i2, lineItemSchema zod o1 = Valid i1 -> lineItemSchema zod o2 = Valid i2 ->
     type i1 = typeValue o1 /\ type i2 = typeValue o2 /\
     i2 = withType (type i2) i1).
Proof.
  intros Hk H1 H2.
  pose proof (lineItemSchema_type_only o1 o2 Hk H1 H2) as E.
  repeat split.
  - rewrite E. destruct (lineItemSchema zod o1); reflexivity.
  - rewrite E. intros ->. reflexivity.
  - rewrite E. destruct (lineItemSchema zod o1); [discriminate | intros [= ->]; reflexivity].
  - eapply lineItemSchema_type; eassumption.
  - eapply lineItemSchema_type; eassumption.
  - rewrite (lineItemSchema_type o2 i2 H2 H0).
    rewrite E, H in H0. injection H0 as <-. reflexivity.
Qed.

End LineItems.

(** ** The line-item discriminator on examples *)

Section LineItemsInstances.
Import JS Schema Notions.

(** C8, as stated, fails: a discriminator that is not a string makes the
    record invalid, while the same record with a string is valid. *)
Lemma lineItem_type_number_rejected :
  (forall k, k <> "type" ->
     ({[ "type" := VString "product" ]} : gmap string value) !! k =
     ({[ "type" := VNumber (Number "5") ]} : gmap string value) !! k) /\
  isValid (lineItemSchema Zod3 {[ "type" := VString "product" ]}) = true /\
  isValid (lineItemSchema Zod3 {[ "type" := VNumber (Number "5") ]}) = false /\
  isValid (lineItemSchema Zod4 {[ "type" := VString "product" ]}) = true /\
  isValid (lineItemSchema Zod4 {[ "type" := VNumber (Number "5") ]}) = false.
Proof.
  split; [| repeat split; vm_compute; reflexivity].
  intros k Hk. rewrite !lookup_singleton_ne by congruence. reflexivity.
Qed.

Lemma lineItem_type_is_informational_witness :
  let o1 : gmap string value :=
    {[ "type" := VString "tax"; "rate" := VString "19,5"; "note" := VNull ]} in
  let o2 : gmap string value :=
    {[ "type" := VString "surcharge"; "rate" := VString "19,5"; "note" := VNull ]} in
  isValid (lineItemSchema Zod3 o1) = isValid (lineItemSchema Zod3 o2) /\
  (forall issues, lineItemSchema Zod3 o1 = Invalid issues <->
                  lineItemSchema Zod3 o2 = Invalid issues) /\
  (forall i1 i2, lineItemSchema Zod3 o1 = Valid i1 -> lineItemSchema Zod3 o2 = Valid i2 ->
     type i1 = typeValue o1 /\ type i2 = typeValue o2 /\
     i2 = withType (type i2) i1).
Proof.
  intros o1 o2. apply (lineItem_type_is_informational Zod3 o1 o2).
  - intros k Hk. unfold o1, o2.
    rewrite !(lookup_insert_ne _ "type") by congruence. reflexivity.
  - vm_compute. reflexivity.
  - vm_compute. reflexivity.
Defined.

End LineItemsInstances.

(** ** The table hints *)

Section TableHints.
Import JS Hints Notions.

Lemma filter_length_0 {A} (f : A -> bool) (l : list A) :
  Nat.eqb (List.length (List.filter f l)) 0 = negb (existsb f l).
Proof.
  induction l as [| x l IH]; [reflexivity |].
  cbn. destruct (f x); [reflexivity | exact IH].
Qed.

Lemma noCells_no_header (t : table) : noCells t = true -> hasHeaderRow t = false.
Proof.
  unfold noCells, hasHeaderRow, cellsOf.
  destruct (cells t) as [[| c cs] |]; cbn; [reflexivity | discriminate | reflexivity].
Qed.

Lemma visitTable_spec (g : list string) (h : list hint) (t : table) (idx : nat) :
  visitTable (g, h) t idx =
  if hasHeaderRow t
  then (app g [glossaryPart (hintOf idx t)], app h [hintOf idx t])
  else (g, h).
Proof.
  unfold visitTable. destruct (noCells t) eqn:En.
  - rewrite (noCells_no_header t En). reflexivity.
  - rewrite filter_length_0. unfold hasHeaderRow.
    destruct (existsb isHeaderCell (cellsOf t)); reflexivity.
Qed.

Lemma forEach_visitTable (ts : list table) :
  forall (idx : nat) (g : list string) (h : list hint),
  forEach visitTable ts idx (g, h) =
  (app g (map glossaryPart (hintsFrom idx ts)), app h (hintsFrom idx ts)).
Proof.
  induction ts as [| t ts IH]; intros idx g h; cbn [forEach hintsFrom].
  - cbn. rewrite !app_nil_r. reflexivity.
  - rewrite visitTable_spec. destruct (hasHeaderRow t).
    + rewrite IH. cbn [map]. rewrite <- !app_assoc. reflexivity.
    + apply IH.
Qed.

Lemma deriveProductTableHints_spec (l : layout) :
  deriveProductTableHints l =
  {| glossary := join (" " ++ LF ++ " ") (map glossaryPart (hintsFrom 0 (tablesOf l)));
     hints := hintsFrom 0 (tablesOf l) |}.
Proof.
  unfold deriveProductTableHints, tablesOf.
  rewrite forEach_visitTable. reflexivity.
Qed.

Lemma hintsFrom_length (ts : list table) (idx : nat) :
  List.length (hintsFrom idx ts) = List.length (List.filter hasHeaderRow ts).
Proof.
  revert idx. induction ts as [| t ts IH]; intros idx; cbn; [reflexivity |].
  destruct (hasHeaderRow t); cbn; rewrite IH; reflexivity.
Qed.

Lemma hintsFrom_In (ts : list table) (idx : nat) (h : hint) :
  In h (hintsFrom idx ts) <->
  exists i t, ts !! i = Some t /\ hasHeaderRow t = true /\ h = hintOf (idx + i) t.
Proof.
  revert idx. induction ts as [| t ts IH]; intros idx; cbn [hintsFrom].
  - split; [intros [] | intros (i & t & H & _); destruct i; discriminate].
  - assert (R : In h (hintsFrom (idx + 1) ts) <->
                exists i t', (t :: ts) !! S i = Some t' /\ hasHeaderRow t' = true /\
                             h = hintOf (idx + S i) t').
    { rewrite IH. split; intros (i & t' & H1 & H2 & H3); exists i, t';
        (split; [exact H1 | split; [exact H2 |]]);
        rewrite H3; f_equal; lia. }
    destruct (hasHeaderRow t) eqn:Et; cbn [In]; rewrite ?R.
    + split.
      * intros [<- | (i & t' & H)]; [| exists (S i), t'; exact H].
        exists 0, t. rewrite Nat.add_0_r. auto.
      * intros ([| i] & t' & H1 & H2 & H3).
        -- injection H1 as <-. left. rewrite H3, Nat.add_0_r. reflexivity.
        -- right. exists i, t'. auto.
    + split.
      * intros (i & t' & H). exists (S i), t'. exact H.
      * intros ([| i] & t' & H1 & H2 & H3).
        -- injection H1 as <-. congruence.
        -- exists i, t'. auto.
Qed.

Lemma hintsFrom_lower (ts : list table) (idx : nat) :
  Forall (fun h => idx <= tableIndex h) (hintsFrom idx ts).
Proof.
  apply List.Forall_forall. intros h Hh.
  apply hintsFrom_In in Hh as (i & t & _ & _ & ->). cbn. lia.
Qed.

Lemma hintsFrom_increasing (ts : list table) (idx : nat) :
  StronglySorted lt (map tableIndex (hintsFrom idx ts)).
Proof.
  revert idx. induction ts as [| t ts IH]; intros idx; cbn [hintsFrom].
  - constructor.
  - destruct (hasHeaderRow t); [| apply IH].
    cbn [map]. constructor; [apply IH |].
    apply List.Forall_map.
    eapply List.Forall_impl; [| apply (hintsFrom_lower ts (idx + 1))].
    cbn. intros h Hh. lia.
Qed.

(** The sort is a permutation, and ascending for the comparison of the
    column indices. *)
Lemma sortInsert_perm {A} (cmp : A -> A -> Z) (x : A) (l : list A) :
  Permutation (sortInsert cmp x l) (x :: l).
Proof.
  induction l as [| y l IH]; cbn; [reflexivity |].
  destruct (0 <? cmp x y)%Z; [| reflexivity].
  rewrite IH. apply perm_swap.
Qed.

Lemma sort_perm {A} (cmp : A -> A -> Z) (l : list A) : Permutation (sort cmp l) l.
Proof.
  induction l as [| x l IH]; cbn; [reflexivity |].
  rewrite sortInsert_perm. constructor. exact IH.
Qed.

Lemma sortInsert_ascending (x : cell) (l : list cell) :
  ascendingColumns l -> ascendingColumns (sortInsert byColumn x l).
Proof.
  unfold ascendingColumns.
  induction l as [| y l IH]; intros Hl; cbn.
  - constructor; constructor.
  - inversion Hl as [| ? ? Hl' Hy]; subst.
    unfold byColumn at 1. destruct (Z.ltb_spec 0 (columnIndex x - columnIndex y)) as [Hlt | Hge].
    + constructor; [apply IH; exact Hl' |].
      eapply Permutation_Forall; [symmetry; apply sortInsert_perm |].
      constructor; [lia | exact Hy].
    + constructor; [exact Hl |].
      constructor; [lia |].
      eapply List.Forall_impl; [| exact Hy]. cbn. intros c Hc. lia.
Qed.

Lemma sort_ascending (l : list cell) : ascendingColumns (sort byColumn l).
Proof.
  induction l as [| x l IH]; cbn.
  - constructor.
  - apply sortInsert_ascending. exact IH.
Qed.

(** C2. Every table with a header row gives exactly one hint, whatever its
    score, and a table without one gives none: the number of hints is the
    number of tables with a header row, the hint of each such table is
    emitted with the score it has, no hint bears the index of a table
    without a header row, and the glossary is made of the entries of the
    emitted hints only. *)
Theorem deriveProductTableHints_one_hint_per_header_table (l : layout) :
  List.length (hints (deriveProductTableHints l)) =
    List.length (List.filter hasHeaderRow (tablesOf l)) /\
  (forall i t, tablesOf l !! i = Some t -> hasHeaderRow t = true ->
     In (hintOf i t) (hints (deriveProductTableHints l))) /\
  (forall i t, tablesOf l !! i = Some t -> hasHeaderRow t = false ->
     forall h, In h (hints (deriveProductTableHints l)) -> tableIndex h <> i) /\
  glossary (deriveProductTableHints l) =
    join (" " ++ LF ++ " ") (map glossaryPart (hints (deriveProductTableHints l))).
Proof.
  rewrite deriveProductTableHints_spec. cbn [hints glossary].
  split; [apply hintsFrom_length |].
  split; [| split; [| reflexivity]].
  - intros i t Hi Ht. apply hintsFrom_In. exists i, t. auto.
  - intros i t Hi Ht h Hh.
    apply hintsFrom_In in Hh as (j & t' & Hj & Ht' & ->).
    cbn. intros <-. congruence.
Qed.

(** A table whose headers match no keyword is emitted with score 0. *)
Example unlabelled_table_is_emitted :
  hints (deriveProductTableHints
    {| tables := Some [ {| cells := Some [ {| rowIndex := 0; columnIndex := 0;
                                              content := Some "Foo" |} ] |} ] |})
  = [ {| tableIndex := 0; headers := ["Foo"]; score := 0 |} ].
Proof. reflexivity. Qed.

(** C10. The hints come in strictly increasing order of [tableIndex], each
    index being that of a table of the layout; the headers of a hint are the
    contents (the empty string for a missing one) of the header cells of its
    table in ascending order of [columnIndex]; the glossary is the list of the
    entries of the hints, in their order. *)
Theorem deriveProductTableHints_aligned_and_ordered (l : layout) :
  StronglySorted lt (map tableIndex (hints (deriveProductTableHints l))) /\
  (forall h, In h (hints (deriveProductTableHints l)) ->
     exists t cs,
       tablesOf l !! tableIndex h = Some t /\
       Permutation cs (List.filter isHeaderCell (cellsOf t)) /\
       ascendingColumns cs /\
       headers h = map contentOrEmpty cs) /\
  glossary (deriveProductTableHints l) =
    join (" " ++ LF ++ " ") (map glossaryPart (hints (deriveProductTableHints l))) /\
  (forall h, glossaryPart h =
     "Table " ++ pretty (tableIndex h + 1) ++ " with headers: " ++ join ", " (headers h)).
Proof.
  rewrite deriveProductTableHints_spec. cbn [hints glossary].
  split; [apply hintsFrom_increasing |].
  split; [| split; reflexivity].
  intros h Hh. apply hintsFrom_In in Hh as (i & t & Hi & _ & ->).
  exists t, (headerCellsOf t). cbn.
  split; [exact Hi |].
  split; [apply sort_perm |].
  split; [apply sort_ascending | reflexivity].
Qed.

End TableHints.

(** ** The normalisation of header text *)

Section HeaderNormalisation.
Import JS Hints Notions.

Lemma append_String (c : ascii) (s t : string) : String c s ++ t = String c (s ++ t).
Proof. reflexivity. Qed.

Lemma append_empty_l (t : string) : "" ++ t = t.
Proof. reflexivity. Qed.

Lemma append_empty_r (s : string) : s ++ "" = s.
Proof. induction s as [| c s IH]; [reflexivity |]. rewrite append_String, IH. reflexivity. Qed.

Ltac push_append := rewrite ?append_String, ?append_empty_l, ?append_empty_r.

Lemma headerChar_not_space (c : ascii) : isHeaderChar c = true -> isWhiteSpace c = false.
Proof.
  destruct c as [[] [] [] [] [] [] [] []]; vm_compute; congruence.
Qed.

Lemma collapse_blank_header (c : ascii) (r : string) :
  isHeaderChar c = true ->
  collapseWhiteSpace (blankOthers (String c r)) =
  String c (collapseWhiteSpace (blankOthers r)).
Proof.
  intros H. cbn. rewrite H. rewrite (headerChar_not_space c H). reflexivity.
Qed.

Lemma collapse_blank_other (c : ascii) (r : string) :
  isHeaderChar c = false ->
  collapseWhiteSpace (blankOthers (String c r)) =
  match r with
  | "" => " "
  | String _ _ =>
      if startsWithHeaderChar r
      then String " " (collapseWhiteSpace (blankOthers r))
      else collapseWhiteSpace (blankOthers r)
  end.
Proof.
  intros H. destruct r as [| d r']; cbn; rewrite H; [reflexivity |].
  destruct (isHeaderChar d) eqn:Ed.
  - rewrite (headerChar_not_space d Ed). reflexivity.
  - reflexivity.
Qed.

Lemma join_consChar (c : ascii) (ws : list string) :
  isNil ws = false -> join " " (consChar c ws) = String c (join " " ws).
Proof. destruct ws as [| w [| w' ws']]; [discriminate | reflexivity | reflexivity]. Qed.

Lemma join_cons (w : string) (ws : list string) :
  join " " (w :: ws) = w ++ (if isNil ws then "" else " " ++ join " " ws).
Proof.
  destruct ws; cbn; [| reflexivity].
  symmetry. apply append_empty_r.
Qed.

Lemma tokens_start (s : string) :
  startsWithHeaderChar s = true ->
  exists c w ws, tokens s = String c w :: ws /\ isHeaderChar c = true.
Proof.
  destruct s as [| c r]; [discriminate |]. cbn. intros H. rewrite H.
  destruct (startsWithHeaderChar r).
  - destruct (tokens r) as [| w ws]; cbn; eauto.
  - eauto.
Qed.

Lemma tokens_head (s : string) (w : string) (ws : list string) :
  tokens s = w :: ws -> exists c w', w = String c w' /\ isHeaderChar c = true.
Proof.
  revert w ws. induction s as [| c r IH]; intros w ws; [discriminate |].
  cbn. destruct (isHeaderChar c) eqn:Ec; [| apply IH].
  destruct (startsWithHeaderChar r).
  - destruct (tokens r); cbn; intros [= <- <-]; eauto.
  - intros [= <- <-]. eauto.
Qed.

Lemma join_tokens_start (s : string) :
  isNil (tokens s) = false ->
  exists c r, join " " (tokens s) = String c r /\ isWhiteSpace c = false.
Proof.
  destruct (tokens s) as [| w ws] eqn:E; [discriminate |]. intros _.
  destruct (tokens_head s w ws E) as (c & w' & -> & Hc).
  rewrite join_cons. cbn. eauto using headerChar_not_space.
Qed.

Lemma trimEnd_collapse_blank (s : string) :
  trimEnd (collapseWhiteSpace (blankOthers s)) =
  (if negb (startsWithHeaderChar s) && negb (isNil (tokens s)) then " " else "")
  ++ join " " (tokens s).
Proof.
  induction s as [| c r IH]; [reflexivity |].
  destruct (isHeaderChar c) eqn:Ec.
  - rewrite (collapse_blank_header c r Ec).
    cbn [trimEnd startsWithHeaderChar tokens]. rewrite Ec, IH.
    rewrite (headerChar_not_space c Ec). cbn [andb negb]. push_append.
    destruct (startsWithHeaderChar r) eqn:Er.
    + destruct (tokens_start r Er) as (d & w & ws & E & _).
      rewrite join_consChar by (rewrite E; reflexivity).
      cbn [negb andb]. push_append. reflexivity.
    + rewrite join_cons. cbn [negb andb].
      destruct (tokens r) as [| w ws]; cbn [isNil negb]; push_append; reflexivity.
  - rewrite (collapse_blank_other c r Ec).
    cbn [startsWithHeaderChar tokens]. rewrite Ec. cbn [negb andb].
    destruct r as [| d r']; [reflexivity |].
    destruct (startsWithHeaderChar (String d r')) eqn:Er.
    + destruct (tokens_start _ Er) as (e & w & ws & E & He).
      cbn [trimEnd]. rewrite IH, E. cbn [negb andb isNil]. push_append.
      rewrite join_cons. push_append. reflexivity.
    + rewrite IH. reflexivity.
Qed.

Lemma trimStart_trimEnd (s : string) : trimEnd (trimStart s) = trimStart (trimEnd s).
Proof.
  induction s as [| c r IH]; [reflexivity |].
  cbn [trimStart trimEnd]. destruct (isWhiteSpace c) eqn:Ec.
  - rewrite IH. cbn [andb]. destruct (isEmpty (trimEnd r)) eqn:Ee.
    + destruct (trimEnd r); [reflexivity | discriminate].
    + cbn [trimStart]. rewrite Ec. reflexivity.
  - cbn [andb trimStart trimEnd]. rewrite Ec. reflexivity.
Qed.

Lemma norm_tokens (text : string) : norm text = join " " (tokens (toLowerCase text)).
Proof.
  unfold norm, trim. rewrite trimStart_trimEnd, trimEnd_collapse_blank.
  set (s := toLowerCase text).
  destruct (isNil (tokens s)) eqn:En.
  - rewrite andb_false_r. destruct (tokens s); [reflexivity | discriminate].
  - destruct (join_tokens_start s En) as (c & r & E & Hc).
    rewrite E.
    destruct (negb (startsWithHeaderChar s)); cbn [negb andb]; push_append;
      cbn [trimStart]; rewrite ?Hc; reflexivity.
Qed.

Lemma tokens_words (s : string) :
  Forall (fun w => isEmpty w = false /\ forallChars isHeaderChar w = true) (tokens s).
Proof.
  induction s as [| c r IH]; [constructor |].
  cbn. destruct (isHeaderChar c) eqn:Ec; [| exact IH].
  destruct (startsWithHeaderChar r).
  - destruct IH as [| w ws [_ Hw] Hws]; cbn.
    + constructor; [| constructor]. cbn. rewrite Ec. auto.
    + constructor; [| exact Hws]. cbn. rewrite Ec, Hw. auto.
  - constructor; [| exact IH]. cbn. rewrite Ec. auto.
Qed.

Lemma tokens_concat (s : string) :
  String.concat "" (tokens s) = filterChars isHeaderChar s.
Proof.
  assert (A : forall w ws, String.concat "" (w :: ws) = w ++ String.concat "" ws).
  { intros w [| w' ws]; cbn; [| reflexivity]. symmetry. apply append_empty_r. }
  induction s as [| c r IH]; [reflexivity |].
  cbn [tokens filterChars]. destruct (isHeaderChar c) eqn:Ec; [| exact IH].
  rewrite <- IH. destruct (startsWithHeaderChar r) eqn:Er.
  - destruct (tokens_start r Er) as (d & w & ws & E & _). rewrite E.
    cbn [consChar]. rewrite !A. reflexivity.
  - rewrite A. reflexivity.
Qed.

Lemma fold_left_count {A} (p : A -> bool) (l : list A) (n : nat) :
  fold_left (fun score x => if p x then score + 1 else score) l n =
  n + List.length (List.filter p l).
Proof.
  revert n. induction l as [| x l IH]; intros n; cbn; [lia |].
  rewrite IH. destruct (p x); cbn; lia.
Qed.

Lemma scoreHeader_count (headers : list string) :
  scoreHeader headers =
  List.length (List.filter (groupMatches (map norm headers)) HEADER_PATTERNS).
Proof. unfold scoreHeader. rewrite fold_left_count. reflexivity. Qed.

(** C6, as stated, fails: a character that is not kept is replaced by a
    space, not removed, so the letters around it are not joined; the score
    of the header differs from the score of the form the claim gives. *)
Lemma norm_keeps_word_breaks :
  norm "V.A.T." = "v a t" /\
  normAsWorded "V.A.T." = "vat" /\
  norm "V.A.T." <> normAsWorded "V.A.T." /\
  scoreHeader ["V.A.T."] = 0 /\
  List.length (List.filter (groupMatches [normAsWorded "V.A.T."]) HEADER_PATTERNS) = 1.
Proof. repeat split; try reflexivity. vm_compute. discriminate. Qed.

(** C6, amended. The normal form of a header text is made of the words of
    the lowercased text, its maximal runs of characters of [[a-z0-9%]],
    separated by one space each: every other character is replaced by a
    space, runs of spaces are collapsed and the ends trimmed; no kept
    character is lost. The score counts the keyword groups one of whose
    keywords is a substring of the normal form of one of the headers. *)
Theorem norm_is_words_of_lowercased (text : string) (headers : list string) :
  norm text = join " " (tokens (toLowerCase text)) /\
  Forall (fun w => isEmpty w = false /\ forallChars isHeaderChar w = true)
         (tokens (toLowerCase text)) /\
  String.concat "" (tokens (toLowerCase text)) =
    filterChars isHeaderChar (toLowerCase text) /\
  scoreHeader headers =
    List.length (List.filter (groupMatches (map norm headers)) HEADER_PATTERNS).
Proof.
  split; [apply norm_tokens |].
  split; [apply tokens_words |].
  split; [apply tokens_concat | apply scoreHeader_count].
Qed.

End HeaderNormalisation.

(** ** The polling loop *)

Section StatusPolling.
Import Polling Notions.

Lemma requestsIssued_cons (e : effect) (run : list effect) :
  requestsIssued (e :: run) = (if isRequest e then 1 else 0) + requestsIssued run.
Proof. unfold requestsIssued. cbn. destruct (isRequest e); reflexivity. Qed.

(** The loop asks at most once more than the attempts left. *)
Lemma poll_requests_bound (cfg : Config) (maxPollAttempts' : nat)
    (server : nat -> reply) (attempts requests : nat) (lastStatus : option string) :
  requestsIssued (poll cfg maxPollAttempts' server attempts requests lastStatus)
  <= maxPollAttempts' - attempts + 1.
Proof.
  funelim (poll cfg maxPollAttempts' server attempts requests lastStatus);
    try (cbn; lia).
  rewrite !requestsIssued_cons. cbn [isRequest]. lia.
Qed.

(** On a batch that stays in a status that is not final, it asks exactly
    once more than the attempts left. *)
Lemma poll_requests_stuck (cfg : Config) (maxPollAttempts' : nat)
    (status : string) (attempts requests : nat) (lastStatus : option string) :
  isFinal status = false -> attempts <= maxPollAttempts' ->
  requestsIssued
    (poll cfg maxPollAttempts' (stuckAt status) attempts requests lastStatus)
  = maxPollAttempts' - attempts + 1.
Proof.
  intros Hs.
  funelim (poll cfg maxPollAttempts' (stuckAt status) attempts requests lastStatus);
    intros Ha; unfold stuckAt in *;
    try discriminate;
    match goal with
    | E : Resolved _ _ = Resolved _ _ |- _ => inversion E; subst
    end; try congruence.
  - rewrite !requestsIssued_cons. cbn [isRequest].
    rewrite H by (auto; lia). lia.
  - cbn. lia.
Qed.

(** A final status ends the loop at once: nothing is asked or scheduled
    after it has been seen. *)
Lemma poll_stops_on_final (cfg : Config) (maxPollAttempts' : nat)
    (server : nat -> reply) (attempts requests : nat)
    (lastStatus : option string) (status : string) :
  server requests = Resolved true status -> isFinal status = true ->
  poll cfg maxPollAttempts' server attempts requests lastStatus =
  [Request; ShowIndicator status; OnStatusChange status;
   StatusTransition lastStatus status; StopPolling; HideIndicator 5000].
Proof.
  intros Hr Hf. funelim (poll cfg maxPollAttempts' server attempts requests lastStatus);
    rewrite Hr in *; try discriminate;
    match goal with
    | E : Resolved _ _ = Resolved _ _ |- _ => inversion E; subst
    end; congruence.
Qed.

(** Every timer the loop sets is the poll interval. *)
Lemma poll_timers (cfg : Config) (maxPollAttempts' : nat)
    (server : nat -> reply) (attempts requests : nat) (lastStatus : option string) :
  Forall (fun e => forall ms, isTimer e = Some ms -> ms = pollInterval cfg)
         (poll cfg maxPollAttempts' server attempts requests lastStatus).
Proof.
  funelim (poll cfg maxPollAttempts' server attempts requests lastStatus);
    repeat first [assumption | constructor; try (cbn; intros; congruence)].
Qed.

Lemma startBatchStatusPolling_requests_bound (cfg : Config)
    (maxAttempts : option nat) (server : nat -> reply) (lastStatus : option string) :
  requestsIssued (startBatchStatusPolling cfg maxAttempts server lastStatus)
  <= orDefault maxAttempts (maxPollAttempts cfg) + 1.
Proof.
  unfold startBatchStatusPolling. destruct (autoRefreshEnabled cfg); cbn [negb].
  - rewrite !requestsIssued_cons. cbn [isRequest].
    pose proof (poll_requests_bound cfg (orDefault maxAttempts (maxPollAttempts cfg))
                  server 0 0 lastStatus). lia.
  - cbn. lia.
Qed.

Lemma timers_cons (e : effect) (run : list effect) :
  omap isTimer (e :: run) =
  match isTimer e with
  | Some ms => ms :: omap isTimer run
  | None => omap isTimer run
  end.
Proof. reflexivity. Qed.

(** The timers of the loop are one poll interval for every request after
    the first. *)
Lemma poll_timer_list (cfg : Config) (maxPollAttempts' : nat)
    (server : nat -> reply) (attempts requests : nat) (lastStatus : option string) :
  1 <= requestsIssued (poll cfg maxPollAttempts' server attempts requests lastStatus) /\
  omap isTimer (poll cfg maxPollAttempts' server attempts requests lastStatus) =
  repeat (pollInterval cfg)
    (requestsIssued (poll cfg maxPollAttempts' server attempts requests lastStatus) - 1).
Proof.
  funelim (poll cfg maxPollAttempts' server attempts requests lastStatus);
    try (split; [cbn; lia | reflexivity]).
  destruct H as [H1 H2].
  rewrite !requestsIssued_cons, !timers_cons, H2. cbn [isRequest isTimer].
  split; [lia |].
  replace (1 + (0 + (0 + (0 + (0 + requestsIssued
     (poll cfg maxPollAttempts' server (attempts + 1) (requests + 1) (Some status)))))) - 1)
    with (S (requestsIssued
     (poll cfg maxPollAttempts' server (attempts + 1) (requests + 1) (Some status)) - 1))
    by lia.
  reflexivity.
Qed.

(** Nothing is asked after the request that is answered with a final
    status. *)
Lemma poll_requests_until_final (cfg : Config) (maxPollAttempts' : nat)
    (server : nat -> reply) (attempts requests : nat) (lastStatus : option string)
    (k : nat) (final : string) :
  server k = Resolved true final -> isFinal final = true -> requests <= k ->
  requestsIssued (poll cfg maxPollAttempts' server attempts requests lastStatus)
  <= k - requests + 1.
Proof.
  intros Hk Hf.
  funelim (poll cfg maxPollAttempts' server attempts requests lastStatus);
    intros Hle; try (cbn; lia).
  rewrite !requestsIssued_cons. cbn [isRequest].
  destruct (Nat.eq_dec requests k) as [-> | Hne].
  - exfalso. congruence.
  - assert (Hlt : requests + 1 <= k) by lia.
    pose proof (H cfg maxPollAttempts' server (attempts + 1) (requests + 1)
                  (Some status) k final Hk Hf eq_refl eq_refl Hlt) as IH.
    lia.
Qed.

(** C7, as stated, fails for the number of the requests: on the batch that
    stays in PROCESSING, with the configured 45 attempts, the loop issues 46
    status requests, the first after 2000 ms and each of the 45 others after
    the poll interval of 8000 ms, before it reports the timeout. *)
Theorem polling_issues_one_request_more_than_maxPollAttempts :
  maxPollAttempts config = 45 /\
  requestsIssued (startBatchStatusPolling config None (stuckAt "PROCESSING") None) = 46 /\
  ~ requestsIssued (startBatchStatusPolling config None (stuckAt "PROCESSING") None)
    <= maxPollAttempts config /\
  omap isTimer (startBatchStatusPolling config None (stuckAt "PROCESSING") None)
    = 2000%N :: repeat 8000%N 45 /\
  last (startBatchStatusPolling config None (stuckAt "PROCESSING") None)
    = Some (OnStatusChange "TIMEOUT").
Proof.
  assert (E : requestsIssued
                (startBatchStatusPolling config None (stuckAt "PROCESSING") None) = 46)
    by (vm_compute; reflexivity).
  split; [reflexivity |]. split; [exact E |].
  split; [rewrite E; cbn; lia |].
  split; vm_compute; reflexivity.
Qed.

(** C7, amended. Every run ends, after at most one request more than the
    attempts allowed: the first request is made 2000 ms after the start, and
    each of the others, at most as many as attempts are allowed, one poll
    interval after the reply before it. The run stops at the first final
    status: the request answered with it is the last one. *)
Theorem polling_requests_and_timers (cfg : Config) (maxAttempts : option nat)
    (server : nat -> reply) (lastStatus : option string) :
  requestsIssued (startBatchStatusPolling cfg maxAttempts server lastStatus)
    <= orDefault maxAttempts (maxPollAttempts cfg) + 1 /\
  omap isTimer (startBatchStatusPolling cfg maxAttempts server lastStatus) =
    (if autoRefreshEnabled cfg
     then 2000%N ::
          repeat (pollInterval cfg)
            (requestsIssued
               (startBatchStatusPolling cfg maxAttempts server lastStatus) - 1)
     else []) /\
  (forall k status, server k = Resolved true status -> isFinal status = true ->
     requestsIssued (startBatchStatusPolling cfg maxAttempts server lastStatus)
     <= k + 1) /\
  orDefault None (maxPollAttempts config) = 45 /\ pollInterval config = 8000%N.
Proof.
  split; [apply startBatchStatusPolling_requests_bound |].
  unfold startBatchStatusPolling.
  destruct (autoRefreshEnabled cfg); cbn [negb].
  - destruct (poll_timer_list cfg (orDefault maxAttempts (maxPollAttempts cfg))
                server 0 0 lastStatus) as [H1 H2].
    rewrite !requestsIssued_cons, !timers_cons, H2. cbn [isRequest isTimer Nat.add].
    split; [reflexivity |]. split; [| split; reflexivity].
    intros k status Hk Hf.
    pose proof (poll_requests_until_final cfg
                  (orDefault maxAttempts (maxPollAttempts cfg)) server 0 0 lastStatus
                  k status Hk Hf) as B.
    assert (L : 0 <= k) by lia. specialize (B L). lia.
  - split; [reflexivity |]. split; [| split; reflexivity].
    intros k status _ _. cbn. lia.
Qed.

End StatusPolling.

(** ** The archived extraction routes *)

Section ArchivedRoutes.
Import Routes Notions.

Lemma splitOnly_enabled (SPLIT_ONLY : option string) :
  splitOnly SPLIT_ONLY = true <-> SPLIT_ONLY = Some "1" \/ SPLIT_ONLY = Some "true".
Proof.
  unfold splitOnly. destruct SPLIT_ONLY as [v |].
  - rewrite orb_true_iff, !String.eqb_eq. split.
    + intros [-> | ->]; auto.
    + intros [[= ->] | [= ->]]; auto.
  - split; [discriminate | intros [H | H]; discriminate].
Qed.

(** The two guarded routes answer with the archived response while the
    switch is on, and hand the request to their controller otherwise. *)
Lemma guarded_routes (SPLIT_ONLY : option string) (batchId : string) :
  batchId <> "" ->
  dispatch SPLIT_ONLY (post ["batches"; batchId; "extract-data"]) =
    (if splitOnly SPLIT_ONLY then Send (sendArchivedApi "data extraction")
     else Call extractInvoiceData) /\
  dispatch SPLIT_ONLY (get ["batches"; batchId; "extracted-data"]) =
    (if splitOnly SPLIT_ONLY then Send (sendArchivedApi "extracted data retrieval")
     else Call getExtractedData).
Proof. intros H. destruct batchId; [contradiction |]. split; reflexivity. Qed.

Lemma sendArchivedApi_response (feature : string) :
  status (sendArchivedApi feature) = 410 /\
  success (sendArchivedApi feature) = false /\
  error (sendArchivedApi feature) = "archived_feature".
Proof. repeat split. Qed.

(** The route of the extraction of one invoice, and the two routes of the
    extraction from a layout, do not look at the switch. *)
Lemma unguarded_extraction_routes (SPLIT_ONLY : option string)
    (batchId invoiceIndex : string) :
  batchId <> "" -> invoiceIndex <> "" ->
  dispatch SPLIT_ONLY (post ["batches"; batchId; "extract-invoice"; invoiceIndex])
    = Call extractSingleInvoice /\
  dispatch SPLIT_ONLY (post ["extract"]) = Call extractFromLayoutOfBody /\
  dispatch SPLIT_ONLY (post ["extract-pdf"]) = Call extractFromLayoutOfPdf.
Proof.
  intros H1 H2. destruct batchId; [contradiction |].
  destruct invoiceIndex; [contradiction |]. repeat split.
Qed.

(** C3 on the extraction of one invoice: with [SPLIT_ONLY=true] the request
    POST /batches/b1/extract-invoice/0 is handed to [extractSingleInvoice]
    and gets no archived response, while POST /batches/b1/extract-data gets
    it. *)
Theorem extract_invoice_runs_under_SPLIT_ONLY :
  splitOnly (Some "true") = true /\
  dispatch (Some "true") (post ["batches"; "b1"; "extract-data"])
    = Send (sendArchivedApi "data extraction") /\
  dispatch (Some "true") (post ["batches"; "b1"; "extract-invoice"; "0"])
    = Call extractSingleInvoice /\
  (forall feature,
     dispatch (Some "true") (post ["batches"; "b1"; "extract-invoice"; "0"])
     <> Send (sendArchivedApi feature)).
Proof. repeat split. intros feature. discriminate. Qed.

End ArchivedRoutes.

(** ** More on the polling loop *)

Section PollingRuns.
Import Polling Transitions Notions.

Ltac poll_case Hr :=
  rewrite Hr in *; try discriminate;
  try match goal with
      | E : Resolved _ _ = Resolved _ _ |- _ => inversion E; subst
      end;
  first [reflexivity | congruence | lia].

Lemma poll_continue (cfg : Config) (maxPollAttempts' : nat) (server : nat -> reply)
    (attempts requests : nat) (lastStatus : option string) (status : string) :
  server requests = Resolved true status -> isFinal status = false ->
  attempts < maxPollAttempts' ->
  poll cfg maxPollAttempts' server attempts requests lastStatus =
  Request :: ShowIndicator status :: OnStatusChange status ::
  StatusTransition lastStatus status :: SetTimeout (pollInterval cfg) ::
  poll cfg maxPollAttempts' server (attempts + 1) (requests + 1) (Some status).
Proof.
  intros Hr Hf Ha.
  funelim (poll cfg maxPollAttempts' server attempts requests lastStatus); poll_case Hr.
Qed.

Lemma poll_timeout (cfg : Config) (maxPollAttempts' : nat) (server : nat -> reply)
    (attempts requests : nat) (lastStatus : option string) (status : string) :
  server requests = Resolved true status -> isFinal status = false ->
  maxPollAttempts' <= attempts ->
  poll cfg maxPollAttempts' server attempts requests lastStatus =
  [Request; ShowIndicator status; OnStatusChange status;
   StatusTransition lastStatus status; StopPolling; HideIndicator 0;
   OnStatusChange "TIMEOUT"].
Proof.
  intros Hr Hf Ha.
  funelim (poll cfg maxPollAttempts' server attempts requests lastStatus); poll_case Hr.
Qed.

Lemma poll_rejected (cfg : Config) (maxPollAttempts' : nat) (server : nat -> reply)
    (attempts requests : nat) (lastStatus : option string) (message : string) :
  server requests = Rejected message ->
  poll cfg maxPollAttempts' server attempts requests lastStatus =
  [Request; StopPolling; HideIndicator 0; OnStatusChange "ERROR"].
Proof.
  intros Hr.
  funelim (poll cfg maxPollAttempts' server attempts requests lastStatus); poll_case Hr.
Qed.

Lemma poll_unsuccessful (cfg : Config) (maxPollAttempts' : nat) (server : nat -> reply)
    (attempts requests : nat) (lastStatus : option string) (status : string) :
  server requests = Resolved false status ->
  poll cfg maxPollAttempts' server attempts requests lastStatus = [Request].
Proof.
  intros Hr.
  funelim (poll cfg maxPollAttempts' server attempts requests lastStatus); poll_case Hr.
Qed.

Lemma requestsIssued_app (a b : list effect) :
  requestsIssued (app a b) = requestsIssued a + requestsIssued b.
Proof. unfold requestsIssued. rewrite List.filter_app, length_app. reflexivity. Qed.

Lemma pendingFor_head (server : nat -> reply) (from k : nat) :
  pendingFor server from (S k) ->
  (exists status, server from = Resolved true status /\ isFinal status = false) /\
  pendingFor server (from + 1) k.
Proof.
  intros H. split.
  - destruct (H 0 ltac:(lia)) as (s & Hs & Hf). rewrite Nat.add_0_r in Hs. eauto.
  - intros j Hj. destruct (H (S j) ltac:(lia)) as (s & Hs & Hf).
    exists s. split; [| exact Hf]. rewrite <- Hs. f_equal. lia.
Qed.

(** While the batch is pending the closure goes on: after [k] pending
    replies it is at its [k]-th next call, having asked [k] times. *)
Lemma poll_pending_prefix (cfg : Config) (maxPollAttempts' : nat)
    (server : nat -> reply) (k : nat) :
  forall (attempts requests : nat) (lastStatus : option string),
  pendingFor server requests k -> attempts + k <= maxPollAttempts' ->
  exists (prefix : list effect) (last' : option string),
    poll cfg maxPollAttempts' server attempts requests lastStatus =
      app prefix (poll cfg maxPollAttempts' server (attempts + k) (requests + k) last') /\
    requestsIssued prefix = k.
Proof.
  induction k as [| k IH]; intros attempts requests lastStatus Hp Ha.
  - exists [], lastStatus. rewrite !Nat.add_0_r. split; reflexivity.
  - destruct (pendingFor_head _ _ _ Hp) as [(s & Hs & Hf) Hp'].
    destruct (IH (attempts + 1) (requests + 1) (Some s) Hp' ltac:(lia))
      as (prefix & last' & E & Hn).
    exists (Request :: ShowIndicator s :: OnStatusChange s ::
            StatusTransition lastStatus s :: SetTimeout (pollInterval cfg) :: prefix), last'.
    split.
    + assert (Hlt : attempts < maxPollAttempts') by lia.
      rewrite (poll_continue cfg maxPollAttempts' server attempts requests lastStatus
                 s Hs Hf Hlt), E.
      replace (attempts + S k) with (attempts + 1 + k) by lia.
      replace (requests + S k) with (requests + 1 + k) by lia.
      reflexivity.
    + rewrite !requestsIssued_cons, Hn. cbn [isRequest]. lia.
Qed.

Lemma start_enabled (cfg : Config) (maxAttempts : option nat)
    (server : nat -> reply) (lastStatus : option string) :
  autoRefreshEnabled cfg = true ->
  startBatchStatusPolling cfg maxAttempts server lastStatus =
  StopPolling :: ShowIndicator "MONITORING" :: SetTimeout 2000 ::
  poll cfg (orDefault maxAttempts (maxPollAttempts cfg)) server 0 0 lastStatus.
Proof. intros H. unfold startBatchStatusPolling. rewrite H. reflexivity. Qed.

(** X1. A run stops at the first final status it sees: when the first [k]
    replies are pending and the next one carries a final status, exactly
    [k + 1] requests are made, the callback gets that status, and the run
    ends by stopping the poll and hiding the indicator after 5000 ms, without
    a timeout. *)
Theorem run_ends_at_first_final_status (cfg : Config) (maxAttempts : option nat)
    (server : nat -> reply) (lastStatus : option string) (k : nat) (status : string) :
  autoRefreshEnabled cfg = true ->
  k <= orDefault maxAttempts (maxPollAttempts cfg) ->
  pendingFor server 0 k ->
  server k = Resolved true status -> isFinal status = true ->
  requestsIssued (startBatchStatusPolling cfg maxAttempts server lastStatus) = k + 1 /\
  exists (before : list effect) (previous : option string),
    startBatchStatusPolling cfg maxAttempts server lastStatus =
    app before [Request; ShowIndicator status; OnStatusChange status;
                StatusTransition previous status; StopPolling; HideIndicator 5000].
Proof.
  intros He Hk Hp Hs Hf. rewrite (start_enabled _ _ _ _ He).
  assert (Hk' : 0 + k <= orDefault maxAttempts (maxPollAttempts cfg)) by lia.
  destruct (poll_pending_prefix cfg _ server k 0 0 lastStatus Hp Hk')
    as (prefix & last' & E & Hn).
  cbn [Nat.add] in E. rewrite E.
  rewrite (poll_stops_on_final _ _ _ _ _ _ status Hs Hf).
  split.
  - rewrite !requestsIssued_cons, requestsIssued_app, Hn. cbn. lia.
  - exists (StopPolling :: ShowIndicator "MONITORING" :: SetTimeout 2000 :: prefix), last'.
    reflexivity.
Qed.

Lemma run_ends_at_first_final_status_witness :
  requestsIssued
    (startBatchStatusPolling config None
       (fun k => if Nat.ltb k 2 then Resolved true "PROCESSING"
                 else Resolved true "SPLIT_PROPOSED") None) = 2 + 1 /\
  exists (before : list effect) (previous : option string),
    startBatchStatusPolling config None
       (fun k => if Nat.ltb k 2 then Resolved true "PROCESSING"
                 else Resolved true "SPLIT_PROPOSED") None =
    app before [Request; ShowIndicator "SPLIT_PROPOSED"; OnStatusChange "SPLIT_PROPOSED";
                StatusTransition previous "SPLIT_PROPOSED"; StopPolling;
                HideIndicator 5000].
Proof.
  apply (run_ends_at_first_final_status config None _ None 2 "SPLIT_PROPOSED").
  - reflexivity.
  - apply Nat.leb_le. reflexivity.
  - intros j Hj. exists "PROCESSING".
    destruct j as [| [| j]]; [split; reflexivity | split; reflexivity | lia].
  - reflexivity.
  - reflexivity.
Defined.

(** X2. A run gives up after one request more than the attempts allowed:
    when the batch is pending for all of them, exactly that many requests
    are made and the run ends by reporting TIMEOUT to the callback. *)
Theorem run_times_out_when_pending (cfg : Config) (maxAttempts : option nat)
    (server : nat -> reply) (lastStatus : option string) :
  autoRefreshEnabled cfg = true ->
  pendingFor server 0 (orDefault maxAttempts (maxPollAttempts cfg) + 1) ->
  requestsIssued (startBatchStatusPolling cfg maxAttempts server lastStatus)
    = orDefault maxAttempts (maxPollAttempts cfg) + 1 /\
  exists (before : list effect),
    startBatchStatusPolling cfg maxAttempts server lastStatus =
    app before [StopPolling; HideIndicator 0; OnStatusChange "TIMEOUT"].
Proof.
  intros He Hp. rewrite (start_enabled _ _ _ _ He).
  set (n := orDefault maxAttempts (maxPollAttempts cfg)) in *.
  assert (Hp' : pendingFor server 0 n) by (intros j Hj; apply Hp; lia).
  assert (Hk' : 0 + n <= n) by lia.
  destruct (poll_pending_prefix cfg n server n 0 0 lastStatus Hp' Hk')
    as (prefix & last' & E & Hn).
  cbn [Nat.add] in E. rewrite E.
  assert (Hn' : n < n + 1) by lia.
  destruct (Hp n Hn') as (s & Hs & Hf). cbn [Nat.add] in Hs.
  assert (Hge : n <= n) by lia.
  rewrite (poll_timeout cfg n server n n last' s Hs Hf Hge).
  split.
  - rewrite !requestsIssued_cons, requestsIssued_app, Hn. cbn. lia.
  - exists (StopPolling :: ShowIndicator "MONITORING" :: SetTimeout 2000 ::
            app prefix [Request; ShowIndicator s; OnStatusChange s;
                        StatusTransition last' s]).
    cbn [app]. rewrite <- app_assoc. reflexivity.
Qed.

Lemma run_times_out_when_pending_witness :
  requestsIssued
    (startBatchStatusPolling config (Some 3) (fun _ => Resolved true "EXTRACTING_DATA") None)
    = orDefault (Some 3) (maxPollAttempts config) + 1 /\
  exists (before : list effect),
    startBatchStatusPolling config (Some 3) (fun _ => Resolved true "EXTRACTING_DATA") None =
    app before [StopPolling; HideIndicator 0; OnStatusChange "TIMEOUT"].
Proof.
  apply (run_times_out_when_pending config (Some 3) _ None).
  - reflexivity.
  - intros j Hj. exists "EXTRACTING_DATA". split; reflexivity.
Defined.

(** X3. A request that fails ends the run: after [k] pending replies a
    rejected request makes the run stop and report ERROR to the callback,
    while a reply whose body is not successful ends it silently, the
    request being the last thing the run does; in both cases [k + 1]
    requests were made. *)
Theorem run_ends_at_failed_request (cfg : Config) (maxAttempts : option nat)
    (server : nat -> reply) (lastStatus : option string) (k : nat) :
  autoRefreshEnabled cfg = true ->
  k <= orDefault maxAttempts (maxPollAttempts cfg) ->
  pendingFor server 0 k ->
  (forall message, server k = Rejected message ->
     requestsIssued (startBatchStatusPolling cfg maxAttempts server lastStatus) = k + 1 /\
     exists before,
       startBatchStatusPolling cfg maxAttempts server lastStatus =
       app before [Request; StopPolling; HideIndicator 0; OnStatusChange "ERROR"]) /\
  (forall status, server k = Resolved false status ->
     requestsIssued (startBatchStatusPolling cfg maxAttempts server lastStatus) = k + 1 /\
     exists before,
       startBatchStatusPolling cfg maxAttempts server lastStatus =
       app before [Request]).
Proof.
  intros He Hk Hp. rewrite (start_enabled _ _ _ _ He).
  assert (Hk' : 0 + k <= orDefault maxAttempts (maxPollAttempts cfg)) by lia.
  destruct (poll_pending_prefix cfg _ server k 0 0 lastStatus Hp Hk')
    as (prefix & last' & E & Hn).
  cbn [Nat.add] in E. rewrite E. split.
  - intros message Hs. rewrite (poll_rejected _ _ _ _ _ _ message Hs). split.
    + rewrite !requestsIssued_cons, requestsIssued_app, Hn. cbn. lia.
    + exists (StopPolling :: ShowIndicator "MONITORING" :: SetTimeout 2000 :: prefix).
      reflexivity.
  - intros status Hs. rewrite (poll_unsuccessful _ _ _ _ _ _ status Hs). split.
    + rewrite !requestsIssued_cons, requestsIssued_app, Hn. cbn. lia.
    + exists (StopPolling :: ShowIndicator "MONITORING" :: SetTimeout 2000 :: prefix).
      reflexivity.
Qed.

Lemma run_ends_at_failed_request_witness :
  (forall message,
     (fun k => if Nat.ltb k 1 then Resolved true "PROCESSING" else Resolved false "")
       1 = Rejected message ->
     requestsIssued
       (startBatchStatusPolling config None
          (fun k => if Nat.ltb k 1 then Resolved true "PROCESSING" else Resolved false "")
          None) = 1 + 1 /\
     exists before,
       startBatchStatusPolling config None
          (fun k => if Nat.ltb k 1 then Resolved true "PROCESSING" else Resolved false "")
          None =
       app before [Request; StopPolling; HideIndicator 0; OnStatusChange "ERROR"]) /\
  (forall status,
     (fun k => if Nat.ltb k 1 then Resolved true "PROCESSING" else Resolved false "")
       1 = Resolved false status ->
     requestsIssued
       (startBatchStatusPolling config None
          (fun k => if Nat.ltb k 1 then Resolved true "PROCESSING" else Resolved false "")
          None) = 1 + 1 /\
     exists before,
       startBatchStatusPolling config None
          (fun k => if Nat.ltb k 1 then Resolved true "PROCESSING" else Resolved false "")
          None =
       app before [Request]).
Proof.
  apply (run_ends_at_failed_request config None
           (fun k => if Nat.ltb k 1 then Resolved true "PROCESSING" else Resolved false "")
           None 1).
  - reflexivity.
  - apply Nat.leb_le. reflexivity.
  - intros j Hj. exists "PROCESSING".
    destruct j as [| j]; [split; reflexivity | lia].
Defined.

End PollingRuns.

(** ** Waiting time and redirects *)

Section PollingTimeAndRedirects.
Import Polling Transitions Notions.

Lemma totalDelay_cons (e : effect) (run : list effect) :
  totalDelay (e :: run) =
  (match e with SetTimeout ms => ms | _ => 0 end + totalDelay run)%N.
Proof. destruct e; reflexivity. Qed.

Lemma poll_delay (cfg : Config) (maxPollAttempts' : nat) (server : nat -> reply)
    (attempts requests : nat) (lastStatus : option string) :
  1 <= requestsIssued (poll cfg maxPollAttempts' server attempts requests lastStatus) /\
  totalDelay (poll cfg maxPollAttempts' server attempts requests lastStatus) =
  (N.of_nat (requestsIssued
     (poll cfg maxPollAttempts' server attempts requests lastStatus) - 1)
   * pollInterval cfg)%N.
Proof.
  funelim (poll cfg maxPollAttempts' server attempts requests lastStatus);
    try (split; [cbn; lia | reflexivity]).
  destruct H as [H1 H2].
  rewrite !requestsIssued_cons, !totalDelay_cons, H2. cbn [isRequest].
  split; [lia |].
  replace (1 + (0 + (0 + (0 + (0 + requestsIssued
     (poll cfg maxPollAttempts' server (attempts + 1) (requests + 1) (Some status)))))) - 1)
    with (S (requestsIssued
     (poll cfg maxPollAttempts' server (attempts + 1) (requests + 1) (Some status)) - 1))
    by lia.
  lia.
Qed.

(** X4. The waiting a run asks for is bounded: it is the initial 2000 ms
    and one poll interval for every request after the first, so at most
    2000 ms and one poll interval per attempt allowed; with the configured
    values this is 362000 ms. *)
Theorem run_waiting_time_bounded (cfg : Config) (maxAttempts : option nat)
    (server : nat -> reply) (lastStatus : option string) :
  totalDelay (startBatchStatusPolling cfg maxAttempts server lastStatus) =
    (if autoRefreshEnabled cfg
     then 2000 + N.of_nat
            (requestsIssued (startBatchStatusPolling cfg maxAttempts server lastStatus) - 1)
            * pollInterval cfg
     else 0)%N /\
  (totalDelay (startBatchStatusPolling cfg maxAttempts server lastStatus)
   <= 2000 + N.of_nat (orDefault maxAttempts (maxPollAttempts cfg)) * pollInterval cfg)%N /\
  (2000 + N.of_nat (orDefault None (maxPollAttempts config)) * pollInterval config
   = 362000)%N.
Proof.
  pose proof (startBatchStatusPolling_requests_bound cfg maxAttempts server lastStatus) as B.
  unfold startBatchStatusPolling in *.
  destruct (autoRefreshEnabled cfg); cbn [negb] in *.
  - destruct (poll_delay cfg (orDefault maxAttempts (maxPollAttempts cfg)) server 0 0
                lastStatus) as [H1 H2].
    rewrite !requestsIssued_cons in *. rewrite !totalDelay_cons, H2.
    cbn [isRequest] in *.
    split; [| split; [| reflexivity]].
    + cbn [Nat.add]. rewrite !N.add_0_l. reflexivity.
    + cbn [Nat.add] in B. rewrite !N.add_0_l.
      apply N.add_le_mono_l, N.mul_le_mono_r. lia.
  - cbn. split; [reflexivity | split; [lia | reflexivity]].
Qed.

Lemma handle_redirects_le_1 (cfg : Config) (previous : option string)
    (status batchId : string) (batchError : option string) :
  List.length
    (List.filter isRedirect (handleStatusTransition cfg previous status batchId batchError))
  <= 1.
Proof.
  unfold handleStatusTransition.
  repeat match goal with
         | |- context [if ?b then _ else _] => destruct b
         end; cbn; lia.
Qed.

Lemma handle_pending_no_redirect (cfg : Config) (previous : option string)
    (status batchId : string) (batchError : option string) :
  isFinal status = false ->
  List.filter isRedirect (handleStatusTransition cfg previous status batchId batchError) = [].
Proof.
  unfold handleStatusTransition, isFinal. cbn [existsb]. intros H.
  destruct (String.eqb_spec status "SPLIT_PROPOSED") as [-> | _]; [discriminate |].
  destruct (String.eqb_spec status "DATA_VALIDATION_PENDING") as [-> | _]; [discriminate |].
  destruct (String.eqb_spec status "COMPLETED") as [-> | _]; [discriminate |].
  destruct (String.eqb_spec status "ERROR") as [-> | _]; [discriminate |].
  destruct (sameStatus previous status); reflexivity.
Qed.

Lemma handle_unknown_previous_no_redirect (cfg : Config)
    (status batchId : string) (batchError : option string) :
  List.filter isRedirect (handleStatusTransition cfg None status batchId batchError) = [].
Proof.
  unfold handleStatusTransition. cbn.
  repeat match goal with
         | |- context [if ?b then _ else _] => destruct b
         end; reflexivity.
Qed.

Lemma redirects_cons (cfg : Config) (batchId : string) (batchError : option string)
    (e : effect) (run : list effect) :
  redirects cfg batchId batchError (e :: run) =
  app (match e with
       | StatusTransition previous status =>
           List.filter isRedirect
             (handleStatusTransition cfg previous status batchId batchError)
       | _ => []
       end)
      (redirects cfg batchId batchError run).
Proof.
  unfold redirects, actionsOf. cbn [flat_map]. rewrite List.filter_app.
  destruct e; reflexivity.
Qed.

Lemma poll_redirects_le_1 (cfg : Config) (batchId : string) (batchError : option string)
    (maxPollAttempts' : nat) (server : nat -> reply)
    (attempts requests : nat) (lastStatus : option string) :
  List.length (redirects cfg batchId batchError
                 (poll cfg maxPollAttempts' server attempts requests lastStatus)) <= 1.
Proof.
  funelim (poll cfg maxPollAttempts' server attempts requests lastStatus);
    rewrite ?redirects_cons; cbn [app];
    try match goal with
        | F : isFinal ?s = false |- _ =>
            rewrite (handle_pending_no_redirect cfg lastStatus s batchId batchError F)
        end;
    rewrite ?length_app; cbn [app List.length redirects actionsOf flat_map List.filter];
    try lia.
  - pose proof (handle_redirects_le_1 cfg lastStatus status batchId batchError). lia.
  - specialize (H batchId batchError). lia.
Qed.

(** X5. A run schedules at most one redirect, and none at all when it
    begins without a stored status and the first reply already carries a
    final status: a page opened on a batch that awaits input stays where it
    is. *)
Theorem run_redirects_at_most_once (cfg : Config) (maxAttempts : option nat)
    (server : nat -> reply) (lastStatus : option string)
    (batchId : string) (batchError : option string) :
  List.length (redirects cfg batchId batchError
                 (startBatchStatusPolling cfg maxAttempts server lastStatus)) <= 1 /\
  (forall status, server 0 = Resolved true status -> isFinal status = true ->
     redirects cfg batchId batchError
       (startBatchStatusPolling cfg maxAttempts server None) = []).
Proof.
  unfold startBatchStatusPolling.
  destruct (autoRefreshEnabled cfg); cbn [negb]; [| split; [cbn; lia | reflexivity]].
  split.
  - rewrite !redirects_cons. cbn [app]. apply poll_redirects_le_1.
  - intros status Hs Hf. rewrite (poll_stops_on_final _ _ _ _ _ _ status Hs Hf).
    rewrite !redirects_cons. cbn [app].
    rewrite handle_unknown_previous_no_redirect. reflexivity.
Qed.

(** X6. A redirect is only scheduled on a change from a known status: the
    previous status is stored, not empty and not the current one, and the
    target and the delay are those of the current status, the validation of
    the splits after PROCESSING, SPLITTING or PROCESSING_SPLIT, the
    validation of the data after SPLIT_VALIDATED or EXTRACTING_DATA, the
    dashboard one second later on COMPLETED; an ERROR never redirects. *)
Theorem redirect_needs_known_change (cfg : Config) (previous : option string)
    (status batchId : string) (batchError : option string) (ms : N) (href : string) :
  In (RedirectAfter ms href)
     (handleStatusTransition cfg previous status batchId batchError) ->
  exists p, previous = Some p /\ p <> "" /\ p <> status /\
    ((status = "SPLIT_PROPOSED" /\
      In p ["PROCESSING"; "SPLITTING"; "PROCESSING_SPLIT"] /\
      ms = statusTransitionDelay cfg /\ href = "/validate-splits/" ++ batchId) \/
     (status = "DATA_VALIDATION_PENDING" /\
      In p ["SPLIT_VALIDATED"; "EXTRACTING_DATA"] /\
      ms = statusTransitionDelay cfg /\
      href = "/batches/" ++ batchId ++ "/validate-data") \/
     (status = "COMPLETED" /\
      ms = (statusTransitionDelay cfg + 1000)%N /\ href = "/dashboard")).
Proof.
  unfold handleStatusTransition.
  destruct previous as [p |]; cbn [sameStatus truthy isOneOf existsb andb orb negb].
  2: { repeat match goal with
              | |- context [if ?b then _ else _] => destruct b
              end; cbn; intuition discriminate. }
  destruct (String.eqb_spec p status) as [-> | Hne]; [intros []|].
  destruct (String.eqb_spec status "SPLIT_PROPOSED") as [-> | _].
  { destruct (JS.isEmpty p) eqn:Ee; cbn [negb andb]; [intros [] |].
    destruct (String.eqb_spec p "PROCESSING") as [-> | _];
      [| destruct (String.eqb_spec p "SPLITTING") as [-> | _];
         [| destruct (String.eqb_spec p "PROCESSING_SPLIT") as [-> | _]]];
      cbn; intros H; try (destruct H as [H | [H | []]]; try discriminate;
        injection H as <- <-; eexists; repeat split; try discriminate;
        left; repeat split; cbn; auto).
    destruct H. }
  destruct (String.eqb_spec status "DATA_VALIDATION_PENDING") as [-> | _].
  { destruct (String.eqb_spec p "SPLIT_VALIDATED") as [-> | _];
      [| destruct (String.eqb_spec p "EXTRACTING_DATA") as [-> | _]];
      cbn; intros H; try (destruct H as [H | [H | []]]; try discriminate;
        injection H as <- <-; eexists; repeat split; try discriminate;
        right; left; repeat split; cbn; auto).
    destruct H. }
  destruct (String.eqb_spec status "COMPLETED") as [-> | _].
  { destruct (String.eqb_spec p "COMPLETED") as [-> | _]; [congruence |].
    destruct p as [| c p']; cbn; [intros [] |].
    intros [H | [H | []]]; try discriminate. injection H as <- <-.
    eexists; repeat split; try discriminate; auto. }
  destruct (String.eqb_spec status "ERROR") as [-> | _];
    cbn; intuition discriminate.
Qed.

Lemma redirect_needs_known_change_witness :
  exists p, Some "PROCESSING" = Some p /\ p <> "" /\ p <> "SPLIT_PROPOSED" /\
    (("SPLIT_PROPOSED" = "SPLIT_PROPOSED" /\
      In p ["PROCESSING"; "SPLITTING"; "PROCESSING_SPLIT"] /\
      2000%N = statusTransitionDelay config /\
      "/validate-splits/b1" = "/validate-splits/" ++ "b1") \/
     ("SPLIT_PROPOSED" = "DATA_VALIDATION_PENDING" /\
      In p ["SPLIT_VALIDATED"; "EXTRACTING_DATA"] /\
      2000%N = statusTransitionDelay config /\
      "/validate-splits/b1" = "/batches/" ++ "b1" ++ "/validate-data") \/
     ("SPLIT_PROPOSED" = "COMPLETED" /\
      2000%N = (statusTransitionDelay config + 1000)%N /\
      "/validate-splits/b1" = "/dashboard")).
Proof.
  apply (redirect_needs_known_change config (Some "PROCESSING") "SPLIT_PROPOSED"
           "b1" None 2000 "/validate-splits/b1").
  cbn. right. left. reflexivity.
Defined.

End PollingTimeAndRedirects.
(** ** More on the routers *)

Section Routers.
Import Routes Stack Notions.

Lemma handle_routes_then_all (rs : list route) (answer : option string -> outcome)
    (rest : list layer) (SPLIT_ONLY : option string) (r : request) :
  answer SPLIT_ONLY = Send notFound ->
  handle (app (map Route rs) (UseAll answer :: rest)) SPLIT_ONLY r =
  Some (dispatchIn rs SPLIT_ONLY r).
Proof.
  intros Ha. induction rs as [| rt rs IH]; cbn; [rewrite Ha; reflexivity |].
  destruct (takes rt r); [reflexivity | exact IH].
Qed.

(** X7. The route of the test extraction is registered below the handler of
    every other request and is never reached: whatever is registered, a
    request is answered by the routes above that handler or by its 404, and
    a POST to /test-extract/:batchId/:invoiceIndex, which the route would
    take when the two parameters are not empty, gets the 404, not the
    archived response. *)
Theorem test_extract_route_is_dead (SPLIT_ONLY : option string) (r : request)
    (batchId invoiceIndex : string) :
  handle layers SPLIT_ONLY r = Some (dispatch SPLIT_ONLY r) /\
  (batchId <> "" -> invoiceIndex <> "" ->
   methodEqb (routeMethod testExtract) POST &&
   matches (pattern testExtract) ["test-extract"; batchId; invoiceIndex] = true) /\
  handle layers SPLIT_ONLY (post ["test-extract"; batchId; invoiceIndex])
    = Some (Send notFound).
Proof.
  split; [apply handle_routes_then_all; reflexivity |].
  split.
  { intros H1 H2. destruct batchId; [contradiction |].
    destruct invoiceIndex; [contradiction |]. reflexivity. }
  unfold layers. rewrite handle_routes_then_all by reflexivity. reflexivity.
Qed.

Lemma dispatchIn_same (rs : list route) (e1 e2 : option string) (r : request) :
  Forall (fun rt => takes rt r = true -> action rt e1 = action rt e2) rs ->
  dispatchIn rs e1 r = dispatchIn rs e2 r.
Proof.
  induction 1 as [| rt rs Hrt _ IH]; cbn; [reflexivity |].
  destruct (takes rt r); [apply Hrt; reflexivity | exact IH].
Qed.

(** X8. The switch changes what the router does with the requests of the
    two guarded routes only: a request that is not a POST to
    /batches/:batchId/extract-data or a GET or HEAD of
    /batches/:batchId/extracted-data, in whatever case its path is written,
    gets the same response of the router or is handed to the same handler
    whatever SPLIT_ONLY is. *)
Theorem switch_changes_guarded_routes_only (e1 e2 : option string) (r : request) :
  isGuarded r = false -> dispatch e1 r = dispatch e2 r.
Proof.
  intros Hg. apply dispatchIn_same. unfold isGuarded in Hg.
  apply orb_false_elim in Hg as [H1 H2].
  unfold routes.
  repeat constructor; unfold takes; cbn [routeMethod pattern action]; try reflexivity.
  - intros H. rewrite H in H1. discriminate.
  - intros H. rewrite H in H2. discriminate.
Qed.

Lemma switch_changes_guarded_routes_only_witness :
  dispatch (Some "true") (post ["batches"; "b1"; "extract-invoice"; "0"]) =
  dispatch None (post ["batches"; "b1"; "extract-invoice"; "0"]).
Proof.
  apply (switch_changes_guarded_routes_only (Some "true") None). reflexivity.
Defined.

(** The path of a guarded route is taken in whatever case it is written,
    and with a slash at its end. *)
Example guarded_in_any_case :
  isGuarded (get ["batches"; "b1"; "Extracted-Data"]) = true /\
  dispatch (Some "1") (get ["Batches"; "b1"; "EXTRACTED-DATA"; ""]) =
    Send (sendArchivedApi "extracted data retrieval") /\
  dispatch (Some "1") {| httpMethod := HEAD; path := ["batches"; "b1"; "extracted-data"] |} =
    Send (sendArchivedApi "extracted data retrieval") /\
  dispatch (Some "1") (get ["batches"; ""; "extracted-data"]) = Send notFound.
Proof. repeat split. Qed.

Lemma dispatchIn_archived (rs : list route) (env : option string) (r : request)
    (feature : string) :
  dispatchIn rs env r = Send (sendArchivedApi feature) ->
  exists rt, In rt rs /\ takes rt r = true /\
    action rt env = Send (sendArchivedApi feature).
Proof.
  induction rs as [| rt rs IH]; cbn; [discriminate |].
  destruct (takes rt r) eqn:E.
  - intros H. exists rt. auto.
  - intros H. destruct (IH H) as (rt' & Hin & Hm & Ha). exists rt'. auto.
Qed.

(** *** The routes are apart *)

Lemma sameSegment_trans (a b piece : string) :
  sameSegment a piece = true -> sameSegment b piece = true -> sameSegment a b = true.
Proof. unfold sameSegment. rewrite !String.eqb_eq. congruence. Qed.

Lemma matches_compatible (p q : list segment) (segs : list string) :
  matches p segs = true -> matches q segs = true -> compatible p q = true.
Proof.
  revert q segs. induction p as [| a p IH]; intros q segs Hp Hq.
  - destruct q as [| b q]; [reflexivity |].
    destruct segs as [| x [| y segs]]; cbn in Hp, Hq; try discriminate.
    rewrite Hp in Hq. discriminate.
  - destruct segs as [| x segs]; [discriminate |].
    cbn [matches] in Hp. apply andb_true_iff in Hp as [Hp Hp'].
    apply andb_true_iff in Hp as [Hx Ha].
    destruct q as [| b q].
    + cbn in Hq. destruct segs; [| discriminate]. rewrite Hq in Hx. discriminate.
    + cbn [matches] in Hq. apply andb_true_iff in Hq as [Hq Hq'].
      apply andb_true_iff in Hq as [_ Hb].
      cbn [compatible]. rewrite (IH q segs Hp' Hq'), andb_true_r.
      destruct a as [l | n], b as [l' | n']; try reflexivity.
      cbn in *. eapply sameSegment_trans; eassumption.
Qed.

Lemma takes_overlap (a b : route) (r : request) :
  takes a r = true -> takes b r = true -> overlap a b = true.
Proof.
  unfold takes, overlap. rewrite !andb_true_iff. intros [Ma Pa] [Mb Pb].
  split; [| eapply matches_compatible; eassumption].
  apply existsb_exists. exists (httpMethod r). rewrite Ma, Mb.
  split; [destruct (httpMethod r); cbn; tauto | reflexivity].
Qed.

(** When no two routes can take the same request, the order of the routes
    does not count: the route that takes a request answers it. *)
Lemma dispatchIn_apart (rs : list route) (rt : route) (env : option string)
    (r : request) :
  pairwiseApart rs = true -> In rt rs -> takes rt r = true ->
  dispatchIn rs env r = action rt env.
Proof.
  induction rs as [| x rs IH]; [contradiction |].
  cbn [pairwiseApart dispatchIn]. rewrite andb_true_iff. intros [Hx Hrs] [-> | Hin] Ht.
  - rewrite Ht. reflexivity.
  - destruct (takes x r) eqn:Tx; [exfalso | auto].
    unfold apartFrom in Hx. rewrite forallb_forall in Hx.
    specialize (Hx rt Hin). rewrite (takes_overlap rt x r Ht Tx) in Hx. discriminate.
Qed.

Lemma routes_apart : pairwiseApart routes = true.
Proof. vm_compute. reflexivity. Qed.

(** X9. Among the requests whose path holds no percent sign, the router
    itself gives the archived response to exactly these: the requests of the
    three routes archived for good (validate-data, validation-summary,
    export), and those of the two guarded routes while the switch is on.  No
    two routes can take the same request. *)
Theorem archived_response_exactly (SPLIT_ONLY : option string) (r : request) :
  plain r = true ->
  ((exists feature, dispatch SPLIT_ONLY r = Send (sendArchivedApi feature)) <->
   isAlwaysArchived r = true \/ (splitOnly SPLIT_ONLY = true /\ isGuarded r = true)) /\
  pairwiseApart routes = true.
Proof.
  intros _. split; [| exact routes_apart]. split.
  - intros (feature & H). apply dispatchIn_archived in H as (rt & Hin & Hm & Ha).
    unfold routes in Hin. cbn [In] in Hin.
    unfold isAlwaysArchived, isGuarded.
    repeat (destruct Hin as [<- | Hin];
      [unfold takes in Hm;
       cbn [routeMethod pattern action always guarded] in *; try discriminate |]);
      try contradiction.
    + right. unfold guarded in Ha. destruct (splitOnly SPLIT_ONLY); [| discriminate].
      rewrite Hm. auto.
    + right. unfold guarded in Ha. destruct (splitOnly SPLIT_ONLY); [| discriminate].
      rewrite Hm, orb_true_r. auto.
    + left. rewrite Hm. reflexivity.
    + left. rewrite Hm, orb_true_r. reflexivity.
    + left. rewrite Hm, orb_true_r. reflexivity.
  - unfold isAlwaysArchived, isGuarded. rewrite !orb_true_iff.
    pose proof routes_apart as A.
    intros [[[H | H] | H] | [Hs [H | H]]].
    + exists "data validation".
      refine (dispatchIn_apart routes
        {| routeMethod := POST; pattern := batch [Lit "validate-data"];
           action := always (Send (sendArchivedApi "data validation")) |}
        SPLIT_ONLY r A _ H). cbn. tauto.
    + exists "validation summary".
      refine (dispatchIn_apart routes
        {| routeMethod := GET; pattern := batch [Lit "validation-summary"];
           action := always (Send (sendArchivedApi "validation summary")) |}
        SPLIT_ONLY r A _ H). cbn. tauto.
    + exists "data export".
      refine (dispatchIn_apart routes
        {| routeMethod := GET; pattern := batch [Lit "export"];
           action := always (Send (sendArchivedApi "data export")) |}
        SPLIT_ONLY r A _ H). cbn. tauto.
    + exists "data extraction". unfold dispatch.
      rewrite (dispatchIn_apart routes
        {| routeMethod := POST; pattern := batch [Lit "extract-data"];
           action := guarded "data extraction" extractInvoiceData |}
        SPLIT_ONLY r A ltac:(cbn; tauto) H).
      cbn [action]. unfold guarded. rewrite Hs. reflexivity.
    + exists "extracted data retrieval". unfold dispatch.
      rewrite (dispatchIn_apart routes
        {| routeMethod := GET; pattern := batch [Lit "extracted-data"];
           action := guarded "extracted data retrieval" getExtractedData |}
        SPLIT_ONLY r A ltac:(cbn; tauto) H).
      cbn [action]. unfold guarded. rewrite Hs. reflexivity.
Qed.

Lemma archived_response_exactly_witness :
  ((exists feature,
      dispatch (Some "1") (get ["batches"; "b1"; "Export"; ""])
      = Send (sendArchivedApi feature)) <->
   isAlwaysArchived (get ["batches"; "b1"; "Export"; ""]) = true \/
   (splitOnly (Some "1") = true /\
    isGuarded (get ["batches"; "b1"; "Export"; ""]) = true)) /\
  pairwiseApart routes = true.
Proof.
  apply (archived_response_exactly (Some "1") (get ["batches"; "b1"; "Export"; ""])).
  reflexivity.
Defined.

(** *** The error handler *)


Example errorHandler_examples :
  errorHandler None
    {| name := "Error"; errorMessage := "boom"; errorStatus := Some 1000%Z;
       errorStack := "at f" |} = Throws /\
  errorHandler None
    {| name := "CastError"; errorMessage := "boom"; errorStatus := Some 1000%Z;
       errorStack := "at f" |}
  = Answers {| code := 400; ok := false; errorText := "Invalid ID format";
               details := None; stack := None |} /\
  errorHandler (Some "development")
    {| name := "Error"; errorMessage := ""; errorStatus := Some 0%Z;
       errorStack := "at f" |}
  = Answers {| code := 500; ok := false; errorText := "Internal server error";
               details := None; stack := Some "at f" |}.
Proof. repeat split. Qed.

End Routers.
(** ** The web router *)

Section WebPages.
Import Routes Stack Web.

Lemma servePage_In (rs : list webRoute) (env : option string) (segments : list string)
    (p : page) :
  servePage rs env segments = Some p ->
  exists rt, In rt rs /\ matches (webPattern rt) segments = true /\ send rt env = p.
Proof.
  induction rs as [| rt rs IH]; cbn; [discriminate |].
  destruct (matches (webPattern rt) segments) eqn:E.
  - intros [= <-]. exists rt. auto.
  - intros H. destruct (IH H) as (rt' & Hin & Hm & Hs). exists rt'. auto.
Qed.

Lemma sameSegment_static (piece : string) :
  sameSegment "static" piece = true ->
  JS.toLowerCase piece = "static" /\ JS.isEmpty piece = false.
Proof.
  unfold sameSegment. rewrite String.eqb_eq. intros H.
  split; [symmetry; exact H |]. destruct piece; [discriminate | reflexivity].
Qed.

(** No route takes a path below /static. *)
Lemma page_of_static (env : option string) (piece : string) (rest : list string) :
  sameSegment "static" piece = true -> page_of env (piece :: rest) = None.
Proof.
  intros H. apply sameSegment_static in H as [L E].
  unfold page_of, webRoutes.
  cbn [servePage matches webPattern batch takesSegment]. unfold sameSegment.
  rewrite L, E. destruct rest; reflexivity.
Qed.

(** X11. Every page that a route of the web router sends, the archived
    notice included, is sent with the headers that forbid caching. The
    routes take no path below /static: such a path is handed to
    [express.static], first for the directory src/public, and the files
    there, the same HTML pages among them, are sent without these
    headers being set by the router. *)
Theorem pages_are_never_cached (SPLIT_ONLY : option string) :
  (forall segments p, serve SPLIT_ONLY segments = Page p ->
     page_of SPLIT_ONLY segments = Some p /\
     headers p = noCacheHeaders /\
     In ("Cache-Control", "no-store, no-cache, must-revalidate, proxy-revalidate")
        (headers p)) /\
  (forall piece rest, sameSegment "static" piece = true ->
     exists tries, serve SPLIT_ONLY (piece :: rest) = Static (("src/public", rest) :: tries)) /\
  serve SPLIT_ONLY ["static"; "html"; "dashboard.html"]
    = Static [("src/public", ["html"; "dashboard.html"])] /\
  serve SPLIT_ONLY ["Static"; "split"; "b1"; "invoice_1.pdf"]
    = Static [("src/public", ["split"; "b1"; "invoice_1.pdf"]);
              ("storage/split", ["b1"; "invoice_1.pdf"])] /\
  serve SPLIT_ONLY ["dashboard"] = Page (sendHtmlNoCache "../public/html/dashboard.html") /\
  serve SPLIT_ONLY ["api"; "health"] = PassedOn.
Proof.
  split; [| split; [| repeat split]].
  - intros segments p. unfold serve.
    destruct (page_of SPLIT_ONLY segments) as [q |] eqn:H;
      [| destruct (staticTries segments); discriminate].
    intros [= <-]. split; [reflexivity |].
    apply servePage_In in H as (rt & Hin & _ & <-).
    assert (E : headers (send rt SPLIT_ONLY) = noCacheHeaders).
    { unfold webRoutes in Hin. cbn [In] in Hin.
      repeat (destruct Hin as [<- | Hin];
        [cbn; unfold archivedWhenSplitOnly; try destruct (splitOnly SPLIT_ONLY);
         reflexivity |]).
      contradiction. }
    rewrite E. split; [reflexivity | left; reflexivity].
  - intros piece rest H. unfold serve. rewrite (page_of_static _ _ _ H).
    unfold staticTries, mounts. cbn [flat_map below]. rewrite H.
    cbn [app]. eexists. reflexivity.
Qed.

Lemma servePage_same (rs : list webRoute) (e1 e2 : option string) (segments : list string) :
  Forall (fun rt => matches (webPattern rt) segments = true -> send rt e1 = send rt e2) rs ->
  servePage rs e1 segments = servePage rs e2 segments.
Proof.
  induction 1 as [| rt rs Hrt _ IH]; cbn; [reflexivity |].
  destruct (matches (webPattern rt) segments); [rewrite Hrt; reflexivity | exact IH].
Qed.

Lemma matches_apart (p q : list segment) (segs : list string) :
  compatible p q = false -> matches q segs = true -> matches p segs = false.
Proof.
  intros C Hq. destruct (matches p segs) eqn:Hp; [| reflexivity].
  rewrite (matches_compatible p q segs Hp Hq) in C. discriminate.
Qed.

(** When no two routes can take the same path, the route that takes a path
    sends the page. *)
Lemma servePage_apart (rs : list webRoute) (rt : webRoute) (env : option string)
    (segments : list string) :
  pagesApart rs = true -> In rt rs -> matches (webPattern rt) segments = true ->
  servePage rs env segments = Some (send rt env).
Proof.
  induction rs as [| x rs IH]; [contradiction |].
  cbn [pagesApart servePage]. rewrite andb_true_iff. intros [Hx Hrs] [-> | Hin] Ht.
  - rewrite Ht. reflexivity.
  - rewrite forallb_forall in Hx. specialize (Hx rt Hin).
    apply negb_true_iff in Hx.
    destruct (matches (webPattern x) segments) eqn:Tx; [exfalso | auto].
    rewrite (matches_compatible _ _ segments Ht Tx) in Hx. discriminate.
Qed.

Lemma webRoutes_apart : pagesApart webRoutes = true.
Proof. vm_compute. reflexivity. Qed.

(** X12. The switch changes two pages only, the list of the invoices to
    validate and the validation of one invoice, in whatever case their paths
    are written: with the switch on they are the archived notice, when the
    path holds no percent sign. What the router does with every other path
    is the same whatever SPLIT_ONLY is; the extraction results and the list
    of the invoices of a batch stay served. *)
Theorem switch_changes_validation_pages_only (e1 e2 : option string)
    (segments : list string) :
  (isValidationPage segments = false -> serve e1 segments = serve e2 segments) /\
  (isValidationPage segments = true -> plainPath segments = true ->
   serve e1 segments =
   Page (if splitOnly e1 then sendArchivedNotice
         else if matches (batch [Lit "validate-data"]) segments
              then sendHtmlNoCache "../public/html/batch-validation.html"
              else sendHtmlNoCache "../public/html/validate-data.html")) /\
  serve e1 ["extract-results"] = Page (sendHtmlNoCache "../public/html/extract-results.html") /\
  (forall batchId, batchId <> "" ->
     serve e1 ["invoices"; batchId] = Page (sendHtmlNoCache "../public/html/invoice-list.html")).
Proof.
  split; [| split; [| split; [reflexivity |]]].
  - intros Hv. unfold serve.
    assert (E : page_of e1 segments = page_of e2 segments).
    { apply servePage_same. unfold isValidationPage in Hv.
      apply orb_false_elim in Hv as [H1 H2].
      unfold webRoutes. repeat constructor; cbn [webPattern send]; try reflexivity.
      + intros H. rewrite H in H1. discriminate.
      + intros H. rewrite H in H2. discriminate. }
    rewrite E. reflexivity.
  - unfold isValidationPage, serve, page_of. intros H _.
    destruct (matches (batch [Lit "validate-data"]) segments) eqn:M.
    + rewrite (servePage_apart webRoutes
        {| webPattern := batch [Lit "validate-data"];
           send := archivedWhenSplitOnly "../public/html/batch-validation.html" |}
        e1 segments webRoutes_apart ltac:(cbn; tauto) M).
      cbn [send]. unfold archivedWhenSplitOnly.
      destruct (splitOnly e1); reflexivity.
    + cbn [orb] in H.
      rewrite (servePage_apart webRoutes
        {| webPattern := batch [Lit "invoices"; Param "invoiceIndex"; Lit "validate"];
           send := archivedWhenSplitOnly "../public/html/validate-data.html" |}
        e1 segments webRoutes_apart ltac:(cbn; tauto) H).
      cbn [send]. unfold archivedWhenSplitOnly.
      destruct (splitOnly e1); reflexivity.
  - intros batchId H. destruct batchId; [contradiction | reflexivity].
Qed.

Lemma switch_changes_validation_pages_only_witness :
  serve (Some "true") ["batches"; "b1"; "Validate-Data"] = Page sendArchivedNotice /\
  serve None ["batches"; "b1"; "Validate-Data"]
    = Page (sendHtmlNoCache "../public/html/batch-validation.html").
Proof.
  split.
  - apply (proj1 (proj2 (switch_changes_validation_pages_only
                           (Some "true") None ["batches"; "b1"; "Validate-Data"])));
      reflexivity.
  - apply (proj1 (proj2 (switch_changes_validation_pages_only
                           None None ["batches"; "b1"; "Validate-Data"])));
      reflexivity.
Defined.

End WebPages.

(** ** More on the table hints *)

Section MoreTableHints.
Import JS Hints Notions HintNotions.

Lemma filter_length_le {A} (p : A -> bool) (l : list A) :
  List.length (List.filter p l) <= List.length l.
Proof. induction l as [| x l IH]; cbn; [lia |]. destruct (p x); cbn; lia. Qed.

Lemma filter_length_mono {A} (p q : A -> bool) (l : list A) :
  (forall x, p x = true -> q x = true) ->
  List.length (List.filter p l) <= List.length (List.filter q l).
Proof.
  intros H. induction l as [| x l IH]; cbn; [lia |].
  destruct (p x) eqn:Ep.
  - rewrite (H x Ep). cbn. lia.
  - destruct (q x); cbn; lia.
Qed.

Lemma filter_length_orb {A} (p q : A -> bool) (l : list A) :
  List.length (List.filter (fun x => p x || q x) l)
  <= List.length (List.filter p l) + List.length (List.filter q l).
Proof.
  induction l as [| x l IH]; cbn; [lia |].
  destruct (p x), (q x); cbn; lia.
Qed.

Lemma filter_length_ext {A} (p q : A -> bool) (l : list A) :
  (forall x, p x = q x) ->
  List.length (List.filter p l) = List.length (List.filter q l).
Proof.
  intros H. induction l as [| x l IH]; cbn; [reflexivity |].
  rewrite H. destruct (q x); cbn; lia.
Qed.

Lemma groupMatches_app (hs hs' : list string) (group : list string) :
  groupMatches (app hs hs') group = groupMatches hs group || groupMatches hs' group.
Proof. unfold groupMatches. apply existsb_app. Qed.

Lemma existsb_perm {A} (p : A -> bool) (l l' : list A) :
  Permutation l l' -> existsb p l = existsb p l'.
Proof.
  induction 1 as [| x l l' _ IH | x y l | l l' l'' _ IH1 _ IH2]; cbn.
  - reflexivity.
  - rewrite IH. reflexivity.
  - destruct (p x), (p y); reflexivity.
  - congruence.
Qed.

(** X13. The score of a header row is at most 8, the number of keyword
    groups; it does not depend on the order of the headers, does not
    decrease when headers are added, and is at most the sum of the scores of
    two parts of the row. *)
Theorem scoreHeader_bounds (hs hs' : list string) :
  scoreHeader hs <= 8 /\
  scoreHeader hs <= scoreHeader (app hs hs') /\
  scoreHeader (app hs hs') <= scoreHeader hs + scoreHeader hs' /\
  (Permutation hs hs' -> scoreHeader hs = scoreHeader hs').
Proof.
  rewrite !scoreHeader_count. repeat split.
  - etransitivity; [apply filter_length_le | cbn; lia].
  - apply filter_length_mono. intros g Hg.
    rewrite map_app, groupMatches_app, Hg. reflexivity.
  - etransitivity; [| apply filter_length_orb].
    apply Nat.eq_le_incl, filter_length_ext. intros g.
    rewrite map_app. apply groupMatches_app.
  - intros Hp. apply filter_length_ext. intros g.
    unfold groupMatches. apply existsb_perm, Permutation_map, Hp.
Qed.

(** *** The normal form is a normal form *)

Lemma lowerChar_header (c : ascii) : isNormChar c = true -> lowerChar c = c.
Proof. destruct c as [[] [] [] [] [] [] [] []]; vm_compute; congruence. Qed.

Lemma toLowerCase_norm_chars (s : string) :
  forallChars isNormChar s = true -> toLowerCase s = s.
Proof.
  induction s as [| c s IH]; cbn; [reflexivity |].
  rewrite andb_true_iff. intros [Hc Hs].
  rewrite (lowerChar_header c Hc). unfold toLowerCase in IH. rewrite (IH Hs). reflexivity.
Qed.

Lemma tokens_word_then (w rest : string) :
  isWord w -> startsWithHeaderChar rest = false ->
  tokens (w ++ rest) = w :: tokens rest.
Proof.
  intros [Hne Hw] Hr. induction w as [| c w IH]; [discriminate |].
  cbn in Hw. apply andb_true_iff in Hw as [Hc Hw].
  rewrite append_String. cbn [tokens]. rewrite Hc.
  destruct w as [| d w'].
  - rewrite append_empty_l, Hr. reflexivity.
  - assert (Hs : startsWithHeaderChar (String d w' ++ rest) = true).
    { rewrite append_String. cbn. cbn in Hw. apply andb_true_iff in Hw. tauto. }
    rewrite Hs, (IH eq_refl Hw). reflexivity.
Qed.

Lemma tokens_join_words (ws : list string) :
  Forall isWord ws -> tokens (join " " ws) = ws.
Proof.
  induction 1 as [| w ws Hw Hws IH]; [reflexivity |].
  rewrite join_cons. destruct ws as [| w' ws'].
  - cbn [isNil]. rewrite (tokens_word_then w "" Hw eq_refl). reflexivity.
  - cbn [isNil]. rewrite append_String, append_empty_l.
    rewrite (tokens_word_then w (String " " (join " " (w' :: ws'))) Hw eq_refl).
    change (tokens (String " " (join " " (w' :: ws'))))
      with (tokens (join " " (w' :: ws'))).
    rewrite IH. reflexivity.
Qed.

Lemma forallChars_app (p : ascii -> bool) (a b : string) :
  forallChars p (a ++ b) = forallChars p a && forallChars p b.
Proof.
  induction a as [| c a IH]; [reflexivity |].
  rewrite append_String. cbn. rewrite IH, andb_assoc. reflexivity.
Qed.

Lemma join_words_chars (ws : list string) :
  Forall isWord ws -> forallChars isNormChar (join " " ws) = true.
Proof.
  assert (W : forall w, isWord w -> forallChars isNormChar w = true).
  { intros w [_ Hw]. induction w as [| c w IH]; [reflexivity |].
    cbn in *. apply andb_true_iff in Hw as [Hc Hw].
    unfold isNormChar at 1. rewrite Hc, (IH Hw). reflexivity. }
  induction 1 as [| w ws Hw Hws IH]; [reflexivity |].
  rewrite join_cons, forallChars_app, (W w Hw). destruct ws; [reflexivity |].
  cbn [isNil andb]. rewrite append_String, append_empty_l. cbn [forallChars].
  rewrite IH. reflexivity.
Qed.

Lemma norm_words (text : string) :
  exists ws, Forall isWord ws /\ norm text = join " " ws.
Proof.
  exists (tokens (toLowerCase text)). split; [apply tokens_words | apply norm_tokens].
Qed.

Lemma includes_two_spaces (c : ascii) (r : string) :
  includes (String c r) "  " =
  Ascii.eqb " " c && startsWith " " r || includes r "  ".
Proof. reflexivity. Qed.

Lemma header_not_blank (c : ascii) : isHeaderChar c = true -> Ascii.eqb " " c = false.
Proof. destruct c as [[] [] [] [] [] [] [] []]; vm_compute; congruence. Qed.

Lemma includes_word_then (w rest : string) :
  forallChars isHeaderChar w = true ->
  includes (w ++ rest) "  " = includes rest "  ".
Proof.
  induction w as [| c w IH]; [reflexivity |].
  cbn [forallChars]. rewrite andb_true_iff. intros [Hc Hw].
  rewrite append_String, includes_two_spaces, (header_not_blank c Hc), (IH Hw).
  reflexivity.
Qed.

Lemma join_words_single_spaces (ws : list string) :
  Forall isWord ws -> includes (join " " ws) "  " = false.
Proof.
  induction 1 as [| w ws Hw Hws IH]; [reflexivity |].
  rewrite join_cons, (includes_word_then w _ (proj2 Hw)).
  destruct ws as [| w' ws']; [reflexivity |].
  cbn [isNil]. rewrite append_String, append_empty_l, includes_two_spaces, IH.
  inversion Hws as [| ? ? [Hne' Hw'] _]; subst.
  rewrite join_cons. destruct w' as [| d w'']; [discriminate |].
  rewrite append_String. cbn [startsWith forallChars] in *.
  apply andb_true_iff in Hw' as [Hd _].
  rewrite (header_not_blank d Hd). reflexivity.
Qed.

(** X14. [norm] gives a normal form: normalising twice is normalising once,
    the result is made of the characters a-z, 0-9, % and spaces only, with
    no two spaces in a row, and the score of a header row is the score of
    its normalised headers. *)
Theorem norm_idempotent (text : string) (headers : list string) :
  norm (norm text) = norm text /\
  forallChars isNormChar (norm text) = true /\
  includes (norm text) "  " = false /\
  scoreHeader (map norm headers) = scoreHeader headers.
Proof.
  assert (I : forall t, norm (norm t) = norm t).
  { intros t. destruct (norm_words t) as (ws & Hws & E).
    rewrite E at 1. rewrite norm_tokens.
    rewrite (toLowerCase_norm_chars _ (join_words_chars ws Hws)).
    rewrite (tokens_join_words ws Hws). symmetry. exact E. }
  split; [apply I |]. split; [| split].
  - destruct (norm_words text) as (ws & Hws & ->). apply join_words_chars, Hws.
  - destruct (norm_words text) as (ws & Hws & ->). apply join_words_single_spaces, Hws.
  - unfold scoreHeader. rewrite map_map.
    rewrite (map_ext (fun x => norm (norm x)) norm I). reflexivity.
Qed.

End MoreTableHints.

(** ** The hints and the cells of the tables *)

Section HintsAndCells.
Import JS Hints Notions HintNotions.

Lemma filter_filter_same {A} (p : A -> bool) (l : list A) :
  List.filter p (List.filter p l) = List.filter p l.
Proof.
  induction l as [| x l IH]; cbn; [reflexivity |].
  destruct (p x) eqn:E; cbn; rewrite ?E, IH; reflexivity.
Qed.

Lemma existsb_filter_same {A} (p : A -> bool) (l : list A) :
  existsb p (List.filter p l) = existsb p l.
Proof.
  induction l as [| x l IH]; cbn; [reflexivity |].
  destruct (p x) eqn:E; cbn; rewrite ?E, ?IH; reflexivity.
Qed.

Lemma cellsOf_headerOnly (t : table) :
  cellsOf (headerOnly t) = List.filter isHeaderCell (cellsOf t).
Proof. unfold cellsOf, headerOnly. destruct (cells t); reflexivity. Qed.

Lemma hintsFrom_headerOnly (ts : list table) (idx : nat) :
  hintsFrom idx (map headerOnly ts) = hintsFrom idx ts.
Proof.
  revert idx. induction ts as [| t ts IH]; intros idx; cbn [map hintsFrom]; [reflexivity |].
  unfold hasHeaderRow, hintOf, headerCellsOf.
  rewrite cellsOf_headerOnly, existsb_filter_same, filter_filter_same, IH.
  reflexivity.
Qed.

(** X15. Only the cells of row 0 count: the hints and the glossary of a
    layout are those of the layout whose tables are cut down to their header
    cells. *)
Theorem body_rows_do_not_matter (l : layout) :
  deriveProductTableHints (headerOnlyLayout l) = deriveProductTableHints l.
Proof.
  rewrite !deriveProductTableHints_spec.
  assert (E : hintsFrom 0 (tablesOf (headerOnlyLayout l)) = hintsFrom 0 (tablesOf l)).
  { unfold tablesOf, headerOnlyLayout. cbn [tables].
    destruct (tables l) as [ts |]; cbn [option_map]; [apply hintsFrom_headerOnly | reflexivity]. }
  rewrite E. reflexivity.
Qed.

(** Two ascending lists with the same cells, no two in one column, are the
    same list. *)
Lemma ascending_unique (l1 l2 : list cell) :
  ascendingColumns l1 -> ascendingColumns l2 -> Permutation l1 l2 ->
  List.NoDup (map columnIndex l1) -> l1 = l2.
Proof.
  unfold ascendingColumns. revert l2.
  induction l1 as [| x l1 IH]; intros l2 S1 S2 P N.
  - apply Permutation_nil in P. congruence.
  - destruct l2 as [| y l2]; [apply Permutation_sym, Permutation_nil in P; discriminate |].
    inversion S1 as [| ? ? S1' F1]; subst. inversion S2 as [| ? ? S2' F2]; subst.
    assert (Exy : x = y).
    { assert (Hx : In x (y :: l2)) by (eapply Permutation_in; [exact P | left; reflexivity]).
      assert (Hy : In y (x :: l1))
        by (eapply Permutation_in; [symmetry; exact P | left; reflexivity]).
      destruct Hx as [-> | Hx]; [reflexivity |].
      destruct Hy as [-> | Hy]; [reflexivity |].
      rewrite List.Forall_forall in F1, F2.
      pose proof (F1 y Hy) as A1. pose proof (F2 x Hx) as A2.
      assert (Ek : columnIndex x = columnIndex y) by lia.
      inversion N as [| ? ? Hnin _]; subst. exfalso. apply Hnin.
      rewrite Ek. apply in_map. exact Hy. }
    subst y. f_equal. apply IH; auto.
    + eapply Permutation_cons_inv. exact P.
    + inversion N; assumption.
Qed.

Lemma sort_of_permutation (l1 l2 : list cell) :
  Permutation l1 l2 -> List.NoDup (map columnIndex l1) ->
  sort byColumn l1 = sort byColumn l2.
Proof.
  intros P N. apply ascending_unique.
  - apply sort_ascending.
  - apply sort_ascending.
  - rewrite !sort_perm. exact P.
  - eapply Permutation_NoDup; [| exact N].
    apply Permutation_map. symmetry. apply sort_perm.
Qed.

Lemma filter_perm {A} (p : A -> bool) (l l' : list A) :
  Permutation l l' -> Permutation (List.filter p l) (List.filter p l').
Proof.
  induction 1 as [| x l l' _ IH | x y l | l l' l'' _ IH1 _ IH2]; cbn.
  - reflexivity.
  - destruct (p x); [constructor |]; exact IH.
  - destruct (p x), (p y); try reflexivity. apply perm_swap.
  - etransitivity; eassumption.
Qed.

(** X16. The order in which a table lists its cells does not matter when no
    two of its header cells are in one column: two tables with the same
    cells in another order get the same hint. *)
Theorem cell_order_does_not_matter (t t' : table) (idx : nat) :
  Permutation (cellsOf t) (cellsOf t') ->
  List.NoDup (headerColumns t) ->
  hasHeaderRow t = hasHeaderRow t' /\ hintOf idx t = hintOf idx t'.
Proof.
  intros P N. split.
  - unfold hasHeaderRow. apply existsb_perm, P.
  - unfold hintOf, headerCellsOf.
    rewrite (sort_of_permutation _ _ (filter_perm isHeaderCell _ _ P) N). reflexivity.
Qed.

Lemma cell_order_does_not_matter_witness :
  hasHeaderRow {| cells := Some [ {| rowIndex := 0; columnIndex := 1; content := Some "Qty" |};
                                  {| rowIndex := 0; columnIndex := 0; content := Some "Item" |} ] |}
  = hasHeaderRow {| cells := Some [ {| rowIndex := 0; columnIndex := 0; content := Some "Item" |};
                                    {| rowIndex := 0; columnIndex := 1; content := Some "Qty" |} ] |}
  /\
  hintOf 0 {| cells := Some [ {| rowIndex := 0; columnIndex := 1; content := Some "Qty" |};
                              {| rowIndex := 0; columnIndex := 0; content := Some "Item" |} ] |}
  = hintOf 0 {| cells := Some [ {| rowIndex := 0; columnIndex := 0; content := Some "Item" |};
                                {| rowIndex := 0; columnIndex := 1; content := Some "Qty" |} ] |}.
Proof.
  apply cell_order_does_not_matter.
  - apply perm_swap.
  - cbn. repeat constructor; cbn; intuition discriminate.
Defined.

(** With two header cells in one column the order shows: the sort keeps
    them as the table lists them. *)
Example cell_order_matters_in_one_column :
  headers (hintOf 0 {| cells := Some
     [ {| rowIndex := 0; columnIndex := 0; content := Some "a" |};
       {| rowIndex := 0; columnIndex := 0; content := Some "b" |} ] |}) = ["a"; "b"] /\
  headers (hintOf 0 {| cells := Some
     [ {| rowIndex := 0; columnIndex := 0; content := Some "b" |};
       {| rowIndex := 0; columnIndex := 0; content := Some "a" |} ] |}) = ["b"; "a"].
Proof. split; reflexivity. Qed.

Lemma increasing_NoDup (l : list nat) : StronglySorted lt l -> List.NoDup l.
Proof.
  induction 1 as [| x l _ IH F]; constructor; [| exact IH].
  intros Hin. rewrite List.Forall_forall in F. specialize (F x Hin). lia.
Qed.

Lemma NoDup_map_eq {A B} (f : A -> B) (l : list A) (a b : A) :
  List.NoDup (map f l) -> In a l -> In b l -> f a = f b -> a = b.
Proof.
  induction l as [| x l IH]; [contradiction |].
  cbn [map]. intros N. inversion N as [| ? ? Hx Hl]; subst.
  intros [-> | Ha] [-> | Hb] E; auto.
  - exfalso. apply Hx. rewrite E. apply in_map. exact Hb.
  - exfalso. apply Hx. rewrite <- E. apply in_map. exact Ha.
Qed.

(** X17. There is at most one hint per table: no two hints have the same
    table index, so that there are at most as many hints as tables; the
    index of a hint is below the number of tables; a hint has one header for
    every header cell of its table, at least one, none being dropped or
    merged; there is no hint at all exactly when no table has a header row,
    and the glossary is then empty. *)
Theorem hints_follow_the_tables (l : layout) :
  List.NoDup (map tableIndex (hints (deriveProductTableHints l))) /\
  (forall h1 h2, In h1 (hints (deriveProductTableHints l)) ->
     In h2 (hints (deriveProductTableHints l)) ->
     tableIndex h1 = tableIndex h2 -> h1 = h2) /\
  List.length (hints (deriveProductTableHints l)) <= List.length (tablesOf l) /\
  (forall h, In h (hints (deriveProductTableHints l)) ->
     tableIndex h < List.length (tablesOf l) /\
     1 <= List.length (headers h) /\
     exists t, tablesOf l !! tableIndex h = Some t /\
               List.length (headers h) = headerCount t) /\
  (hints (deriveProductTableHints l) = [] <->
   Forall (fun t => hasHeaderRow t = false) (tablesOf l)) /\
  (hints (deriveProductTableHints l) = [] -> glossary (deriveProductTableHints l) = "").
Proof.
  rewrite deriveProductTableHints_spec. cbn [hints glossary].
  pose proof (increasing_NoDup _ (hintsFrom_increasing (tablesOf l) 0)) as N.
  split; [exact N |].
  split; [intros h1 h2 H1 H2 E; exact (NoDup_map_eq tableIndex _ h1 h2 N H1 H2 E) |].
  clear N.
  split; [rewrite hintsFrom_length; apply filter_length_le |].
  split; [| split].
  - intros h Hh. apply hintsFrom_In in Hh as (i & t & Hi & Ht & ->). cbn.
    assert (L : List.length (map contentOrEmpty (headerCellsOf t)) = headerCount t).
    { rewrite length_map. unfold headerCellsOf, headerCount.
      apply Permutation_length, sort_perm. }
    split; [apply lookup_lt_Some in Hi; exact Hi |].
    split; [| exists t; auto].
    rewrite L. unfold headerCount, hasHeaderRow in *.
    pose proof (filter_length_0 isHeaderCell (cellsOf t)) as Z. rewrite Ht in Z.
    destruct (List.length (List.filter isHeaderCell (cellsOf t))); [discriminate | lia].
  - generalize 0. induction (tablesOf l) as [| t ts IH]; intros idx; cbn [hintsFrom].
    + split; constructor.
    + destruct (hasHeaderRow t) eqn:Et.
      * split; [discriminate | intros H; inversion H; congruence].
      * rewrite IH. split; [constructor; auto | intros H; inversion H; auto].
  - intros ->. reflexivity.
Qed.

End HintsAndCells.

(** ** The keywords *)

Section Keywords.
Import JS Hints Notions HintNotions.

Lemma append_assoc' (a b c : string) : (a ++ b) ++ c = a ++ b ++ c.
Proof.
  induction a as [| x a IH]; [reflexivity |].
  rewrite !append_String, IH. reflexivity.
Qed.

Lemma startsWith_spec (p s : string) :
  startsWith p s = true <-> exists r, s = p ++ r.
Proof.
  revert s. induction p as [| a p IH]; intros s.
  - split; [intros _; exists s; reflexivity | intros _; destruct s; reflexivity].
  - destruct s as [| b s]; cbn [startsWith].
    + split; [discriminate | intros (r & H); discriminate].
    + rewrite andb_true_iff, Ascii.eqb_eq, IH. split.
      * intros [-> (r & ->)]. exists r. reflexivity.
      * intros (r & H). rewrite append_String in H. injection H as -> ->. eauto.
Qed.

Lemma includes_spec (h g : string) :
  includes h g = true <-> exists a b, h = a ++ g ++ b.
Proof.
  induction h as [| c h IH].
  - cbn [includes]. rewrite orb_false_r, startsWith_spec. split.
    + intros (r & H). exists "", r. exact H.
    + intros (a & b & H). destruct a; [exists b; exact H | discriminate].
  - cbn [includes]. rewrite orb_true_iff, startsWith_spec, IH. split.
    + intros [(r & H) | (a & b & H)].
      * exists "", r. exact H.
      * exists (String c a), b. rewrite H. reflexivity.
    + intros (a & b & H). destruct a as [| x a].
      * left. exists b. exact H.
      * right. rewrite append_String in H. injection H as -> ->. eauto.
Qed.

(** A text that includes a string includes what that string includes. *)
Lemma includes_trans (h g g' : string) :
  includes h g = true -> includes g g' = true -> includes h g' = true.
Proof.
  rewrite !includes_spec. intros (a & b & ->) (c & d & ->).
  exists (a ++ c), (d ++ b). rewrite !append_assoc'. reflexivity.
Qed.

Lemma groupMatches_ext (hNorm : list string) (group group' : list string) :
  (forall h, existsb (fun g => includes h g) group = existsb (fun g => includes h g) group') ->
  groupMatches hNorm group = groupMatches hNorm group'.
Proof.
  intros H. unfold groupMatches. induction hNorm as [| h hs IH]; cbn; [reflexivity |].
  rewrite H, IH. reflexivity.
Qed.

Ltac drop_keyword h long short :=
  cbn [existsb];
  destruct (includes h long) eqn:E;
    [rewrite (includes_trans h long short E eq_refl)
    | destruct (includes h short)];
  reflexivity.

Lemma description_redundant (hNorm : list string) :
  groupMatches hNorm ["desc"; "description"; "details"; "service"; "charge"] =
  groupMatches hNorm ["desc"; "details"; "service"; "charge"].
Proof. apply groupMatches_ext. intros h. drop_keyword h "description" "desc". Qed.

Lemma unit_price_redundant (hNorm : list string) :
  groupMatches hNorm ["price"; "unit price"; "unit"; "rate"; "cost"] =
  groupMatches hNorm ["price"; "unit"; "rate"; "cost"].
Proof. apply groupMatches_ext. intros h. drop_keyword h "unit price" "price". Qed.

Lemma subtotal_redundant (hNorm : list string) :
  groupMatches hNorm ["amount"; "total"; "sum"; "subtotal"; "value"; "fee"] =
  groupMatches hNorm ["amount"; "total"; "sum"; "value"; "fee"].
Proof.
  apply groupMatches_ext. intros h. cbn [existsb].
  destruct (includes h "subtotal") eqn:E.
  - rewrite (includes_trans h "subtotal" "total" E eq_refl).
    destruct (includes h "amount"); reflexivity.
  - destruct (includes h "amount"), (includes h "total"), (includes h "sum"); reflexivity.
Qed.

Lemma groupMatches_keyword (h : string) (hs : list string) (k : string)
    (group : list string) :
  includes h k = true -> In k group -> groupMatches (h :: hs) group = true.
Proof.
  intros Hk Hin. unfold groupMatches. cbn [existsb].
  assert (E : existsb (fun g => includes h g) group = true).
  { apply existsb_exists. exists k. auto. }
  rewrite E. reflexivity.
Qed.

(** X18. Three keywords never change a score, each containing a keyword of
    its own group: description (desc), unit price (price), subtotal (total);
    the score is the same without them. A header that contains units counts
    twice, for the quantity and, through unit, for the unit price. *)
Theorem redundant_keywords (headers : list string) (h : string) :
  scoreHeader headers = scoreWith REDUCED_PATTERNS headers /\
  (includes (norm h) "units" = true -> 2 <= scoreHeader (h :: headers)).
Proof.
  rewrite !scoreHeader_count. unfold scoreWith, HEADER_PATTERNS, REDUCED_PATTERNS.
  split.
  - cbn [List.filter].
    rewrite description_redundant, unit_price_redundant, subtotal_redundant.
    repeat match goal with
           | |- context [if ?b then _ else _] => destruct b
           end; reflexivity.
  - intros Hu. cbn [List.filter map].
    rewrite (groupMatches_keyword (norm h) (map norm headers) "units"
               ["qty"; "quantity"; "qte"; "units"] Hu)
      by (cbn; tauto).
    rewrite (groupMatches_keyword (norm h) (map norm headers) "unit"
               ["price"; "unit price"; "unit"; "rate"; "cost"]
               (includes_trans _ "units" "unit" Hu eq_refl))
      by (cbn; tauto).
    repeat match goal with
           | |- context [if ?b then _ else _] => destruct b
           end; cbn [List.length]; lia.
Qed.

End Keywords.

(** ** More on numberLike *)

Section MoreNumbers.
Import JS Schema Notions NumberNotions.

Variable zod : release.

Lemma removeWhiteSpace_trimStart (s : string) :
  removeWhiteSpace (trimStart s) = removeWhiteSpace s.
Proof.
  induction s as [| c r IH]; [reflexivity |].
  cbn [trimStart]. destruct (isWhiteSpace c) eqn:E; [| reflexivity].
  rewrite IH. unfold removeWhiteSpace. cbn [filterChars]. rewrite E. reflexivity.
Qed.

Lemma removeWhiteSpace_trimEnd (s : string) :
  removeWhiteSpace (trimEnd s) = removeWhiteSpace s.
Proof.
  unfold removeWhiteSpace. induction s as [| c r IH]; [reflexivity |].
  cbn [trimEnd filterChars]. destruct (isWhiteSpace c) eqn:E; cbn [negb andb].
  - destruct (isEmpty (trimEnd r)) eqn:Ee.
    + rewrite <- IH. destruct (trimEnd r); [reflexivity | discriminate].
    + cbn [filterChars]. rewrite E. exact IH.
  - cbn [filterChars]. rewrite E, IH. reflexivity.
Qed.

Lemma removeWhiteSpace_trim (s : string) :
  removeWhiteSpace (trim s) = removeWhiteSpace s.
Proof. unfold trim. rewrite removeWhiteSpace_trimEnd. apply removeWhiteSpace_trimStart. Qed.

Lemma isEmpty_trimEnd (s : string) :
  isEmpty (trimEnd s) = isEmpty (removeWhiteSpace s).
Proof.
  unfold removeWhiteSpace. induction s as [| c r IH]; [reflexivity |].
  cbn [trimEnd filterChars]. destruct (isWhiteSpace c) eqn:E; cbn [negb andb].
  - destruct (isEmpty (trimEnd r)) eqn:Ee; [rewrite <- IH; reflexivity |].
    rewrite <- IH. reflexivity.
  - reflexivity.
Qed.

Lemma isEmpty_trim (s : string) : isEmpty (trim s) = isEmpty (removeWhiteSpace s).
Proof.
  unfold trim. rewrite isEmpty_trimEnd, removeWhiteSpace_trimStart. reflexivity.
Qed.

Lemma removeWhiteSpace_clean (s : string) : noWhiteSpace (removeWhiteSpace s) = true.
Proof.
  unfold noWhiteSpace, removeWhiteSpace. induction s as [| c r IH]; [reflexivity |].
  cbn [filterChars]. destruct (isWhiteSpace c) eqn:E; cbn; rewrite ?E; exact IH.
Qed.

Lemma removeWhiteSpace_id (s : string) : noWhiteSpace s = true -> removeWhiteSpace s = s.
Proof.
  unfold noWhiteSpace, removeWhiteSpace. induction s as [| c r IH]; [reflexivity |].
  cbn. rewrite andb_true_iff. intros [Hc Hr]. rewrite Hc, (IH Hr). reflexivity.
Qed.

Lemma trim_id (s : string) : noWhiteSpace s = true -> trim s = s.
Proof.
  unfold noWhiteSpace, trim. intros H.
  assert (S : trimStart s = s).
  { destruct s as [| c r]; [reflexivity |]. cbn in *.
    apply andb_true_iff in H as [Hc _]. apply negb_true_iff in Hc. rewrite Hc. reflexivity. }
  rewrite S. clear S. induction s as [| c r IH]; [reflexivity |].
  cbn in *. apply andb_true_iff in H as [Hc Hr]. apply negb_true_iff in Hc.
  rewrite Hc, (IH Hr). reflexivity.
Qed.

Lemma normalized_removeWhiteSpace (s : string) :
  normalized (trim s) = normalized (trim (removeWhiteSpace s)).
Proof.
  rewrite (trim_id _ (removeWhiteSpace_clean s)). unfold normalized.
  rewrite removeWhiteSpace_trim, (removeWhiteSpace_id _ (removeWhiteSpace_clean s)).
  reflexivity.
Qed.

(** X19. White space does not count in a numeric string, wherever it is:
    the string is read as the string without its white space. *)
Theorem numberLike_ignores_white_space (s : string) :
  numberLike zod (VString s) = numberLike zod (VString (removeWhiteSpace s)).
Proof.
  rewrite !numberLike_string, <- normalized_removeWhiteSpace.
  rewrite (isEmpty_trim (removeWhiteSpace s)), isEmpty_trim.
  rewrite (removeWhiteSpace_id _ (removeWhiteSpace_clean s)). reflexivity.
Qed.

Lemma digit_facts (c : ascii) :
  isDigit c = true ->
  isWhiteSpace c = false /\ Ascii.eqb c "," = false /\ Ascii.eqb c "." = false.
Proof. destruct c as [[] [] [] [] [] [] [] []]; vm_compute; intuition congruence. Qed.

Lemma digits_clean (a : string) :
  isDigits a = true ->
  noWhiteSpace a = true /\ avoids "," a = true /\ avoids "." a = true.
Proof.
  unfold isDigits, noWhiteSpace, avoids. induction a as [| c a IH]; [auto |].
  cbn. rewrite andb_true_iff. intros [Hc Ha].
  destruct (digit_facts c Hc) as (H1 & H2 & H3), (IH Ha) as (I1 & I2 & I3).
  rewrite H1, H2, H3, I1, I2, I3. auto.
Qed.

Lemma dropThousands_keep (sep : ascii) (a r : string) :
  avoids sep a = true -> dropThousands sep (a ++ r) = a ++ dropThousands sep r.
Proof.
  unfold avoids. induction a as [| c a IH]; [reflexivity |].
  cbn [forallChars]. rewrite andb_true_iff, negb_true_iff. intros [Hc Ha].
  rewrite !append_String. cbn [dropThousands]. rewrite Hc, (IH Ha). reflexivity.
Qed.

Lemma dropThousands_id (sep : ascii) (a : string) :
  avoids sep a = true -> dropThousands sep a = a.
Proof.
  intros H. rewrite <- (append_empty_r a) at 1.
  rewrite (dropThousands_keep sep a "" H). apply append_empty_r.
Qed.

Lemma decimalComma_keep (a r : string) :
  avoids "," a = true -> decimalComma (a ++ r) = a ++ decimalComma r.
Proof.
  unfold avoids. induction a as [| c a IH]; [reflexivity |].
  cbn [forallChars]. rewrite andb_true_iff, negb_true_iff. intros [Hc Ha].
  rewrite !append_String. cbn [decimalComma]. rewrite Hc, (IH Ha). reflexivity.
Qed.

Lemma decimalComma_id (a : string) : avoids "," a = true -> decimalComma a = a.
Proof.
  intros H. rewrite <- (append_empty_r a) at 1.
  rewrite (decimalComma_keep a "" H). apply append_empty_r.
Qed.

Lemma forallChars_append (p : ascii -> bool) (a b : string) :
  forallChars p (a ++ b) = forallChars p a && forallChars p b.
Proof.
  induction a as [| c a IH]; [reflexivity |].
  rewrite append_String. cbn. rewrite IH, andb_assoc. reflexivity.
Qed.

Lemma normalized_clean (s : string) :
  noWhiteSpace s = true ->
  normalized (trim s) = decimalComma (dropThousands "." (dropThousands "," s)).
Proof.
  intros H. rewrite (trim_id s H). unfold normalized.
  rewrite (removeWhiteSpace_id s H). reflexivity.
Qed.

Lemma three_digits (b : string) :
  isDigits b = true -> String.length b = 3 -> threeDigitsThenNoDigit b = true.
Proof.
  destruct b as [| x [| y [| z [| w b]]]]; try discriminate.
  unfold isDigits. cbn. intros H _. rewrite !andb_true_iff in H.
  destruct H as (Hx & Hy & Hz & _). rewrite Hx, Hy, Hz. reflexivity.
Qed.

Lemma dropThousands_separator (sep : ascii) (b : string) :
  threeDigitsThenNoDigit b = true ->
  dropThousands sep (String sep b) = dropThousands sep b.
Proof. intros H. cbn [dropThousands]. rewrite Ascii.eqb_refl, H. reflexivity. Qed.

Lemma isEmpty_append (a b : string) : isEmpty (a ++ b) = isEmpty a && isEmpty b.
Proof. destruct a; [reflexivity |]. rewrite append_String. reflexivity. Qed.

Lemma numberLike_of_normalized (s t : string) :
  noWhiteSpace s = true -> noWhiteSpace t = true ->
  isEmpty s = false -> isEmpty t = false ->
  decimalComma (dropThousands "." (dropThousands "," s)) =
  decimalComma (dropThousands "." (dropThousands "," t)) ->
  numberLike zod (VString s) = numberLike zod (VString t).
Proof.
  intros Hs Ht Es Et E. rewrite !numberLike_string.
  rewrite (normalized_clean s Hs), (normalized_clean t Ht), E.
  rewrite (trim_id s Hs), (trim_id t Ht), Es, Et. reflexivity.
Qed.

(** X20. A comma or a period in front of exactly three final digits is
    taken for a thousands separator and dropped: with digits before it, the
    string reads as the digits without it, so that 12.345 is read as
    12345. *)
Theorem three_digits_after_a_separator (a b : string) :
  isDigits a = true -> isDigits b = true -> String.length b = 3 ->
  numberLike zod (VString (a ++ "," ++ b)) = numberLike zod (VString (a ++ b)) /\
  numberLike zod (VString (a ++ "." ++ b)) = numberLike zod (VString (a ++ b)).
Proof.
  intros Ha Hb Hl.
  destruct (digits_clean a Ha) as (Wa & Ca & Pa), (digits_clean b Hb) as (Wb & Cb & Pb).
  assert (Eb : isEmpty b = false) by (destruct b; [discriminate | reflexivity]).
  assert (Wab : noWhiteSpace (a ++ b) = true).
  { unfold noWhiteSpace in *. rewrite forallChars_append, Wa, Wb. reflexivity. }
  assert (Eab : isEmpty (a ++ b) = false).
  { rewrite isEmpty_append, Eb. apply andb_false_r. }
  assert (Cab : avoids "," (a ++ b) = true).
  { unfold avoids in *. rewrite forallChars_append, Ca, Cb. reflexivity. }
  assert (Pab : avoids "." (a ++ b) = true).
  { unfold avoids in *. rewrite forallChars_append, Pa, Pb. reflexivity. }
  assert (R : decimalComma (dropThousands "." (dropThousands "," (a ++ b))) = a ++ b).
  { rewrite (dropThousands_id "," _ Cab), (dropThousands_id "." _ Pab).
    apply decimalComma_id, Cab. }
  split; apply numberLike_of_normalized; auto.
  - unfold noWhiteSpace in *. rewrite forallChars_append, Wa.
    rewrite append_String, append_empty_l. cbn [forallChars andb].
    rewrite Wb. reflexivity.
  - rewrite isEmpty_append. apply andb_false_r.
  - rewrite R, (dropThousands_keep "," a _ Ca).
    rewrite append_String, append_empty_l.
    rewrite (dropThousands_separator "," b (three_digits b Hb Hl)).
    rewrite (dropThousands_id "," b Cb), (dropThousands_id "." _ Pab).
    apply decimalComma_id, Cab.
  - unfold noWhiteSpace in *. rewrite forallChars_append, Wa.
    rewrite append_String, append_empty_l. cbn [forallChars andb].
    rewrite Wb. reflexivity.
  - rewrite isEmpty_append. apply andb_false_r.
  - rewrite R.
    assert (C' : avoids "," (a ++ "." ++ b) = true).
    { unfold avoids in *. rewrite forallChars_append, Ca.
      rewrite append_String, append_empty_l. cbn [forallChars andb]. exact Cb. }
    rewrite (dropThousands_id "," _ C'), (dropThousands_keep "." a _ Pa).
    rewrite append_String, append_empty_l.
    rewrite (dropThousands_separator "." b (three_digits b Hb Hl)).
    rewrite (dropThousands_id "." b Pb). apply decimalComma_id, Cab.
Qed.

Lemma dropThousands_kept (sep : ascii) (b : string) :
  threeDigitsThenNoDigit b = false ->
  dropThousands sep (String sep b) = String sep (dropThousands sep b).
Proof. intros H. cbn [dropThousands]. rewrite H, andb_false_r. reflexivity. Qed.

Lemma short_digits (b : string) :
  isDigits b = true -> 1 <= String.length b <= 2 ->
  threeDigitsThenNoDigit b = false /\ oneOrTwoDigitsThenEnd b = true.
Proof.
  destruct b as [| x [| y [| z b]]]; cbn; try lia; unfold isDigits; cbn;
    rewrite ?andb_true_r; intros H _; [rewrite H; auto |].
  apply andb_true_iff in H as [Hx Hy]. rewrite Hx, Hy. auto.
Qed.

Lemma avoids_append (sep : ascii) (a b : string) :
  avoids sep (a ++ b) = avoids sep a && avoids sep b.
Proof. apply forallChars_append. Qed.

(** X21. A comma in front of one or two final digits is a decimal comma:
    with digits before it, the string reads as the same string with a
    period, so that 12,5 is read as 12.5. *)
Theorem decimal_comma (a b : string) :
  isDigits a = true -> isDigits b = true -> 1 <= String.length b <= 2 ->
  numberLike zod (VString (a ++ "," ++ b)) = numberLike zod (VString (a ++ "." ++ b)).
Proof.
  intros Ha Hb Hl.
  destruct (digits_clean a Ha) as (Wa & Ca & Pa), (digits_clean b Hb) as (Wb & Cb & Pb).
  destruct (short_digits b Hb Hl) as [T O].
  rewrite !append_String, !append_empty_l in *.
  assert (W : forall c, isWhiteSpace c = false -> noWhiteSpace (a ++ String c b) = true).
  { intros c Hc. unfold noWhiteSpace in *. rewrite forallChars_append, Wa.
    cbn [forallChars andb]. rewrite Hc, Wb. reflexivity. }
  apply numberLike_of_normalized.
  - apply W. reflexivity.
  - apply W. reflexivity.
  - rewrite isEmpty_append. apply andb_false_r.
  - rewrite isEmpty_append. apply andb_false_r.
  - rewrite (dropThousands_keep "," a _ Ca), (dropThousands_kept "," b T).
    rewrite (dropThousands_id "," b Cb).
    assert (P1 : avoids "." (a ++ String "," b) = true).
    { rewrite avoids_append, Pa. unfold avoids in *. cbn [forallChars andb]. exact Pb. }
    rewrite (dropThousands_id "." _ P1), (decimalComma_keep a _ Ca).
    cbn [decimalComma]. rewrite O. cbn [Ascii.eqb andb].
    assert (C2 : avoids "," (a ++ String "." b) = true).
    { rewrite avoids_append, Ca. unfold avoids in *. cbn [forallChars andb]. exact Cb. }
    rewrite (dropThousands_id "," _ C2), (dropThousands_keep "." a _ Pa).
    rewrite (dropThousands_kept "." b T), (dropThousands_id "." b Pb).
    rewrite (decimalComma_id _ C2). reflexivity.
Qed.

(** *** Strings of digits *)

Lemma digit_literal_facts (c : ascii) :
  isDigit c = true ->
  Ascii.eqb c "x" || Ascii.eqb c "X" = false /\
  Ascii.eqb c "o" || Ascii.eqb c "O" = false /\
  Ascii.eqb c "b" || Ascii.eqb c "B" = false /\
  Ascii.eqb c "I" = false /\
  (forall r, splitSign (String c r) = (false, String c r)).
Proof.
  destruct c as [[] [] [] [] [] [] [] []]; vm_compute; intuition congruence.
Qed.

Lemma spanDigits_digits (d : string) : isDigits d = true -> spanDigits d = (d, "").
Proof.
  unfold isDigits. induction d as [| c d IH]; [reflexivity |].
  cbn. rewrite andb_true_iff. intros [Hc Hd]. rewrite Hc, (IH Hd). reflexivity.
Qed.

Lemma radixPrefix_digits (d : string) : isDigits d = true -> radixPrefix d = None.
Proof.
  unfold isDigits. destruct d as [| c [| c' d]]; cbn [forallChars].
  - reflexivity.
  - intros _. destruct c as [[] [] [] [] [] [] [] []]; reflexivity.
  - rewrite !andb_true_iff. intros (_ & Hc' & _).
    destruct (digit_literal_facts c' Hc') as (X & O & B & _).
    unfold radixPrefix.
    destruct c as [[] [] [] [] [] [] [] []]; try reflexivity.
    rewrite X, O, B. reflexivity.
Qed.

Lemma Number_digits (d : string) :
  isDigits d = true -> isEmpty d = false ->
  Number d = roundDecimal (digitsValue 10 d) 0.
Proof.
  intros Hd He. destruct (digits_clean d Hd) as (W & _ & _).
  unfold Number. rewrite (trim_id d W), He.
  unfold parseNumericLiteral. rewrite (radixPrefix_digits d Hd).
  destruct d as [| c r]; [discriminate |].
  assert (Hc : isDigit c = true).
  { unfold isDigits in Hd. cbn in Hd. apply andb_true_iff in Hd. tauto. }
  destruct (digit_literal_facts c Hc) as (_ & _ & _ & I & S).
  rewrite S. cbn [String.eqb]. rewrite I.
  unfold parseUnsignedDecimal. rewrite (spanDigits_digits _ Hd).
  cbn [isEmpty parseExponentPart literalValue withSign]. reflexivity.
Qed.

Lemma numberLike_digits (d : string) :
  isDigits d = true -> isEmpty d = false ->
  numberLike zod (VString d) =
  Valid (if isFinite (roundDecimal (digitsValue 10 d) 0)
         then Some (roundDecimal (digitsValue 10 d) 0) else None).
Proof.
  intros Hd He. destruct (digits_clean d Hd) as (W & C & P).
  rewrite numberLike_string, (normalized_clean d W).
  rewrite (dropThousands_id "," d C), (dropThousands_id "." d P), (decimalComma_id d C).
  rewrite (trim_id d W), He, (Number_digits d Hd He). reflexivity.
Qed.

(** X22. A string of digits reads as the binary64 value nearest to the
    integer it writes, and is absent only when that value is infinite;
    zeros in front do not count, so that a code such as 01234 handed to a
    numeric field comes out as the number 1234. *)
Theorem digits_read_as_integer (d : string) :
  isDigits d = true -> isEmpty d = false ->
  numberLike zod (VString d) =
    Valid (if isFinite (roundDecimal (digitsValue 10 d) 0)
           then Some (roundDecimal (digitsValue 10 d) 0) else None) /\
  numberLike zod (VString ("0" ++ d)) = numberLike zod (VString d).
Proof.
  intros Hd He. split; [apply numberLike_digits; assumption |].
  rewrite (numberLike_digits d Hd He).
  rewrite append_String, append_empty_l.
  rewrite (numberLike_digits (String "0" d)).
  - reflexivity.
  - unfold isDigits in *. cbn [forallChars]. rewrite Hd. reflexivity.
  - reflexivity.
Qed.

End MoreNumbers.

(** ** More on the numbers, on examples *)

Section MoreNumbersInstances.
Import JS Schema Notions NumberNotions.

Lemma three_digits_after_a_separator_witness :
  numberLike Zod3 (VString ("12" ++ "," ++ "345")) = numberLike Zod3 (VString ("12" ++ "345")) /\
  numberLike Zod3 (VString ("12" ++ "." ++ "345")) = numberLike Zod3 (VString ("12" ++ "345")).
Proof. apply (three_digits_after_a_separator Zod3 "12" "345"); reflexivity. Defined.

Lemma decimal_comma_witness :
  numberLike Zod3 (VString ("12" ++ "," ++ "5")) = numberLike Zod3 (VString ("12" ++ "." ++ "5")).
Proof. apply (decimal_comma Zod3 "12" "5"); [reflexivity | reflexivity | cbn; lia]. Defined.

Lemma digits_read_as_integer_witness :
  numberLike Zod3 (VString "1234") =
    Valid (if isFinite (roundDecimal (digitsValue 10 "1234") 0)
           then Some (roundDecimal (digitsValue 10 "1234") 0) else None) /\
  numberLike Zod3 (VString ("0" ++ "1234")) = numberLike Zod3 (VString "1234").
Proof. apply (digits_read_as_integer Zod3 "1234"); reflexivity. Defined.

End MoreNumbersInstances.

(** ** The numeric coercion against its wording *)

Section NumberWording.
Import JS Schema Notions NumberNotions.

Variable zod : release.






(** *** The trailing comma *)

















(** What the steps are for: white space inside the string, a separator in
    front of four digits, and a comma that is not the last but two. *)
Example numberLike_steps :
  numberLike zod (VString " 1 234,5 ") = numberLike zod (VString "1234.5") /\
  numberLike zod (VString "1,2345") = Valid None /\
  numberLike zod (VString "1,5e1") = Valid None /\
  numberLike zod (VString "1,234,567.5") = numberLike zod (VString "1234567.5").
Proof. repeat split; vm_compute; reflexivity. Qed.

End NumberWording.

(** ** More on the line items *)

Section MoreLineItems.
Import JS Schema Notions NumberNotions.

Variable zod : release.

Lemma field_insert_other {A} (key k : string) (schema : value -> parsed A)
    (v : value) (o : gmap string value) :
  key <> k -> field key schema (<[k := v]> o) = field key schema o.
Proof. intros H. apply field_agree. apply lookup_insert_ne. congruence. Qed.

Lemma field_delete_other {A} (key k : string) (schema : value -> parsed A)
    (o : gmap string value) :
  key <> k -> field key schema (delete k o) = field key schema o.
Proof. intros H. apply field_agree. apply lookup_delete_ne. congruence. Qed.

(** X23. Keys outside the shape of a line item do not count: adding,
    changing or removing one changes neither the validity nor the output. *)
Theorem lineItem_ignores_other_keys (o : gmap string value) (k : string) (v : value) :
  ~ In k lineItemKeys ->
  lineItemSchema zod (<[k := v]> o) = lineItemSchema zod o /\
  lineItemSchema zod (delete k o) = lineItemSchema zod o.
Proof.
  intros Hk.
  assert (N : forall key, In key lineItemKeys -> key <> k) by (intros key Hin ->; auto).
  split; unfold lineItemSchema.
  - repeat match goal with
    | |- context [field ?key ?s (<[k := v]> o)] =>
        rewrite (field_insert_other key k s v o (N key ltac:(cbn; tauto)))
    end.
    reflexivity.
  - repeat match goal with
    | |- context [field ?key ?s (delete k o)] =>
        rewrite (field_delete_other key k s o (N key ltac:(cbn; tauto)))
    end.
    reflexivity.
Qed.

Lemma issues_string_field (key : string) (o : gmap string value) :
  isNumberKey key = false ->
  issuesOf (field key (optional z_string) o) =
  if accepts zod key (property o key) then [] else [key].
Proof.
  intros H. unfold field, accepts. rewrite H.
  destruct (property o key); reflexivity.
Qed.

Lemma issues_number_field (key : string) (o : gmap string value) :
  isNumberKey key = true ->
  issuesOf (field key (optional (numberLike zod)) o) =
  if accepts zod key (property o key) then [] else [key].
Proof.
  intros H. unfold field, accepts. rewrite H.
  destruct (property o key); try reflexivity.
  unfold optional, numberLike, union_number_string.
  destruct (z_number zod n); reflexivity.
Qed.

Lemma output_string_field (key : string) (o : gmap string value) :
  outputOf (field key (optional z_string) o) = coerceString (property o key).
Proof. unfold field. destruct (property o key); reflexivity. Qed.

Lemma output_number_field (key : string) (o : gmap string value) :
  isNumberKey key = true -> accepts zod key (property o key) = true ->
  outputOf (field key (optional (numberLike zod)) o) = coerceNumber (property o key).
Proof.
  intros K. unfold field, accepts. rewrite K.
  destruct (property o key); try reflexivity.
  unfold optional, numberLike, union_number_string. cbn [andb].
  intros ->. reflexivity.
Qed.

Lemma accepted_when_none_rejected (o : gmap string value) (key : string) :
  rejected zod o = [] -> In key lineItemKeys ->
  accepts zod key (property o key) = true.
Proof.
  intros R Hin. destruct (accepts zod key (property o key)) eqn:A; [reflexivity |].
  assert (Hr : In key (rejected zod o)) by (apply filter_In; rewrite A; auto).
  rewrite R in Hr. destruct Hr.
Qed.

Lemma concat_issues (ok : string -> bool) (keys : list string) :
  concat (map (fun key => if ok key then [] else [key]) keys) =
  List.filter (fun key => negb (ok key)) keys.
Proof.
  induction keys as [| key keys IH]; [reflexivity |].
  cbn [map concat List.filter]. rewrite IH. destruct (ok key); reflexivity.
Qed.

Lemma lineItemSchema_issues (o : gmap string value) :
  lineItemSchema zod o =
  match rejected zod o with
  | [] =>
      Valid (Build_lineItem
        (coerceString (property o "productCode")) (coerceString (property o "description"))
        (coerceString (property o "hsCode")) (coerceString (property o "originCountry"))
        (coerceString (property o "farePreference"))
        (coerceNumber (property o "totalAmount")) (coerceNumber (property o "netWeight"))
        (coerceNumber (property o "grossWeight")) (coerceNumber (property o "quantity"))
        (coerceString (property o "UOM")) (coerceString (property o "type"))
        (coerceNumber (property o "rate")) (coerceNumber (property o "baseAmount"))
        (coerceString (property o "currency")) (coerceString (property o "category")))
  | _ :: _ => Invalid (rejected zod o)
  end.
Proof.
  unfold lineItemSchema.
  assert (E : concat
     [issuesOf (field "productCode" (optional z_string) o);
      issuesOf (field "description" (optional z_string) o);
      issuesOf (field "hsCode" (optional z_string) o);
      issuesOf (field "originCountry" (optional z_string) o);
      issuesOf (field "farePreference" (optional z_string) o);
      issuesOf (field "totalAmount" (optional (numberLike zod)) o);
      issuesOf (field "netWeight" (optional (numberLike zod)) o);
      issuesOf (field "grossWeight" (optional (numberLike zod)) o);
      issuesOf (field "quantity" (optional (numberLike zod)) o);
      issuesOf (field "UOM" (optional z_string) o);
      issuesOf (field "type" (optional z_string) o);
      issuesOf (field "rate" (optional (numberLike zod)) o);
      issuesOf (field "baseAmount" (optional (numberLike zod)) o);
      issuesOf (field "currency" (optional z_string) o);
      issuesOf (field "category" (optional z_string) o)] = rejected zod o).
  { rewrite !issues_string_field by reflexivity.
    rewrite !issues_number_field by reflexivity.
    unfold rejected. rewrite <- concat_issues. reflexivity. }
  rewrite E. destruct (rejected zod o) eqn:R; [| reflexivity].
  pose proof (accepted_when_none_rejected o) as A.
  rewrite !output_string_field.
  repeat match goal with
  | |- context [outputOf (field ?k (optional (numberLike zod)) o)] =>
      rewrite (output_number_field k o eq_refl (A k R ltac:(cbn; tauto)))
  end.
  reflexivity.
Qed.

(** X24. A line item is valid exactly when each key of the shape is
    missing, a string or, for the six numeric keys, a number that
    [z.number()] takes, which a NaN is not; the empty record is valid. An
    invalid one reports all the keys whose value is not accepted, in the
    order of the shape, and nothing else. *)
Theorem lineItem_issues_are_rejected_keys (o : gmap string value) :
  (isValid (lineItemSchema zod o) = true <->
   forall key, In key lineItemKeys -> accepts zod key (property o key) = true) /\
  (forall issues, lineItemSchema zod o = Invalid issues ->
     issues = rejected zod o /\ issues <> [] /\
     forall key, In key issues <->
       In key lineItemKeys /\ accepts zod key (property o key) = false) /\
  isValid (lineItemSchema zod ∅) = true /\
  isValid (lineItemSchema zod {[ "totalAmount" := VNumber NaN ]}) = false /\
  isValid (lineItemSchema zod {[ "totalAmount" := VNumber (Number "12.5") ]}) = true.
Proof.
  rewrite lineItemSchema_issues.
  split; [| split; [| split; [reflexivity | split; vm_compute; reflexivity]]].
  - destruct (rejected zod o) as [| k ks] eqn:E; cbn [isValid].
    + split; [intros _ key Hin | reflexivity].
      destruct (accepts zod key (property o key)) eqn:A; [reflexivity | exfalso].
      assert (Hr : In key (rejected zod o))
        by (apply filter_In; rewrite A; auto).
      rewrite E in Hr. destruct Hr.
    + split; [discriminate | intros H; exfalso].
      assert (Hr : In k (rejected zod o)) by (rewrite E; left; reflexivity).
      apply filter_In in Hr as [Hin Hn]. rewrite (H k Hin) in Hn. discriminate.
  - intros issues. destruct (rejected zod o) as [| k ks] eqn:E; [discriminate |].
    intros [= <-]. split; [reflexivity | split; [discriminate |]].
    intros key. rewrite <- E. unfold rejected. rewrite filter_In, negb_true_iff.
    reflexivity.
Qed.

(** X25. The output of a valid line item is, key by key, the coercion of
    the value under the same key: a string key gives its string, a numeric
    key its number or the number read from its string, and a numeric string
    that does not read as a number is accepted and comes out absent. *)
Theorem lineItem_output_is_keywise (o : gmap string value) (i : lineItem) :
  lineItemSchema zod o = Valid i ->
  (forall key x, In (key, x) (numberFields i) -> x = coerceNumber (property o key)) /\
  (forall key x, In (key, x) (stringFields i) -> x = coerceString (property o key)) /\
  (forall key x s, In (key, x) (numberFields i) -> property o key = VString s ->
     Number (normalized (trim s)) = NaN -> x = None).
Proof.
  rewrite lineItemSchema_issues. destruct (rejected zod o); [| discriminate].
  intros [= <-].
  assert (N : forall key x,
    In (key, x) (numberFields
      (Build_lineItem
        (coerceString (property o "productCode")) (coerceString (property o "description"))
        (coerceString (property o "hsCode")) (coerceString (property o "originCountry"))
        (coerceString (property o "farePreference"))
        (coerceNumber (property o "totalAmount")) (coerceNumber (property o "netWeight"))
        (coerceNumber (property o "grossWeight")) (coerceNumber (property o "quantity"))
        (coerceString (property o "UOM")) (coerceString (property o "type"))
        (coerceNumber (property o "rate")) (coerceNumber (property o "baseAmount"))
        (coerceString (property o "currency")) (coerceString (property o "category"))))
    -> x = coerceNumber (property o key)).
  { intros key x H. cbn in H.
    repeat (destruct H as [[= <- <-] | H]; [reflexivity |]). destruct H. }
  split; [exact N | split].
  - intros key x H. cbn in H.
    repeat (destruct H as [[= <- <-] | H]; [reflexivity |]). destruct H.
  - intros key x s H Hp Hn. rewrite (N key x H), Hp.
    change (coerceNumber (VString s)) with
      (if isEmpty (trim s) then None
       else if isFinite (Number (normalized (trim s)))
            then Some (Number (normalized (trim s))) else None).
    destruct (isEmpty (trim s)); [reflexivity |]. rewrite Hn. reflexivity.
Qed.

End MoreLineItems.

(** ** More on the line items, on examples *)

Section MoreLineItemsInstances.
Import JS Schema Notions NumberNotions.

Lemma lineItem_ignores_other_keys_witness :
  lineItemSchema Zod3 (<["comment" := VNull]> {[ "type" := VString "fee" ]})
    = lineItemSchema Zod3 {[ "type" := VString "fee" ]} /\
  lineItemSchema Zod3 (delete "comment" ({[ "type" := VString "fee" ]} : gmap string value))
    = lineItemSchema Zod3 {[ "type" := VString "fee" ]}.
Proof.
  apply (lineItem_ignores_other_keys Zod3 {[ "type" := VString "fee" ]} "comment" VNull).
  cbn. intuition discriminate.
Defined.

Lemma lineItem_output_is_keywise_witness :
  exists i, lineItemSchema Zod3 {[ "rate" := VString "n/a"; "type" := VString "tax" ]} = Valid i /\
  (forall key x, In (key, x) (numberFields i) ->
     x = coerceNumber (property {[ "rate" := VString "n/a"; "type" := VString "tax" ]} key)) /\
  (forall key x, In (key, x) (stringFields i) ->
     x = coerceString (property {[ "rate" := VString "n/a"; "type" := VString "tax" ]} key)) /\
  (forall key x s, In (key, x) (numberFields i) ->
     property {[ "rate" := VString "n/a"; "type" := VString "tax" ]} key = VString s ->
     Number (normalized (trim s)) = NaN -> x = None).
Proof.
  eexists. split; [vm_compute; reflexivity |].
  apply (lineItem_output_is_keywise Zod3 {[ "rate" := VString "n/a"; "type" := VString "tax" ]}).
  vm_compute. reflexivity.
Defined.

End MoreLineItemsInstances.

(** ** The utilities *)

Section Utilities.
Import JS Utils.

Lemma spanAddress_spec (s : string) :
  s = fst (spanAddress s) ++ snd (spanAddress s) /\
  forallChars isAddressChar (fst (spanAddress s)) = true /\
  match snd (spanAddress s) with
  | "" => True
  | String c _ => isAddressChar c = false
  end.
Proof.
  induction s as [| c r IH]; [cbn; auto |].
  cbn [spanAddress]. destruct (isAddressChar c) eqn:E.
  - destruct (spanAddress r) as [a t]. cbn [fst snd] in *.
    destruct IH as (I1 & I2 & I3). rewrite append_String, <- I1.
    cbn [forallChars]. rewrite E, I2. auto.
  - cbn. rewrite E. auto.
Qed.

Lemma spanAddress_app (a r : string) :
  forallChars isAddressChar a = true ->
  match r with "" => True | String c _ => isAddressChar c = false end ->
  spanAddress (a ++ r) = (a, r).
Proof.
  intros Ha Hr. induction a as [| c a IH].
  - rewrite append_empty_l. destruct r as [| c r]; [reflexivity |].
    cbn. rewrite Hr. reflexivity.
  - cbn in Ha. apply andb_true_iff in Ha as [Hc Ha].
    rewrite append_String. cbn [spanAddress]. rewrite Hc, (IH Ha). reflexivity.
Qed.

Lemma dotInside_spec (d : string) :
  dotInside d = true <->
  exists b c, d = b ++ "." ++ c /\ isEmpty b = false /\ isEmpty c = false.
Proof.
  induction d as [| x r IH]; cbn [dotInside].
  - split; [discriminate | intros (b & c & H & Hb & _)]. destruct b; discriminate.
  - destruct r as [| y r'].
    + split; [discriminate | intros (b & c & H & Hb & Hc)].
      destruct b as [| b0 b]; [discriminate |].
      rewrite append_String in H. injection H as _ H.
      destruct b; discriminate.
    + rewrite orb_true_iff, andb_true_iff, Ascii.eqb_eq, negb_true_iff, IH. split.
      * intros [[-> He] | (b & c & H & Hb & Hc)].
        -- exists (String x ""), r'. auto.
        -- exists (String x b), c. rewrite H. auto.
      * intros (b & c & H & Hb & Hc).
        destruct b as [| b0 b]; [discriminate |].
        rewrite append_String in H. injection H as -> H.
        destruct b as [| b1 b].
        -- left. rewrite append_empty_l, append_String, append_empty_l in H.
           injection H as -> ->. auto.
        -- right. exists (String b1 b), c. auto.
Qed.

Lemma isAddressPart_spec (s : string) :
  isAddressPart s = true <-> isEmpty s = false /\ forallChars isAddressChar s = true.
Proof. unfold isAddressPart. rewrite andb_true_iff, negb_true_iff. reflexivity. Qed.

Lemma forallChars_app' (p : ascii -> bool) (a b : string) :
  forallChars p (a ++ b) = forallChars p a && forallChars p b.
Proof.
  induction a as [| c a IH]; [reflexivity |].
  rewrite append_String. cbn. rewrite IH, andb_assoc. reflexivity.
Qed.

Lemma isValidEmail_matches (s : string) : isValidEmail s = true <-> matchesEmail s.
Proof.
  unfold isValidEmail, matchesEmail. split.
  - destruct (spanAddress_spec s) as (E & Ha & Hr).
    destruct (spanAddress s) as [a rest]. cbn [fst snd] in *.
    rewrite andb_true_iff, negb_true_iff. intros [Hne H].
    destruct rest as [| c d]; [discriminate |].
    rewrite !andb_true_iff, Ascii.eqb_eq in H. destruct H as [[-> Hd] Hdot].
    apply dotInside_spec in Hdot as (b & c & -> & Hb & Hc).
    rewrite forallChars_app', append_String, append_empty_l in Hd.
    cbn [forallChars] in Hd. rewrite !andb_true_iff in Hd. destruct Hd as (Fb & _ & Fc).
    exists a, b, c. rewrite !isAddressPart_spec. rewrite E.
    rewrite !append_String, !append_empty_l. auto.
  - intros (a & b & c & -> & Ha & Hb & Hc).
    apply isAddressPart_spec in Ha as [Ea Fa], Hb as [Eb Fb], Hc as [Ec Fc].
    rewrite (append_String "@"), append_empty_l.
    rewrite spanAddress_app; [| assumption | reflexivity].
    rewrite Ea. cbn [negb andb].
    rewrite Ascii.eqb_refl. cbn [andb].
    rewrite forallChars_app', Fb, append_String, append_empty_l. cbn [forallChars andb].
    rewrite Fc. cbn [andb].
    change (isAddressChar ".") with true. cbn [andb].
    apply dotInside_spec. exists b, c. rewrite append_String, append_empty_l. auto.
Qed.

Lemma countChar_app (x : ascii) (a b : string) :
  countChar x (a ++ b) = countChar x a + countChar x b.
Proof.
  induction a as [| c a IH]; [reflexivity |].
  rewrite append_String. cbn. rewrite IH. lia.
Qed.

Lemma countChar_address (a : string) :
  forallChars isAddressChar a = true -> countChar "@" a = 0.
Proof.
  induction a as [| c a IH]; [reflexivity |].
  cbn. rewrite andb_true_iff. intros [Hc Ha]. rewrite (IH Ha).
  unfold isAddressChar in Hc. apply andb_true_iff in Hc as [_ Hc].
  apply negb_true_iff in Hc. rewrite Hc. reflexivity.
Qed.

Lemma address_no_space (a : string) :
  forallChars isAddressChar a = true ->
  forallChars (fun c => negb (isWhiteSpace c)) a = true.
Proof.
  induction a as [| c a IH]; [reflexivity |].
  cbn. rewrite !andb_true_iff. intros [Hc Ha]. split; [| exact (IH Ha)].
  unfold isAddressChar in Hc. apply andb_true_iff in Hc. tauto.
Qed.

Lemma dotInside_none (b : string) :
  forallChars (fun c => negb (Ascii.eqb c ".")) b = true -> dotInside b = false.
Proof.
  induction b as [| x r IH]; [reflexivity |].
  cbn [forallChars dotInside]. rewrite andb_true_iff. intros [_ Hr].
  destruct r as [| y r']; [reflexivity |].
  rewrite (IH Hr). cbn [forallChars] in Hr. apply andb_true_iff in Hr as [Hy _].
  apply negb_true_iff in Hy. rewrite Hy. reflexivity.
Qed.

(** X26. The test of an address accepts exactly the strings made of a part
    before an at sign, a part, a period and a last part, the three parts not
    empty and without white space or at sign. An accepted address thus has
    exactly one at sign and no white space; a domain without a period, as
    in user@host, is refused. *)
Theorem isValidEmail_spec (email : string) :
  (isValidEmail email = true <-> matchesEmail email) /\
  (isValidEmail email = true ->
   countChar "@" email = 1 /\
   forallChars (fun c => negb (isWhiteSpace c)) email = true) /\
  (forall a b, forallChars isAddressChar a = true ->
     forallChars (fun c => negb (Ascii.eqb c ".")) b = true ->
     isValidEmail (a ++ "@" ++ b) = false).
Proof.
  split; [apply isValidEmail_matches |]. split.
  - intros H. apply isValidEmail_matches in H as (a & b & c & -> & Ha & Hb & Hc).
    apply isAddressPart_spec in Ha as [_ Fa], Hb as [_ Fb], Hc as [_ Fc].
    rewrite !append_String, !append_empty_l.
    split.
    + rewrite countChar_app. cbn [countChar]. rewrite countChar_app. cbn [countChar].
      rewrite !countChar_address by assumption. reflexivity.
    + rewrite forallChars_app'. cbn [forallChars]. rewrite forallChars_app'.
      cbn [forallChars]. rewrite !address_no_space by assumption. reflexivity.
  - intros a b Fa Fb. unfold isValidEmail.
    rewrite append_String, append_empty_l.
    rewrite spanAddress_app; [| assumption | reflexivity].
    rewrite (dotInside_none b Fb), !andb_false_r. reflexivity.
Qed.

Example isValidEmail_examples :
  isValidEmail "jo@example.org" = true /\ isValidEmail "jo@example" = false /\
  isValidEmail "jo smith@example.org" = false /\ isValidEmail "a@b@c.d" = false /\
  isValidEmail "a@.b.c" = true /\ isValidEmail "@b.c" = false.
Proof. repeat split. Qed.

(** *** The identifiers *)

Lemma hexDigit_hex (v : N) : (v < 16)%N -> isHexChar (hexDigit v) = true.
Proof.
  intros H. destruct v as [| p]; [reflexivity |].
  do 4 (destruct p as [p | p |]; try lia; try reflexivity).
Qed.

Lemma variant_digit (r : N) :
  In (hexDigit (N.lor (N.land r 3) 8)) ["8"; "9"; "a"; "b"]%char.
Proof.
  assert (H : (N.land r 3 < 4)%N).
  { change 3%N with (N.ones 2). rewrite N.land_ones. apply N.mod_lt. discriminate. }
  destruct (N.land r 3) as [| p]; [cbn; tauto |].
  destruct p as [[p | p |] | [p | p |] |]; try lia; cbn; tauto.
Qed.

(** X27. Whatever the random draws, the identifier has the layout of a
    version 4 UUID: 36 characters, hyphens at the positions 8, 13, 18 and
    23, the digit 4 at position 14, one of 8, 9, a, b at position 19, and a
    lowercase hexadecimal digit at every other position. *)
Theorem generateUUID_layout (random : nat -> N) :
  (forall k, (random k < 16)%N) ->
  String.length (generateUUID random) = 36 /\
  (forall i, In i [8; 13; 18; 23] -> String.get i (generateUUID random) = Some "-"%char) /\
  String.get 14 (generateUUID random) = Some "4"%char /\
  (exists c, String.get 19 (generateUUID random) = Some c /\
             In c ["8"; "9"; "a"; "b"]%char) /\
  (forall i c, String.get i (generateUUID random) = Some c ->
     ~ In i [8; 13; 18; 23] -> isHexChar c = true).
Proof.
  intros H.
  assert (X : forall k, isHexChar (hexDigit (random k)) = true)
    by (intros k; apply hexDigit_hex, H).
  assert (Y : forall r, isHexChar (hexDigit (N.lor (N.land r 3) 8)) = true).
  { intros r. destruct (variant_digit r) as [<- | [<- | [<- | [<- | []]]]]; reflexivity. }
  unfold generateUUID. cbn [fillTemplate Ascii.eqb Bool.eqb orb andb Nat.add].
  split; [reflexivity |].
  split; [intros i [<- | [<- | [<- | [<- | []]]]]; reflexivity |].
  split; [reflexivity |].
  split; [eexists; split; [reflexivity | apply variant_digit] |].
  intros i c G N.
  do 36 (destruct i as [| i];
    [first [exfalso; apply N; cbn; tauto
           | injection G as <-; first [apply X | apply Y | reflexivity]] |]).
  discriminate.
Qed.

Lemma generateUUID_layout_witness :
  String.length (generateUUID (fun k => N.of_nat (k mod 16))) = 36 /\
  (forall i, In i [8; 13; 18; 23] ->
     String.get i (generateUUID (fun k => N.of_nat (k mod 16))) = Some "-"%char) /\
  String.get 14 (generateUUID (fun k => N.of_nat (k mod 16))) = Some "4"%char /\
  (exists c, String.get 19 (generateUUID (fun k => N.of_nat (k mod 16))) = Some c /\
             In c ["8"; "9"; "a"; "b"]%char) /\
  (forall i c, String.get i (generateUUID (fun k => N.of_nat (k mod 16))) = Some c ->
     ~ In i [8; 13; 18; 23] -> isHexChar c = true).
Proof.
  apply (generateUUID_layout (fun k => N.of_nat (k mod 16))).
  intros k. pose proof (Nat.mod_upper_bound k 16). lia.
Defined.

End Utilities.
